(** * photodiag: the spatial encoder engine (src/photodiag/spatial_encoder.py)

    A shallow embedding of [SpatialEncoder]: configuration and its validated
    setters, background calibration, background removal and edge detection
    ([process]), per-file processing ([process_hdf5]), the scan pipeline on
    a pool of workers ([process_eco]) and the time calibration
    ([calibrate_time]).

    Numbers are IEEE binary64 floats, as numpy's [float64]: Rocq's primitive
    floats.  A numpy array that the program mutates in place is an object on a
    heap (a flat buffer) seen through a shape; arrays that are only read are
    values.  Python exceptions are results of an error-and-state monad that
    keeps the state reached when the exception is raised.

    What lies outside the file is a parameter: [find_edge] of
    photodiag/utils.py, and from numpy the mean that skips NaN, the
    least-squares solve behind [np.polyfit] and the contents of a new
    [np.empty] array.  The order in which the tasks of the pool complete is
    a parameter of [process_eco]. *)

From Stdlib Require Import Floats.
From stdpp Require Import base list strings sorting gmap.

Local Open Scope Z_scope.

(** ** Exceptions *)

Inductive exn :=
  | StrategyConflict        (* Exception("Either 'events_channel' and/or ...") *)
  | UnknownBackgroundMethod (value : string)   (* ValueError *)
  | UnknownEdgeType (value : string)           (* ValueError *)
  | StepLengthTooSmall                         (* ValueError *)
  | NoDarkShots             (* Exception("None of pulse ids correspond ...") *)
  | BackgroundNotFound      (* Exception("Background calibration is not found") *)
  | BadDimension            (* Exception('Input data should be either 1- or 2-...') *)
  | BroadcastError          (* numpy: operands could not be broadcast together *)
  | IndexError              (* numpy / Python: index out of range, mask mismatch *)
  | KeyError                (* h5py / dict: no such entry *)
  | FileNotFound            (* open(): no such file *)
  | PoolValueError          (* Pool: Number of processes must be at least 1 *)
  | PolyfitTypeError        (* np.polyfit: empty x, or x and y of two lengths *)
  | LinAlgError             (* np.linalg.lstsq: SVD did not converge *)
  | ScalarExpected          (* numpy: setting an array element with a sequence *)
  | UnboundLocalError       (* a local variable read before any assignment *)
  | FindEdgeError (code : Z).                  (* whatever find_edge raises *)

Inductive result (A : Type) :=
  | Ok (a : A)
  | Raise (e : exn).
Arguments Ok {A} a.
Arguments Raise {A} e.

(** The errors that reject a configuration. *)
Definition is_config_error (e : exn) : bool :=
  match e with
  | StrategyConflict | UnknownBackgroundMethod _ | UnknownEdgeType _
  | StepLengthTooSmall => true
  | _ => false
  end.

(** ** Configuration and engine state *)

Definition background_methods : list string := ["div"; "sub"]%string.
Definition edge_types : list string := ["falling"; "rising"]%string.

(** [x not in l] of Python, on strings. *)
Definition str_in (x : string) (l : list string) : bool :=
  existsb (String.eqb x) l.

Record SpatialEncoder := {
  channel : string;
  roi : option Z * option Z;
  background_method : string;
  step_length : Z;
  refinement : float;
  events_channel : option string;
  dark_shot_event : nat;
  dark_shot_filter : option (list Z -> list bool);
  _background : option (list float);
  pix_per_fs : option float;
  edge_type : string
}.

(** Python truthiness of the two strategy attributes: [None] and the empty
    string are false, a function object is true. *)
Definition truthy_channel (c : option string) : bool :=
  match c with
  | Some s => negb (String.eqb s EmptyString)
  | None => false
  end.

Definition truthy_filter (f : option (list Z -> list bool)) : bool :=
  match f with Some _ => true | None => false end.

(** [self.events_channel or self.dark_shot_filter] *)
Definition has_strategy (self : SpatialEncoder) : bool :=
  truthy_channel (events_channel self) || truthy_filter (dark_shot_filter self).

(** *** Validated setters *)

Definition set_background_method (value : string) (self : SpatialEncoder)
  : result SpatialEncoder :=
  if negb (str_in value background_methods) then Raise (UnknownBackgroundMethod value)
  else Ok {| channel := channel self; roi := roi self;
             background_method := value;
             step_length := step_length self; refinement := refinement self;
             events_channel := events_channel self;
             dark_shot_event := dark_shot_event self;
             dark_shot_filter := dark_shot_filter self;
             _background := _background self; pix_per_fs := pix_per_fs self;
             edge_type := edge_type self |}.

Definition set_edge_type (value : string) (self : SpatialEncoder)
  : result SpatialEncoder :=
  if negb (str_in value edge_types) then Raise (UnknownEdgeType value)
  else Ok {| channel := channel self; roi := roi self;
             background_method := background_method self;
             step_length := step_length self; refinement := refinement self;
             events_channel := events_channel self;
             dark_shot_event := dark_shot_event self;
             dark_shot_filter := dark_shot_filter self;
             _background := _background self; pix_per_fs := pix_per_fs self;
             edge_type := value |}.

Definition set_step_length (value : Z) (self : SpatialEncoder)
  : result SpatialEncoder :=
  if value <? 4 then Raise StepLengthTooSmall
  else Ok {| channel := channel self; roi := roi self;
             background_method := background_method self;
             step_length := value; refinement := refinement self;
             events_channel := events_channel self;
             dark_shot_event := dark_shot_event self;
             dark_shot_filter := dark_shot_filter self;
             _background := _background self; pix_per_fs := pix_per_fs self;
             edge_type := edge_type self |}.

(** *** Plain attributes

    [events_channel] and [dark_shot_filter] have no property: assigning them
    is the attribute store that [__init__] itself uses, without any check. *)

Definition set_events_channel (value : option string) (self : SpatialEncoder)
  : SpatialEncoder :=
  {| channel := channel self; roi := roi self;
     background_method := background_method self;
     step_length := step_length self; refinement := refinement self;
     events_channel := value;
     dark_shot_event := dark_shot_event self;
     dark_shot_filter := dark_shot_filter self;
     _background := _background self; pix_per_fs := pix_per_fs self;
     edge_type := edge_type self |}.

Definition set_dark_shot_filter (value : option (list Z -> list bool))
  (self : SpatialEncoder) : SpatialEncoder :=
  {| channel := channel self; roi := roi self;
     background_method := background_method self;
     step_length := step_length self; refinement := refinement self;
     events_channel := events_channel self;
     dark_shot_event := dark_shot_event self;
     dark_shot_filter := value;
     _background := _background self; pix_per_fs := pix_per_fs self;
     edge_type := edge_type self |}.

Definition set_pix_per_fs (value : option float) (self : SpatialEncoder)
  : SpatialEncoder :=
  {| channel := channel self; roi := roi self;
     background_method := background_method self;
     step_length := step_length self; refinement := refinement self;
     events_channel := events_channel self;
     dark_shot_event := dark_shot_event self;
     dark_shot_filter := dark_shot_filter self;
     _background := _background self; pix_per_fs := value;
     edge_type := edge_type self |}.

Definition set_background (value : option (list float)) (self : SpatialEncoder)
  : SpatialEncoder :=
  {| channel := channel self; roi := roi self;
     background_method := background_method self;
     step_length := step_length self; refinement := refinement self;
     events_channel := events_channel self;
     dark_shot_event := dark_shot_event self;
     dark_shot_filter := dark_shot_filter self;
     _background := value; pix_per_fs := pix_per_fs self;
     edge_type := edge_type self |}.

(** *** [__init__]

    The conflict test comes first, then the attributes are stored in the
    order of the source, the three validated ones through their setters. *)

Definition init (channel_ : string) (roi_ : option Z * option Z)
    (background_method_ : string) (step_length_ : Z)
    (events_channel_ : option string) (dark_shot_event_ : nat)
    (dark_shot_filter_ : option (list Z -> list bool))
    (refinement_ : float) (edge_type_ : string) : result SpatialEncoder :=
  if truthy_channel events_channel_ && truthy_filter dark_shot_filter_
  then Raise StrategyConflict
  else if negb (str_in background_method_ background_methods)
  then Raise (UnknownBackgroundMethod background_method_)
  else if step_length_ <? 4 then Raise StepLengthTooSmall
  else if negb (str_in edge_type_ edge_types)
  then Raise (UnknownEdgeType edge_type_)
  else Ok {| channel := channel_; roi := roi_;
             background_method := background_method_;
             step_length := step_length_; refinement := refinement_;
             events_channel := events_channel_;
             dark_shot_event := dark_shot_event_;
             dark_shot_filter := dark_shot_filter_;
             _background := None; pix_per_fs := None;
             edge_type := edge_type_ |}.

(** The invariant that the validated setters maintain. *)
Definition config_ok (self : SpatialEncoder) : Prop :=
  str_in (background_method self) background_methods = true /\
  str_in (edge_type self) edge_types = true /\
  4 <= step_length self.

(** ** numpy arrays *)

(** A two-dimensional array read as a value: [ncols] is the second entry of
    its shape, kept because an array may have no row. *)
Record matrix := {
  ncols : nat;
  rows : list (list float)
}.

(** An array object: a view, through [shape], of the heap buffer [base]. *)
Record ndarray := {
  base : nat;
  shape : list nat
}.

(** The contents of an array, as handed to a function that only reads it. *)
Record ndvalue := {
  vshape : list nat;
  vdata : list float
}.

#[global] Instance float_inhabited : Inhabited float := populate 0%float.

Definition float_of_nat (n : nat) : float :=
  PrimFloat.of_uint63 (Uint63.of_Z (Z.of_nat n)).

(** [add.reduce(axis=0)]: the rows are accumulated one after the other from
    the first one; with no row the result is the additive identity. *)
Definition col_sum (k : nat) (rs : list (list float)) : list float :=
  match rs with
  | [] => replicate k 0%float
  | r :: rs' => fold_left (zip_with PrimFloat.add) rs' r
  end.

(** [m.mean(axis=0)]: the column sums divided by the number of rows (NaN
    in every column when there is no row). *)
Definition mean_axis0 (m : matrix) : list float :=
  map (fun s => PrimFloat.div s (float_of_nat (length (rows m))))
      (col_sum (ncols m) (rows m)).

(** [np.any(mask)] *)
Definition np_any (mask : list bool) : bool := existsb id mask.

(** The elements of [xs] at the positions where [mask] is true. *)
Fixpoint compress {A} (mask : list bool) (xs : list A) : list A :=
  match mask, xs with
  | b :: mask', x :: xs' =>
      if b then x :: compress mask' xs' else compress mask' xs'
  | _, _ => []
  end.

(** [xs[mask]]: numpy refuses a boolean index of another length. *)
Definition mask_select {A} (mask : list bool) (xs : list A) : result (list A) :=
  if (length mask =? length xs)%nat then Ok (compress mask xs)
  else Raise IndexError.

(** [xs[mask] = v] *)
Definition mask_assign {A} (mask : list bool) (v : A) (xs : list A)
  : result (list A) :=
  if (length mask =? length xs)%nat
  then Ok (zip_with (fun (b : bool) x => if b then v else x) mask xs)
  else Raise IndexError.

(** The [n] rows of length [k] of a flat buffer in row-major order. *)
Fixpoint chunks {A} (k n : nat) (buf : list A) : list (list A) :=
  match n with
  | O => []
  | S n' => take k buf :: chunks k n' (drop k buf)
  end.

(** [op] applied between every row of the buffer and [bg], element by
    element. *)
Definition elementwise_rows (op : float -> float -> float) (n k : nat)
    (bg : list float) (buf : list float) : list float :=
  concat (map (fun row => zip_with op row bg) (chunks k n buf)).

(** [data op= bg] for a two-dimensional [data] of shape [(n, k)] and a
    one-dimensional [bg]: numpy broadcasts [bg] over the rows when its length
    is [k] or 1, and refuses any other length. *)
Definition broadcast_rows (op : float -> float -> float) (n k : nat)
    (bg : list float) (buf : list float) : result (list float) :=
  if (length bg =? k)%nat
  then Ok (elementwise_rows op n k bg buf)
  else match bg with
       | [b] => Ok (map (fun x => op x b) buf)
       | _ => Raise BroadcastError
       end.

(** ** The world: the engine object, the array heap and the files *)

(** What [find_edge] returns: the edge position of every row, and its other
    entries (cross-correlation curves, amplitudes), of a type [X] left open. *)
Record edges (X : Type) := {
  fe_edge_pos : list float;
  fe_extra : X
}.
Arguments fe_edge_pos {X} _.
Arguments fe_extra {X} _.

(** The result dictionary; an entry that was never stored is [None].  [R] is
    how the array under [raw_input] is held: an array object ([ndarray]) in
    the process that computed it, its contents ([ndvalue]) once the result
    has been sent from a worker process. *)
Record output (X R : Type) := {
  edge_pos : list float;
  extra : X;
  raw_input : option R;
  pulse_id : option (list Z);
  is_dark : option (option (list bool));
  images : option (option (list (list (list float))));
  scan_pos_fs : option float
}.
Arguments edge_pos {X R} _.
Arguments extra {X R} _.
Arguments raw_input {X R} _.
Arguments pulse_id {X R} _.
Arguments is_dark {X R} _.
Arguments images {X R} _.
Arguments scan_pos_fs {X R} _.

(** ** Files *)

(** A channel group of a recording: one pulse id and one camera image
    (rows of [img_width] unsigned 16-bit pixels) per shot. *)
Record image_group := {
  img_pulse_id : list Z;
  img_width : nat;
  img_data : list (list (list Z))
}.

(** An events group: one pulse id and one row of event flags per shot. *)
Record event_group := {
  ev_pulse_id : list Z;
  ev_data : list (list Z)
}.

(** An hdf5 recording: whether it has a [/data] entry, and its groups by
    full path. *)
Record h5file := {
  has_data_group : bool;
  image_groups : gmap string image_group;
  event_groups : gmap string event_group
}.

(** The json of an eco scan, the two entries that are read. *)
Record eco_scan := {
  scan_readbacks : list (list float);
  scan_files : list (list string)
}.

Record world := {
  self : SpatialEncoder;
  heap : list (list float);
  h5_files : gmap string h5file;
  eco_files : gmap string eco_scan
}.

Definition with_self (s : SpatialEncoder) (w : world) : world :=
  {| self := s; heap := heap w; h5_files := h5_files w; eco_files := eco_files w |}.

Definition with_heap (h : list (list float)) (w : world) : world :=
  {| self := self w; heap := h; h5_files := h5_files w; eco_files := eco_files w |}.

(** ** The monad of the methods: a result and the world that was reached *)

Definition M (A : Type) : Type := world -> result A * world.

Definition ret {A} (a : A) : M A := fun w => (Ok a, w).
Definition raise {A} (e : exn) : M A := fun w => (Raise e, w).
Definition bind {A B} (m : M A) (k : A -> M B) : M B :=
  fun w => match m w with
           | (Ok a, w') => k a w'
           | (Raise e, w') => (Raise e, w')
           end.
Definition lift {A} (r : result A) : M A := fun w => (r, w).
Definition get_self : M SpatialEncoder := fun w => (Ok (self w), w).
Definition put_self (s : SpatialEncoder) : M unit := fun w => (Ok tt, with_self s w).

(** An operation that raises no configuration error. *)
Definition runtime_errors {A} (m : M A) : Prop :=
  forall w e w', m w = (Raise e, w') -> is_config_error e = false.

Notation "x <~ m ;; k" := (bind m (fun x => k))
  (at level 100, m at next level, right associativity).
Notation "m ;;; k" := (bind m (fun _ => k))
  (at level 100, right associativity).

(** A new array object holding [buf]. *)
Definition alloc (shp : list nat) (buf : list float) : M ndarray :=
  fun w => (Ok {| base := length (heap w); shape := shp |},
            with_heap (heap w ++ [buf]) w).

(** The buffer behind an array object. *)
Definition buffer (h : list (list float)) (a : ndarray) : list float :=
  h !!! base a.

Definition load (a : ndarray) : M ndvalue :=
  fun w => (Ok {| vshape := shape a; vdata := buffer (heap w) a |}, w).

(** An in-place operation: the new buffer replaces the old one behind every
    view of it. *)
Definition update_buffer (a : ndarray)
    (f : list float -> result (list float)) : M unit :=
  fun w => match f (buffer (heap w) a) with
           | Ok buf' => (Ok tt, with_heap (<[base a := buf']> (heap w)) w)
           | Raise e => (Raise e, w)
           end.

(** [data op= bg], [bg] one-dimensional.  [process] reaches this with a
    two-dimensional [data], or with a zero-dimensional one, onto which no
    one-dimensional array can be broadcast. *)
Definition inplace (op : float -> float -> float) (bg : list float)
    (data : ndarray) : M unit :=
  match shape data with
  | [n; k] => update_buffer data (broadcast_rows op n k bg)
  | _ => raise BroadcastError
  end.

(** [data -= 1] *)
Definition inplace_scalar (op : float -> float -> float) (c : float)
    (data : ndarray) : M unit :=
  update_buffer data (fun buf => Ok (map (fun x => op x c) buf)).

(** *** [calibrate_background] *)

(** The [if is_dark is not None:] block: the rows that are averaged. *)
Definition dark_rows (data : matrix) (is_dark_ : option (list bool))
  : result matrix :=
  match is_dark_ with
  | Some mask =>
      if np_any mask
      then match mask_select mask (rows data) with
           | Ok rs => Ok {| ncols := ncols data; rows := rs |}
           | Raise e => Raise e
           end
      else Raise NoDarkShots
  | None => Ok data
  end.

Definition calibrate_background (data : matrix) (is_dark_ : option (list bool))
  : M unit :=
  data' <~ lift (dark_rows data is_dark_) ;;
  s <~ get_self ;;
  put_self (set_background (Some (mean_axis0 data')) s).

(** Task [i] completes no later than task [j]. *)
Definition earlier (times : nat -> nat) (i j : nat) : Prop :=
  (times i <= times j)%nat.

#[global] Instance earlier_dec times i j : Decision (earlier times i j) :=
  decide (times i <= times j)%nat.

Section Engine.

(** [find_edge] (photodiag/utils.py) is not part of the sources at hand: it
    is a parameter of the development, a function of the corrected
    waveforms, the step length, the edge type and the refinement that reads
    its input and returns the edge positions, or raises an error of its own
    (here a code). *)
Variable X : Type.
Variable find_edge : ndvalue -> Z -> string -> float -> edges X + Z.

(** The call of [find_edge] and the assembly of the output of [process]:
    with [debug], the array that was processed is stored under
    [raw_input]. *)
Definition edge_detection (s : SpatialEncoder) (v : ndvalue)
    (data : ndarray) (debug : bool) : result (output X ndarray) :=
  match find_edge v (step_length s) (edge_type s) (refinement s) with
  | inl e =>
      Ok {| edge_pos := fe_edge_pos e; extra := fe_extra e;
            raw_input := if debug then Some data else None;
            pulse_id := None; is_dark := None; images := None;
            scan_pos_fs := None |}
  | inr code => Raise (FindEdgeError code)
  end.

(** *** [process] *)

(** [data.ndim == 1]: a view with a new first axis; more than two
    dimensions are refused. *)
Definition as_two_dimensional (data : ndarray) : M ndarray :=
  match shape data with
  | [k] => ret {| base := base data; shape := [1%nat; k] |}
  | _ :: _ :: _ :: _ => raise BadDimension
  | _ => ret data
  end.

Definition div_corr (x r : float) : float :=
  PrimFloat.sub (PrimFloat.div x r) 1%float.

(** The [# remove background] block. *)
Definition remove_background (method : string) (bg : list float)
    (data : ndarray) : M unit :=
  if String.eqb method "sub" then inplace PrimFloat.sub bg data
  else if String.eqb method "div"
  then (inplace PrimFloat.div bg data ;;; inplace_scalar PrimFloat.sub 1%float data)
  else ret tt.

(** What the block leaves in a buffer seen with shape [(n, k)]. *)
Definition corrected_buffer (method : string) (bg : list float) (n k : nat)
    (buf : list float) : result (list float) :=
  if String.eqb method "sub" then broadcast_rows PrimFloat.sub n k bg buf
  else if String.eqb method "div"
  then match broadcast_rows PrimFloat.div n k bg buf with
       | Ok b => Ok (map (fun x => PrimFloat.sub x 1%float) b)
       | Raise e => Raise e
       end
  else Ok buf.

Definition process (data : ndarray) (debug : bool) : M (output X ndarray) :=
  s <~ get_self ;;
  match _background s with
  | None => raise BackgroundNotFound
  | Some bg =>
      data <~ as_two_dimensional data ;;
      remove_background (background_method s) bg data ;;;
      v <~ load data ;;
      lift (edge_detection s v data debug)
  end.

(** *** [_read_bsread_file] *)

Definition path_of (f : h5file) (name : string) : string :=
  if has_data_group f then "/data/" +:+ name else "/" +:+ name.

(** [xs[idx]] for a list of positions. *)
Definition take_indices {A} (idx : list nat) (xs : list A) : result (list A) :=
  foldr (fun i acc =>
           match xs !! i, acc with
           | Some x, Ok l => Ok (x :: l)
           | None, _ => Raise IndexError
           | _, Raise e => Raise e
           end) (Ok []) idx.

(** The position of the first occurrence of [v]. *)
Definition first_index (v : Z) (l : list Z) : nat :=
  match list_find (fun x => x = v) l with
  | Some (i, _) => i
  | None => O
  end.

(** [np.intersect1d(a, b, return_indices=True)]: the common values, sorted
    and without repetition, and where each occurs first in [a] and in [b]. *)
Definition intersect1d (a b : list Z) : list Z * list nat * list nat :=
  let common := filter (fun v => v ∈ b) (merge_sort Z.le (remove_dups a)) in
  (common, map (fun v => first_index v a) common,
           map (fun v => first_index v b) common).

(** A Python slice [start:stop] of a sequence. *)
Definition slice_bound (n default : Z) (o : option Z) : Z :=
  match o with
  | None => default
  | Some i => if i <? 0 then Z.max 0 (i + n) else Z.min i n
  end.

Definition py_slice {A} (r : option Z * option Z) (l : list A) : list A :=
  let n := Z.of_nat (length l) in
  let a := slice_bound n 0 (fst r) in
  let b := slice_bound n n (snd r) in
  take (Z.to_nat (b - a)) (drop (Z.to_nat a) l).

(** [.astype(float)] of an unsigned 16-bit pixel. *)
Definition pixel (z : Z) : float := PrimFloat.of_uint63 (Uint63.of_Z z).

(** One image cut to the region of interest and cast to float. *)
Definition crop (r : option Z * option Z) (img : list (list Z))
  : list (list float) :=
  map (map pixel) (py_slice r img).

(** The selection of shots: a list of positions (events strategy) or a
    boolean mask. *)
Inductive selection :=
  | Positions (idx : list nat)
  | Mask (mask : list bool).

Definition select {A} (sel : selection) (xs : list A) : result (list A) :=
  match sel with
  | Positions idx => take_indices idx xs
  | Mask mask => mask_select mask xs
  end.

(** [events_channel_group["data"][event_index, dark_shot_event].astype(bool)] *)
Definition event_flags (g : event_group) (event_index : list nat)
    (event : nat) : result (list bool) :=
  foldr (fun i acc =>
           match ev_data g !! i, acc with
           | Some row, Ok l =>
               match row !! event with
               | Some v => Ok (negb (v =? 0) :: l)
               | None => Raise IndexError
               end
           | None, _ => Raise IndexError
           | _, Raise e => Raise e
           end) (Ok []) event_index.

Definition nonzero (pid : list Z) : list bool :=
  map (fun v => negb (v =? 0)) pid.

(** The branch of the events channel: the shots whose pulse id is also
    in the events group, without pulse id 0, and their dark flag. *)
Definition events_selection (events_channel_group : event_group)
    (event : nat) (pulse_id_ : list Z)
  : result (selection * option (list bool)) :=
  let '(pid, index, event_index) :=
    intersect1d pulse_id_ (ev_pulse_id events_channel_group) in
  let pid_zero_ind := map (fun v => v =? 0) pid in
  let index :=
    if np_any pid_zero_ind then compress (map negb pid_zero_ind) index
    else index in
  let event_index :=
    if np_any pid_zero_ind then compress (map negb pid_zero_ind) event_index
    else event_index in
  match event_flags events_channel_group event_index event with
  | Ok dark => Ok (Positions index, Some dark)
  | Raise e => Raise e
  end.

(** The [if self.events_channel: ... elif self.dark_shot_filter: ... else:]
    of the reader: which shots are kept, and the dark mask over them. *)
Definition shot_selection (s : SpatialEncoder) (h5f : h5file)
    (pulse_id_ : list Z) : result (selection * option (list bool)) :=
  if truthy_channel (events_channel s) then
    match event_groups h5f
            !! path_of h5f (default EmptyString (events_channel s)) with
    | None => Raise KeyError
    | Some events_channel_group =>
        events_selection events_channel_group (dark_shot_event s) pulse_id_
    end
  else
    match dark_shot_filter s with
    | Some f =>
        let index := nonzero pulse_id_ in
        match mask_select index (f pulse_id_) with
        | Ok dark => Ok (Mask index, Some dark)
        | Raise e => Raise e
        end
    | None => Ok (Mask (nonzero pulse_id_), None)
    end.

(** The waveforms of the kept shots: every image cut to the region of
    interest, cast to float and averaged over its rows. *)
Definition waveforms (s : SpatialEncoder) (channel_group : image_group)
    (index : selection)
  : result (matrix * list Z * list (list (list float))) :=
  match select index (img_pulse_id channel_group),
        select index (img_data channel_group) with
  | Ok pulse_id_, Ok imgs =>
      let images_ := map (crop (roi s)) imgs in
      let data :=
        {| ncols := img_width channel_group;
           rows := map (fun img =>
                          mean_axis0 {| ncols := img_width channel_group;
                                        rows := img |}) images_ |} in
      Ok (data, pulse_id_, images_)
  | Raise e, _ => Raise e
  | _, Raise e => Raise e
  end.

Definition read_recording (s : SpatialEncoder) (h5f : h5file)
    (return_images : bool)
  : result (matrix * list Z * option (list bool)
            * option (list (list (list float)))) :=
  match image_groups h5f !! path_of h5f (channel s) with
  | None => Raise KeyError
  | Some channel_group =>
      match shot_selection s h5f (img_pulse_id channel_group) with
      | Raise e => Raise e
      | Ok (index, dark) =>
          match waveforms s channel_group index with
          | Ok (data, pulse_id_, images_) =>
              Ok (data, pulse_id_, dark,
                  if return_images then Some images_ else None)
          | Raise e => Raise e
          end
      end
  end.

Definition _read_bsread_file (filepath : string) (return_images : bool)
  : M (matrix * list Z * option (list bool)
       * option (list (list (list float)))) :=
  fun w =>
  match h5_files w !! filepath with
  | None => (Raise FileNotFound, w)
  | Some h5f => (read_recording (self w) h5f return_images, w)
  end.

(** *** [process_hdf5] *)

(** The end of [process_hdf5]: the edge position of every dark shot is
    set to NaN, and the pulse ids, the dark mask and the images are
    stored in the output. *)
Definition finish_output (out : output X ndarray) (pulse_id_ : list Z)
    (is_dark_ : option (list bool))
    (images_ : option (list (list (list float))))
  : result (output X ndarray) :=
  match match is_dark_ with
        | Some mask => mask_assign mask PrimFloat.nan (edge_pos out)
        | None => Ok (edge_pos out)
        end with
  | Ok ep =>
      Ok {| edge_pos := ep; extra := extra out; raw_input := raw_input out;
            pulse_id := Some pulse_id_; is_dark := Some is_dark_;
            images := Some images_; scan_pos_fs := None |}
  | Raise e => Raise e
  end.

Definition process_hdf5 (filepath : string) (debug : bool)
  : M (output X ndarray) :=
  r <~ _read_bsread_file filepath debug ;;
  let '(data, pulse_id_, is_dark_, images_) := r in
  s <~ get_self ;;
  (if has_strategy s then calibrate_background data is_dark_
   else match _background s with
        | None => raise BackgroundNotFound
        | Some _ => ret tt
        end) ;;;
  arr <~ alloc [length (rows data); ncols data] (concat (rows data)) ;;
  out <~ process arr debug ;;
  lift (finish_output out pulse_id_ is_dark_ images_).

(** The reference with which [process_hdf5] processes a recording: the
    mean of the dark shots of the recording when a strategy is configured,
    the stored reference otherwise. *)
Definition reference_for (s : SpatialEncoder) (data : matrix)
    (is_dark_ : option (list bool)) : result (list float) :=
  if has_strategy s then
    match dark_rows data is_dark_ with
    | Ok data' => Ok (mean_axis0 data')
    | Raise e => Raise e
    end
  else match _background s with
       | None => Raise BackgroundNotFound
       | Some bg => Ok bg
       end.

(** *** [_read_eco_scan] *)

Definition _read_eco_scan (filepath : string)
  : M (list float * list string) :=
  fun w =>
  match eco_files w !! filepath with
  | None => (Raise FileNotFound, w)
  | Some eco =>
      let scan_pos := map (fun x => PrimFloat.mul x 1e15%float)
                          (concat (scan_readbacks eco)) in
      match mapM head (scan_files eco) with
      | Some bsread_files => (Ok (scan_pos, bsread_files), w)
      | None => (Raise IndexError, w)
      end
  end.

(** *** The worker pool

    [Pool.map] cuts the inputs into chunks; every chunk is a task that is
    sent, with its own copy of the bound method and so of the engine, to
    some worker process, which runs it to its end and sends the results
    back by value.  The results of chunk [i] are stored at the slots of
    chunk [i] when they arrive.  When a task completes is not determined:
    [times] gives every task its completion time, and the results arrive
    in the order of these times.

    A task is sent pickled, and the engine with it.  The attributes of an
    engine are strings, numbers, [None] and arrays, which pickle, and the
    predicate, a function object, which pickle sends by its qualified name
    and refuses when it has none (a lambda, a local function).  Which
    functions have one is not represented here: the sending is taken to
    succeed, and what is said of a run that returns is said of engines that
    can be sent. *)

(** The engines that can be sent whatever else they hold: those without
    predicate. *)
Definition sendable (s : SpatialEncoder) : Prop := dark_shot_filter s = None.

Fixpoint map_m {A B} (f : A -> M B) (l : list A) : M (list B) :=
  match l with
  | [] => ret []
  | x :: l' => y <~ f x ;; ys <~ map_m f l' ;; ret (y :: ys)
  end.

(** Sending a result: the array under [raw_input] goes by value. *)
Definition pickle (h : list (list float)) (o : output X ndarray)
  : output X ndvalue :=
  {| edge_pos := edge_pos o; extra := extra o;
     raw_input := (fun a => {| vshape := shape a; vdata := buffer h a |})
                    <$> raw_input o;
     pulse_id := pulse_id o; is_dark := is_dark o; images := images o;
     scan_pos_fs := scan_pos_fs o |}.

(** One task, in a worker: [mapstar] of [process_hdf5] over the chunk, on
    the copy of the engine that came with the task. *)
Definition run_task (debug : bool) (parent : world) (chunk : list string)
  : result (list (output X ndvalue)) :=
  match map_m (fun f => process_hdf5 f debug) chunk (with_heap [] parent) with
  | (Ok outs, w') => Ok (map (pickle (heap w')) outs)
  | (Raise e, _) => Raise e
  end.

(** The chunk size that [Pool.map] chooses. *)
Definition chunk_size (n workers : nat) : nat :=
  if (n =? 0)%nat then O
  else if (n mod (workers * 4) =? 0)%nat then (n / (workers * 4))%nat
  else S (n / (workers * 4)).

(** [Pool._get_tasks]: slices of [size] inputs until a slice is empty. *)
Fixpoint get_tasks {A} (fuel size : nat) (it : list A) : list (list A) :=
  match fuel with
  | O => []
  | S fuel' =>
      match take size it with
      | [] => []
      | x => x :: get_tasks fuel' size (drop size it)
      end
  end.

(** [MapResult._set]: the results of task [i] go to its slots; the first
    failure that arrives is the one that is kept. *)
Definition set_result {B} (size : nat) (state : result (list (option B)))
    (i : nat) (r : result (list B)) : result (list (option B)) :=
  match state, r with
  | Ok slots, Ok res =>
      Ok (take (i * size) slots ++ (Some <$> res) ++ drop (S i * size) slots)
  | Ok _, Raise e => Raise e
  | Raise e, _ => Raise e
  end.

(** The order in which the tasks complete under [times]. *)
Definition completion_order (times : nat -> nat) (ntasks : nat) : list nat :=
  merge_sort (earlier times) (seq 0 ntasks).

(** [pool.map(func, inputs)] followed by the wait for all the tasks:
    every slot is filled by then. *)
Definition pool_map {A B} (workers : nat) (times : nat -> nat)
    (func : list A -> result (list B)) (inputs : list A) : result (list B) :=
  let size := chunk_size (length inputs) workers in
  let tasks := get_tasks (length inputs) size inputs in
  let final :=
    foldl (fun state i => set_result size state i (func (tasks !!! i)))
          (Ok (replicate (length inputs) None))
          (completion_order times (length tasks)) in
  match final with
  | Ok slots => Ok (omap id slots)
  | Raise e => Raise e
  end.

(** [step_output['scan_pos_fs'] = scan_pos_fs[i]] over [enumerate(output)]. *)
Definition set_scan_pos {R} (p : float) (o : output X R) : output X R :=
  {| edge_pos := edge_pos o; extra := extra o; raw_input := raw_input o;
     pulse_id := pulse_id o; is_dark := is_dark o; images := images o;
     scan_pos_fs := Some p |}.

Fixpoint annotate {R} (scan_pos : list float) (i : nat)
    (outs : list (output X R)) : result (list (output X R)) :=
  match outs with
  | [] => Ok []
  | o :: outs' =>
      match scan_pos !! i with
      | None => Raise IndexError
      | Some p =>
          match annotate scan_pos (S i) outs' with
          | Ok l => Ok (set_scan_pos p o :: l)
          | Raise e => Raise e
          end
      end
  end.

(** *** [process_eco] *)

Definition process_eco (filepath : string) (nproc : Z) (debug : bool)
    (times : nat -> nat) : M (list (output X ndvalue)) :=
  s <~ get_self ;;
  (if has_strategy s then ret tt
   else match _background s with
        | None => raise BackgroundNotFound
        | Some _ => ret tt
        end) ;;;
  r <~ _read_eco_scan filepath ;;
  let '(scan_pos, bsread_files) := r in
  (if nproc <? 1 then raise PoolValueError else ret tt) ;;;
  parent <~ (fun w => (Ok w, w)) ;;
  outs <~ lift (pool_map (Z.to_nat nproc) times (run_task debug parent)
                         bsread_files) ;;
  lift (annotate scan_pos 0 outs).

(** *** [calibrate_time]

    Three numpy operations are parameters: [np.nanmean] of a
    one-dimensional array, the least-squares solve of [np.linalg.lstsq]
    behind [np.polyfit] (it returns the slope and the intercept, or fails
    to converge), and what an array just made by [np.empty] holds. *)
Variable nanmean : list float -> float.
Variable lstsq : list float -> list float -> option (float * float).
Variable uninitialised : nat -> float.

Definition np_empty (n : nat) : list float := map uninitialised (seq 0 n).

(** [np.polyfit(x, y, 1)] on one-dimensional arrays: numpy refuses an
    empty [x] and arrays of two lengths, then solves; a deficient rank is a
    warning ([RankWarning]) and not an error. *)
Definition polyfit (x y : list float) : result (list float) :=
  if (length x =? 0)%nat then Raise PolyfitTypeError
  else if negb (length x =? length y)%nat then Raise PolyfitTypeError
  else match lstsq x y with
       | Some (slope, intercept) => Ok [slope; intercept]
       | None => Raise LinAlgError
       end.

(** [a[i] = value] for an array [value]: numpy stores an array of one
    element as that element. *)
Definition store_scalar (i : nat) (value : list float) (a : list float)
  : result (list float) :=
  if (i <? length a)%nat
  then match value with
       | [v] => Ok (<[i := v]> a)
       | _ => Raise ScalarExpected
       end
  else Raise IndexError.

(** The loop of 'avg_wf' over [enumerate(bsread_files)]. *)
Fixpoint avg_wf_loop (i : nat) (bsread_files : list string)
    (edge_pos_pix : list float) : M (list float) :=
  match bsread_files with
  | [] => ret edge_pos_pix
  | bsread_file :: rest =>
      r <~ _read_bsread_file bsread_file false ;;
      let '(data, _, _, _) := r in
      data <~ alloc [ncols data] (mean_axis0 data) ;;
      results <~ process data false ;;
      edge_pos_pix <~
        lift (store_scalar i (edge_pos results) edge_pos_pix) ;;
      avg_wf_loop (S i) rest edge_pos_pix
  end.

(** The two arrays of 'avg_edge': every entry of the arrays that
    [np.empty] made is assigned by the loop over [enumerate(results)]. *)
Definition avg_edge_arrays (results : list (output X ndvalue))
  : result (list float * list float) :=
  match mapM scan_pos_fs results with
  | Some scan_pos => Ok (scan_pos, map (fun o => nanmean (edge_pos o)) results)
  | None => Raise KeyError
  end.

Definition is_none {A} (o : option A) : bool :=
  match o with None => true | Some _ => false end.

(** The [if method == 'avg_wf': ... elif method == 'avg_edge': ...]: the
    scan positions and the edge positions that are fitted.  With another
    method neither is ever assigned. *)
Definition scan_arrays (filepath method : string) (nproc : Z)
    (times : nat -> nat) : M (list float * list float) :=
  if String.eqb method "avg_wf" then
    r <~ _read_eco_scan filepath ;;
    let '(scan_pos, bsread_files) := r in
    edge_pos_pix <~ avg_wf_loop 0 bsread_files (np_empty (length scan_pos)) ;;
    ret (scan_pos, edge_pos_pix)
  else if String.eqb method "avg_edge" then
    results <~ process_eco filepath nproc false times ;;
    lift (avg_edge_arrays results)
  else raise UnboundLocalError.

Definition calibrate_time (filepath method : string) (nproc : Z)
    (times : nat -> nat) : M (list float * list float * list float) :=
  s <~ get_self ;;
  (if is_none (events_channel s) && is_none (dark_shot_filter s)
      && is_none (_background s)
   then raise BackgroundNotFound else ret tt) ;;;
  arrays <~ scan_arrays filepath method nproc times ;;
  let '(scan_pos, edge_pos_pix) := arrays in
  fit_coeff <~ lift (polyfit scan_pos edge_pos_pix) ;;
  s <~ get_self ;;
  put_self (set_pix_per_fs (fit_coeff !! 0%nat) s) ;;;
  ret (scan_pos, edge_pos_pix, fit_coeff).

End Engine.

Arguments edge_detection {X} find_edge s v data debug.
Arguments process {X} find_edge data debug _.
Arguments process_hdf5 {X} find_edge filepath debug _.
Arguments finish_output {X} out pulse_id_ is_dark_ images_.
Arguments pickle {X} h o.
Arguments run_task {X} find_edge debug parent chunk.
Arguments set_scan_pos {X R} p o.
Arguments annotate {X R} scan_pos i outs.
Arguments process_eco {X} find_edge filepath nproc debug times _.
Arguments avg_edge_arrays {X} nanmean results.
Arguments avg_wf_loop {X} find_edge i bsread_files edge_pos_pix _.
Arguments scan_arrays {X} find_edge nanmean uninitialised
  filepath method nproc times _.
Arguments calibrate_time {X} find_edge nanmean lstsq uninitialised
  filepath method nproc times _.

(** [wa] holds a copy of the engine of [wb] and the same recordings; the
    stored reference may differ when a strategy is configured, which
    replaces it before it is read. *)
Definition engine_copy (wa wb : world) : Prop :=
  h5_files wa = h5_files wb /\
  exists old, self wa = set_background old (self wb) /\
              (has_strategy (self wb) = false -> old = _background (self wb)).

(** [o] is what [process_hdf5] returns for the recording [f] in the world
    [w], sent by value. *)
Definition file_result {X}
    (find_edge : ndvalue -> Z -> string -> float -> edges X + Z)
    (debug : bool) (w : world) (f : string) (o : output X ndvalue) : Prop :=
  exists o1 w1, process_hdf5 find_edge f debug w = (Ok o1, w1) /\
                o = pickle (heap w1) o1.

(** ** What an operation leaves as it was *)

(** [w'] differs from [w] at most in the buffer [l] of the heap. *)
Definition frame_except (l : nat) (w w' : world) : Prop :=
  self w' = self w /\ h5_files w' = h5_files w /\ eco_files w' = eco_files w /\
  length (heap w') = length (heap w) /\
  forall j, j <> l -> heap w' !! j = heap w !! j.

(** [w'] is [w] with new arrays, and nothing else changed. *)
Definition grows (w w' : world) : Prop :=
  self w' = self w /\ h5_files w' = h5_files w /\ eco_files w' = eco_files w /\
  exists new, heap w' = heap w ++ new.

(** Every row of every image of the group has [img_width] pixels. *)
Definition images_ok (g : image_group) : Prop :=
  Forall (Forall (fun row => length row = img_width g)) (img_data g).

(** The settings of an engine: everything but the stored reference and
    the time calibration. *)
Definition settings (s : SpatialEncoder) :=
  (channel s, roi s, background_method s, step_length s, refinement s,
   events_channel s, dark_shot_event s, dark_shot_filter s, edge_type s).

(** [v] is the edge position that 'avg_wf' takes for the recording [f]:
    the one that [find_edge] finds in the mean of all the waveforms of the
    recording, corrected with the stored reference. *)
Definition mean_waveform_edge {X}
    (find_edge : ndvalue -> Z -> string -> float -> edges X + Z)
    (w : world) (f : string) (v : float) : Prop :=
  exists h5f data pid dark imgs bg b e,
    h5_files w !! f = Some h5f /\
    read_recording (self w) h5f false = Ok (data, pid, dark, imgs) /\
    _background (self w) = Some bg /\
    corrected_buffer (background_method (self w)) bg 1 (ncols data)
      (mean_axis0 data) = Ok b /\
    find_edge {| vshape := [1%nat; ncols data]; vdata := b |}
      (step_length (self w)) (edge_type (self w)) (refinement (self w))
      = inl e /\
    fe_edge_pos e = [v].

(** ** Examples: an engine, a recording and a scan *)

(** A stand-in for [find_edge] in the examples: the first pixel of every
    row of a two-dimensional input. *)
Definition first_pixel (v : ndvalue) (step : Z) (edge : string) (r : float)
  : edges unit + Z :=
  match vshape v with
  | [n; k] => inl {| fe_edge_pos := map (hd 0%float) (chunks k n (vdata v));
                     fe_extra := tt |}
  | _ => inr 0
  end.

(** Shots of even pulse id are dark. *)
Definition even_pulses (pids : list Z) : list bool :=
  map (fun p => p mod 2 =? 0) pids.

Definition ex_encoder (method : string) (f : option (list Z -> list bool))
  : SpatialEncoder :=
  {| channel := "cam"; roi := (None, None); background_method := method;
     step_length := 50; refinement := 1%float; events_channel := None;
     dark_shot_event := 21%nat; dark_shot_filter := f;
     _background := None; pix_per_fs := None; edge_type := "falling" |}.

(** The engine that [SpatialEncoder("cam", events_channel="events")]
    constructs. *)
Definition ex_events_encoder : SpatialEncoder :=
  set_events_channel (Some "events"%string) (ex_encoder "div" None).

(** Four shots of two rows of three pixels, and a shot of pulse id 0 that
    the reader drops; the second and the fourth kept shots are dark. *)
Definition ex_recording (first : Z) : h5file :=
  {| has_data_group := false;
     image_groups :=
       {[ "/cam"%string :=
            {| img_pulse_id := [1; 2; 3; 0; 4]; img_width := 3%nat;
               img_data := [ [[first; 2; 3]; [3; 4; 5]];
                             [[10; 10; 10]; [20; 20; 20]];
                             [[5; 5; 5]; [7; 7; 7]];
                             [[0; 0; 0]; [0; 0; 0]];
                             [[30; 30; 30]; [50; 50; 50]] ] |} ]};
     event_groups :=
       {[ "/events"%string :=
            {| ev_pulse_id := [1; 2; 3; 4];
               ev_data := [ replicate 21 0 ++ [0]; replicate 21 0 ++ [1];
                            replicate 21 0 ++ [0]; replicate 21 0 ++ [1] ] |} ]}
  |}.

(** Stand-ins for the numpy parameters of [calibrate_time] in the
    examples: the mean of the entries that are not NaN, summed from the
    left, and the least-squares line by its closed form in binary64.  They
    are not numpy's algorithms, and the values of the second are not
    numpy's to the last bit: no statement is about them, they only let the
    examples run. *)
Definition ex_nanmean (l : list float) : float :=
  let kept := List.filter (fun x => negb (PrimFloat.is_nan x)) l in
  PrimFloat.div (fold_left PrimFloat.add kept 0%float)
                (float_of_nat (length kept)).

Definition fsum (l : list float) : float := fold_left PrimFloat.add l 0%float.

Definition ex_lstsq (x y : list float) : option (float * float) :=
  let n := float_of_nat (length x) in
  let sx := fsum x in
  let sy := fsum y in
  let sxy := fsum (zip_with PrimFloat.mul x y) in
  let sxx := fsum (zip_with PrimFloat.mul x x) in
  let slope :=
    PrimFloat.div (PrimFloat.sub (PrimFloat.mul n sxy) (PrimFloat.mul sx sy))
                  (PrimFloat.sub (PrimFloat.mul n sxx) (PrimFloat.mul sx sx)) in
  Some (slope, PrimFloat.div (PrimFloat.sub sy (PrimFloat.mul slope sx)) n).

Definition ex_uninitialised (i : nat) : float := 0%float.

(** A scan of a single step. *)
Definition ex_one_step : eco_scan :=
  {| scan_readbacks := [[1%float]]; scan_files := [["a.h5"%string]] |}.

Definition ex_scan : eco_scan :=
  {| scan_readbacks := [[1%float]; [2%float]; [3%float]; [4%float]; [5%float]];
     scan_files := [["a.h5"]; ["b.h5"]; ["c.h5"]; ["d.h5"]; ["e.h5"]]%string |}.

Definition ex_world (s : SpatialEncoder) : world :=
  {| self := s; heap := [];
     h5_files := {[ "a.h5"%string := ex_recording 1;
                    "b.h5"%string := ex_recording 2;
                    "c.h5"%string := ex_recording 3;
                    "d.h5"%string := ex_recording 4;
                    "e.h5"%string := ex_recording 5 ]};
     eco_files := {[ "scan.json"%string := ex_scan;
                     "one.json"%string := ex_one_step ]} |}.

(** The worlds of an engine with the predicate, and with the events
    channel. *)
Definition ex_filter_world : world :=
  ex_world (ex_encoder "sub" (Some even_pulses)).
Definition ex_events_world : world := ex_world ex_events_encoder.

(** The waveforms of the recording a.h5, and what [process_hdf5] returns
    for it in these two worlds. *)
Definition ex_waveforms : matrix :=
  {| ncols := 3%nat;
     rows := [[2%float; 3%float; 4%float]; [15%float; 15%float; 15%float];
              [6%float; 6%float; 6%float]; [40%float; 40%float; 40%float]] |}.

Definition ex_output : output unit ndarray :=
  {| edge_pos := [(-25.5)%float; PrimFloat.nan; (-21.5)%float; PrimFloat.nan];
     extra := tt; raw_input := None; pulse_id := Some [1; 2; 3; 4];
     is_dark := Some (Some [false; true; false; true]);
     images := Some None; scan_pos_fs := None |}.

Definition ex_events_output : output unit ndarray :=
  {| edge_pos := [PrimFloat.sub (PrimFloat.div 2 27.5) 1; PrimFloat.nan;
                  PrimFloat.sub (PrimFloat.div 6 27.5) 1; PrimFloat.nan];
     extra := tt; raw_input := None; pulse_id := Some [1; 2; 3; 4];
     is_dark := Some (Some [false; true; false; true]);
     images := Some None; scan_pos_fs := None |}.

(** What [process_eco] returns for the scan in the world of the predicate:
    the first edge position moves with the first pixel of the recording. *)
Definition ex_scan_output (first scan_pos : float) : output unit ndvalue :=
  {| edge_pos := [first; PrimFloat.nan; (-21.5)%float; PrimFloat.nan];
     extra := tt; raw_input := None; pulse_id := Some [1; 2; 3; 4];
     is_dark := Some (Some [false; true; false; true]);
     images := Some None; scan_pos_fs := Some scan_pos |}.

Definition ex_scan_outputs : list (output unit ndvalue) :=
  [ ex_scan_output (-25.5)%float 1e15%float;
    ex_scan_output (-25)%float 2e15%float;
    ex_scan_output (-24.5)%float 3e15%float;
    ex_scan_output (-24)%float 4e15%float;
    ex_scan_output (-23.5)%float 5e15%float ].

(** Completion times under which the last task of five completes first. *)
Definition last_first (i : nat) : nat := (5 - i)%nat.

(** A waveform matrix of three shots, its dark mask and a reference. *)
Definition ex_data : matrix :=
  {| ncols := 2%nat;
     rows := [[10%float; 20%float]; [1%float; 2%float]; [3%float; 6%float]] |}.
Definition ex_mask : list bool := [false; true; true].
Definition ex_reference : list float := [2%float; 4%float].

(** The array object of [ex_data] in the world below. *)
Definition ex_array : ndarray := {| base := 0%nat; shape := [3%nat; 2%nat] |}.

(** A world whose heap holds the six values of [ex_data], with a calibrated
    reference. *)
Definition ex_heap_world (method : string) : world :=
  {| self := set_background (Some ex_reference) (ex_encoder method None);
     heap := [concat (rows ex_data)];
     h5_files := ∅; eco_files := ∅ |}.

(** The camera group of the recording a.h5 and its events group. *)
Definition ex_camera : image_group :=
  {| img_pulse_id := [1; 2; 3; 0; 4]; img_width := 3%nat;
     img_data := [ [[1; 2; 3]; [3; 4; 5]];
                   [[10; 10; 10]; [20; 20; 20]];
                   [[5; 5; 5]; [7; 7; 7]];
                   [[0; 0; 0]; [0; 0; 0]];
                   [[30; 30; 30]; [50; 50; 50]] ] |}.

Definition ex_events : event_group :=
  {| ev_pulse_id := [1; 2; 3; 4];
     ev_data := [ replicate 21 0 ++ [0]; replicate 21 0 ++ [1];
                  replicate 21 0 ++ [0]; replicate 21 0 ++ [1] ] |}.


(** A world whose engine has the events channel and no predicate, with a
    scan of two recordings and a single position. *)
Definition ex_short_world : world :=
  {| self := ex_events_encoder; heap := [];
     h5_files := {[ "a.h5"%string := ex_recording 1 ]};
     eco_files :=
       {[ "short.json"%string :=
            {| scan_readbacks := [[1%float]];
               scan_files := [["a.h5"]; ["a.h5"]]%string |} ]} |}.

(** A world whose engine has a stored reference and no strategy, with a
    scan of three positions and two recordings and a scan without any
    step. *)
Definition ex_tail_world : world :=
  {| self := set_background (Some [27.5%float; 27.5%float; 27.5%float])
               (ex_encoder "sub" None);
     heap := [];
     h5_files := {[ "a.h5"%string := ex_recording 1;
                    "b.h5"%string := ex_recording 2 ]};
     eco_files :=
       {[ "tail.json"%string :=
            {| scan_readbacks := [[1%float]; [2%float]; [3%float]];
               scan_files := [["a.h5"]; ["b.h5"]]%string |};
          "empty.json"%string :=
            {| scan_readbacks := []; scan_files := [] |} ]} |}.

(** The buffer of [ex_array] seen as two rows of three values. *)
Definition ex_wide : ndarray := {| base := 0%nat; shape := [2%nat; 3%nat] |}.

(** An array of more than two dimensions on the same buffer. *)
Definition ex_cube : ndarray :=
  {| base := 0%nat; shape := [1%nat; 3%nat; 2%nat] |}.

(** A one-dimensional waveform, alone on the heap of an engine with a
    stored reference. *)
Definition ex_vector : ndarray := {| base := 0%nat; shape := [2%nat] |}.

Definition ex_vector_world : world :=
  {| self := set_background (Some ex_reference) (ex_encoder "sub" None);
     heap := [[10%float; 20%float]]; h5_files := ∅; eco_files := ∅ |}.

(** The world of an engine without strategy and with a stored reference. *)
Definition ex_stored_world : world :=
  ex_world (set_background (Some [27.5%float; 27.5%float; 27.5%float])
              (ex_encoder "sub" None)).

Definition ex_stored_output : output unit ndarray :=
  {| edge_pos := [(-25.5)%float; (-12.5)%float; (-21.5)%float; 12.5%float];
     extra := tt; raw_input := None; pulse_id := Some [1; 2; 3; 4];
     is_dark := Some None; images := Some None; scan_pos_fs := None |}.

(** * Properties *)

(** ** The monad *)

Lemma bind_ok {A B} (m : M A) (k : A -> M B) w b w' :
  bind m k w = (Ok b, w') ->
  exists a w1, m w = (Ok a, w1) /\ k a w1 = (Ok b, w').
Proof.
  unfold bind. destruct (m w) as [[a|e] w1]; intros H.
  - exists a, w1. split; [reflexivity | exact H].
  - discriminate.
Qed.

(** ** numpy helpers *)

Lemma mask_select_ok {A} (mask : list bool) (xs : list A) :
  length mask = length xs -> mask_select mask xs = Ok (compress mask xs).
Proof. intros H. unfold mask_select. rewrite H, Nat.eqb_refl. reflexivity. Qed.

Lemma mask_select_inv {A} (mask : list bool) (xs ys : list A) :
  mask_select mask xs = Ok ys ->
  length mask = length xs /\ ys = compress mask xs.
Proof.
  unfold mask_select. destruct (Nat.eqb_spec (length mask) (length xs)).
  - intros [= <-]. auto.
  - discriminate.
Qed.

Lemma mask_assign_inv {A} (mask : list bool) (v : A) (xs ys : list A) :
  mask_assign mask v xs = Ok ys ->
  length mask = length xs /\
  ys = zip_with (fun (b : bool) x => if b then v else x) mask xs.
Proof.
  unfold mask_assign. destruct (Nat.eqb_spec (length mask) (length xs)).
  - intros [= <-]. auto.
  - discriminate.
Qed.

Lemma masked_lookup {A} (mask : list bool) (v : A) (xs : list A) i :
  length mask = length xs ->
  mask !! i = Some true ->
  zip_with (fun (b : bool) x => if b then v else x) mask xs !! i = Some v.
Proof.
  intros Hlen Hi. rewrite lookup_zip_with, Hi. simpl.
  destruct (xs !! i) eqn:E; [reflexivity |].
  apply lookup_ge_None in E. apply lookup_lt_Some in Hi. lia.
Qed.

Lemma unmasked_lookup {A} (mask : list bool) (v : A) (xs : list A) i :
  mask !! i = Some false ->
  zip_with (fun (b : bool) x => if b then v else x) mask xs !! i = xs !! i.
Proof.
  intros Hi. rewrite lookup_zip_with, Hi. simpl. destruct (xs !! i); reflexivity.
Qed.

(** ** Background calibration *)

(** C3. For every waveform matrix, dark mask over its rows and engine,
    whatever reference the engine holds: after [calibrate_background] with
    a mask that flags some row, the reference that the engine holds is the
    column-wise mean of exactly the flagged rows, and nothing else has
    changed; with a mask that flags no row it raises and the engine holds
    what it held; with no mask the reference that the engine holds
    afterwards is the column-wise mean of all the rows. *)
Theorem calibrate_background_spec (data : matrix) (w : world) :
  (forall mask,
      length mask = length (rows data) -> np_any mask = true ->
      exists w',
        calibrate_background data (Some mask) w = (Ok tt, w') /\
        _background (self w') =
          Some (mean_axis0 {| ncols := ncols data;
                              rows := compress mask (rows data) |}) /\
        settings (self w') = settings (self w) /\
        pix_per_fs (self w') = pix_per_fs (self w) /\
        heap w' = heap w /\ h5_files w' = h5_files w /\
        eco_files w' = eco_files w) /\
  (forall mask,
      np_any mask = false ->
      calibrate_background data (Some mask) w = (Raise NoDarkShots, w)) /\
  (exists w',
      calibrate_background data None w = (Ok tt, w') /\
      _background (self w') = Some (mean_axis0 data) /\
      settings (self w') = settings (self w) /\
      pix_per_fs (self w') = pix_per_fs (self w) /\
      heap w' = heap w /\ h5_files w' = h5_files w /\
      eco_files w' = eco_files w).
Proof.
  split; [| split].
  - intros mask Hlen Hany.
    unfold calibrate_background, dark_rows, bind, lift, get_self, put_self.
    rewrite Hany, (mask_select_ok _ _ Hlen).
    eexists. split; [reflexivity |]. repeat split.
  - intros mask Hany. unfold calibrate_background, dark_rows, bind, lift.
    rewrite Hany. reflexivity.
  - eexists. split; [reflexivity |]. repeat split.
Qed.

(** The stored reference does not depend on the one held before. *)
Lemma calibrate_background_replaces data dark w old :
  match calibrate_background data dark w,
        calibrate_background data dark
          (with_self (set_background old (self w)) w) with
  | (Ok _, w1), (Ok _, w2) => self w1 = self w2
  | (Raise e1, _), (Raise e2, _) => e1 = e2
  | _, _ => False
  end.
Proof.
  unfold calibrate_background, bind, lift, get_self, put_self.
  destruct (dark_rows data dark); reflexivity.
Qed.

(** On an engine that holds the reference [2; 4], a mask that flags the
    first two rows leaves it holding their mean, [5.5; 11]. *)
Lemma calibrate_background_spec_witness :
  _background (self (ex_heap_world "sub")) = Some [2%float; 4%float] /\
  (exists w',
      calibrate_background ex_data (Some [true; true; false])
        (ex_heap_world "sub") = (Ok tt, w') /\
      _background (self w') = Some [5.5%float; 11%float] /\
      settings (self w') = settings (self (ex_heap_world "sub")) /\
      pix_per_fs (self w') = pix_per_fs (self (ex_heap_world "sub")) /\
      heap w' = heap (ex_heap_world "sub") /\
      h5_files w' = h5_files (ex_heap_world "sub") /\
      eco_files w' = eco_files (ex_heap_world "sub")) /\
  calibrate_background ex_data (Some [false; false; false])
    (ex_heap_world "sub") = (Raise NoDarkShots, ex_heap_world "sub").
Proof.
  pose proof (calibrate_background_spec ex_data (ex_heap_world "sub"))
    as [Hdark [Hnone _]].
  split; [reflexivity | split].
  - apply (Hdark [true; true; false]); reflexivity.
  - apply (Hnone [false; false; false]). reflexivity.
Defined.

(** ** Configuration *)

Lemma str_in_spec x l : str_in x l = true <-> x ∈ l.
Proof.
  unfold str_in. rewrite existsb_exists. split.
  - intros [y [Hy Heq]]. apply String.eqb_eq in Heq. subst y.
    apply list_elem_of_In. exact Hy.
  - intros H. exists x. split; [apply list_elem_of_In; exact H |].
    apply String.eqb_refl.
Qed.

Lemma str_in_false x l : x ∉ l -> str_in x l = false.
Proof.
  intros H. destruct (str_in x l) eqn:E; [| reflexivity].
  apply str_in_spec in E. contradiction.
Qed.

(** What [__init__] accepts, and that it rejects the rest with a
    configuration error. *)
Lemma init_accepts c r bm sl ev de df rf et :
  truthy_channel ev && truthy_filter df = false ->
  bm ∈ background_methods -> 4 <= sl -> et ∈ edge_types ->
  exists s, init c r bm sl ev de df rf et = Ok s /\
            step_length s = sl /\ background_method s = bm /\
            edge_type s = et /\ events_channel s = ev /\
            dark_shot_filter s = df /\ _background s = None.
Proof.
  intros Hc Hbm Hsl Het. unfold init. rewrite Hc.
  apply str_in_spec in Hbm. apply str_in_spec in Het. rewrite Hbm, Het.
  destruct (Z.ltb_spec sl 4); [lia |]. cbn [negb].
  eexists. split; [reflexivity |]. repeat split.
Qed.

Lemma init_rejects c r bm sl ev de df rf et :
  truthy_channel ev && truthy_filter df = true \/
  bm ∉ background_methods \/ sl < 4 \/ et ∉ edge_types ->
  exists e, init c r bm sl ev de df rf et = Raise e /\
            is_config_error e = true.
Proof.
  intros H. unfold init.
  destruct (truthy_channel ev && truthy_filter df) eqn:Hc.
  { eexists. split; reflexivity. }
  destruct (str_in bm background_methods) eqn:Hbm; cbn [negb].
  2:{ eexists. split; reflexivity. }
  destruct (Z.ltb_spec sl 4).
  { eexists. split; reflexivity. }
  destruct (str_in et edge_types) eqn:Het; cbn [negb].
  2:{ eexists. split; reflexivity. }
  apply str_in_spec in Hbm, Het.
  destruct H as [H | [H | [H | H]]];
    [discriminate | contradiction | lia | contradiction].
Qed.

Lemma init_config_ok c r bm sl ev de df rf et s :
  init c r bm sl ev de df rf et = Ok s -> config_ok s.
Proof.
  unfold init, config_ok.
  destruct (truthy_channel ev && truthy_filter df); [discriminate |].
  destruct (str_in bm background_methods) eqn:Hbm; [| discriminate].
  destruct (Z.ltb_spec sl 4); [discriminate |].
  destruct (str_in et edge_types) eqn:Het; [| discriminate].
  cbn [negb]. intros [= <-]. cbn [background_method edge_type step_length].
  auto.
Qed.

(** ** The errors of the processing operations *)

Lemma runtime_errors_ret {A} (a : A) : runtime_errors (ret a).
Proof. intros w e w' H. discriminate. Qed.

Lemma runtime_errors_raise {A} e :
  is_config_error e = false -> runtime_errors (@raise A e).
Proof. intros He w e' w' [= <- _]. exact He. Qed.

Lemma runtime_errors_bind {A B} (m : M A) (k : A -> M B) :
  runtime_errors m -> (forall a, runtime_errors (k a)) ->
  runtime_errors (bind m k).
Proof.
  intros Hm Hk w e w' H. unfold bind in H.
  destruct (m w) as [[a|e1] w1] eqn:E.
  - exact (Hk a _ _ _ H).
  - injection H as <- _. exact (Hm _ _ _ E).
Qed.

Lemma runtime_errors_lift {A} (r : result A) :
  (forall e, r = Raise e -> is_config_error e = false) ->
  runtime_errors (lift r).
Proof. intros Hr w e w' [= H _]. exact (Hr e H). Qed.

Lemma mask_select_errors {A} mask (xs : list A) e :
  mask_select mask xs = Raise e -> is_config_error e = false.
Proof.
  unfold mask_select. destruct (_ =? _)%nat; [discriminate |].
  intros [= <-]. reflexivity.
Qed.

Lemma mask_assign_errors {A} mask (v : A) xs e :
  mask_assign mask v xs = Raise e -> is_config_error e = false.
Proof.
  unfold mask_assign. destruct (_ =? _)%nat; [discriminate |].
  intros [= <-]. reflexivity.
Qed.

Lemma take_indices_errors {A} idx (xs : list A) e :
  take_indices idx xs = Raise e -> e = IndexError.
Proof.
  revert e. induction idx as [|i idx IH]; intros e; simpl; [discriminate |].
  destruct (xs !! i); [| intros [= <-]; reflexivity].
  destruct (take_indices idx xs) eqn:E; [discriminate |].
  intros [= <-]. apply IH. reflexivity.
Qed.

Lemma event_flags_errors g idx ev e :
  event_flags g idx ev = Raise e -> e = IndexError.
Proof.
  revert e. induction idx as [|i idx IH]; intros e; simpl; [discriminate |].
  destruct (ev_data g !! i) as [row|]; [| intros [= <-]; reflexivity].
  destruct (event_flags g idx ev) eqn:E.
  - destruct (row !! ev); [discriminate | intros [= <-]; reflexivity].
  - intros [= <-]. apply IH. reflexivity.
Qed.

Lemma select_errors {A} sel (xs : list A) e :
  select sel xs = Raise e -> is_config_error e = false.
Proof.
  destruct sel as [idx|mask]; simpl.
  - intros H. apply take_indices_errors in H. subst e. reflexivity.
  - apply mask_select_errors.
Qed.

Lemma broadcast_rows_errors op n k bg buf e :
  broadcast_rows op n k bg buf = Raise e -> e = BroadcastError.
Proof.
  unfold broadcast_rows. destruct (_ =? _)%nat; [discriminate |].
  destruct bg as [|b [|b' bg]]; try discriminate; intros [= <-]; reflexivity.
Qed.

Lemma dark_rows_errors data dark e :
  dark_rows data dark = Raise e -> is_config_error e = false.
Proof.
  unfold dark_rows. destruct dark as [mask|]; [| discriminate].
  destruct (np_any mask); [| intros [= <-]; reflexivity].
  destruct (mask_select mask (rows data)) eqn:E; [discriminate |].
  intros [= <-]. eapply mask_select_errors. exact E.
Qed.

Lemma calibrate_background_errors data dark :
  runtime_errors (calibrate_background data dark).
Proof.
  unfold calibrate_background. apply runtime_errors_bind.
  - apply runtime_errors_lift. apply dark_rows_errors.
  - intros a. apply runtime_errors_bind; [intros w e w' H; discriminate |].
    intros s w e w' H. discriminate.
Qed.

Lemma events_selection_errors g ev pid e :
  events_selection g ev pid = Raise e -> is_config_error e = false.
Proof.
  unfold events_selection.
  destruct (intersect1d pid (ev_pulse_id g)) as [[common index] event_index].
  destruct (event_flags g _ ev) eqn:Ef; [discriminate |].
  intros [= <-]. apply event_flags_errors in Ef. subst. reflexivity.
Qed.

Lemma shot_selection_errors s h5f pid e :
  shot_selection s h5f pid = Raise e -> is_config_error e = false.
Proof.
  unfold shot_selection. destruct (truthy_channel (events_channel s)).
  - destruct (event_groups h5f !! _) as [g|].
    + apply events_selection_errors.
    + intros [= <-]. reflexivity.
  - destruct (dark_shot_filter s) as [f|]; [| discriminate].
    destruct (mask_select _ (f pid)) eqn:Em; [discriminate |].
    intros [= <-]. eapply mask_select_errors. exact Em.
Qed.

Lemma waveforms_errors s g index e :
  waveforms s g index = Raise e -> is_config_error e = false.
Proof.
  unfold waveforms.
  destruct (select index (img_pulse_id g)) eqn:E1.
  - destruct (select index (img_data g)) eqn:E2; [discriminate |].
    intros [= <-]. eapply select_errors. exact E2.
  - intros [= <-]. eapply select_errors. exact E1.
Qed.

Lemma read_recording_errors s h5f images_ e :
  read_recording s h5f images_ = Raise e -> is_config_error e = false.
Proof.
  unfold read_recording.
  destruct (image_groups h5f !! _) as [g|]; [| intros [= <-]; reflexivity].
  destruct (shot_selection s h5f (img_pulse_id g)) as [[index dark]|e1] eqn:Es.
  - destruct (waveforms s g index) as [[[data pid] imgs]|e2] eqn:Ew;
      [discriminate |].
    intros [= <-]. eapply waveforms_errors. exact Ew.
  - intros [= <-]. eapply shot_selection_errors. exact Es.
Qed.

Lemma read_bsread_file_errors filepath images_ :
  runtime_errors (_read_bsread_file filepath images_).
Proof.
  intros w e w'. unfold _read_bsread_file.
  destruct (h5_files w !! filepath) as [h5f|].
  - intros [= H _]. eapply read_recording_errors. exact H.
  - intros [= <- _]. reflexivity.
Qed.

(** ** The reader: one flag and one pulse id per waveform *)

Lemma take_indices_length {A} idx (xs l : list A) :
  take_indices idx xs = Ok l -> length l = length idx.
Proof.
  revert l. induction idx as [|i idx IH]; intros l; simpl.
  { intros [= <-]. reflexivity. }
  destruct (xs !! i); [| discriminate].
  destruct (take_indices idx xs) as [l'|]; [| discriminate].
  intros [= <-]. simpl. rewrite (IH l' eq_refl). reflexivity.
Qed.

Lemma event_flags_length g idx ev l :
  event_flags g idx ev = Ok l -> length l = length idx.
Proof.
  revert l. induction idx as [|i idx IH]; intros l; simpl.
  { intros [= <-]. reflexivity. }
  destruct (ev_data g !! i) as [row|]; [| discriminate].
  destruct (event_flags g idx ev) as [l'|]; [| discriminate].
  destruct (row !! ev); [| discriminate].
  intros [= <-]. simpl. rewrite (IH l' eq_refl). reflexivity.
Qed.

Lemma compress_length {A B} (mask : list bool) (xs : list A) (ys : list B) :
  length xs = length mask -> length ys = length mask ->
  length (compress mask xs) = length (compress mask ys).
Proof.
  revert xs ys. induction mask as [|b mask IH]; intros xs ys Hx Hy.
  { destruct xs, ys; reflexivity. }
  destruct xs as [|x xs]; [discriminate |].
  destruct ys as [|y ys]; [discriminate |].
  simpl in *. destruct b; simpl; rewrite (IH xs ys) by lia; reflexivity.
Qed.

Lemma select_length {A B} sel (xs xs' : list A) (ys ys' : list B) :
  select sel xs = Ok xs' -> select sel ys = Ok ys' -> length xs' = length ys'.
Proof.
  destruct sel as [idx|mask]; simpl; intros Hx Hy.
  - apply take_indices_length in Hx, Hy. lia.
  - apply mask_select_inv in Hx as [Hlx ->].
    apply mask_select_inv in Hy as [Hly ->].
    apply compress_length; lia.
Qed.

(** The dark mask that the reader returns has one flag per kept shot. *)
Lemma shot_selection_mask_length {A} s h5f pid index mask (xs xs' : list A) :
  shot_selection s h5f pid = Ok (index, Some mask) ->
  select index xs = Ok xs' -> length mask = length xs'.
Proof.
  unfold shot_selection. destruct (truthy_channel (events_channel s)).
  - destruct (event_groups h5f !! _) as [g|]; [| discriminate].
    unfold events_selection, intersect1d.
    set (common := filter _ _).
    destruct (event_flags g _ _) as [flags|] eqn:Ef; [| discriminate].
    intros [= <- <-]. simpl. intros Hsel.
    apply event_flags_length in Ef. apply take_indices_length in Hsel.
    rewrite Ef, Hsel.
    destruct (np_any _); [| rewrite !length_map; reflexivity].
    apply compress_length; rewrite !length_map; reflexivity.
  - destruct (dark_shot_filter s) as [f|]; [| discriminate].
    destruct (mask_select _ (f pid)) as [flags|] eqn:Em; [| discriminate].
    intros [= <- <-]. simpl. intros Hsel.
    apply mask_select_inv in Em as [Hlf ->].
    apply mask_select_inv in Hsel as [Hlx ->].
    apply compress_length; lia.
Qed.

Lemma read_recording_lengths s h5f debug data pid dark imgs :
  read_recording s h5f debug = Ok (data, pid, dark, imgs) ->
  length pid = length (rows data) /\
  forall mask, dark = Some mask -> length mask = length (rows data).
Proof.
  unfold read_recording.
  destruct (image_groups h5f !! _) as [g|]; [| discriminate].
  destruct (shot_selection s h5f (img_pulse_id g)) as [[index dark']|] eqn:Es;
    [| discriminate].
  unfold waveforms.
  destruct (select index (img_pulse_id g)) as [pid'|] eqn:Ep; [| discriminate].
  destruct (select index (img_data g)) as [imgs'|] eqn:Ei; [| discriminate].
  intros [= <- <- <- _]. simpl. rewrite !length_map. split.
  - eapply select_length; eassumption.
  - intros mask ->. eapply shot_selection_mask_length; eassumption.
Qed.

(** ** Arrays on the heap *)

Lemma with_heap_id w : with_heap (heap w) w = w.
Proof. destruct w; reflexivity. Qed.

Lemma buffer_insert h (a : ndarray) buf :
  (base a < length h)%nat -> buffer (<[base a := buf]> h) a = buf.
Proof.
  intros H. unfold buffer. apply list_lookup_total_insert_eq. exact H.
Qed.

Lemma fmap_zip_with_post {A B C D} (f : C -> D) (g : A -> B -> C) l k :
  map f (zip_with g l k) = zip_with (fun x y => f (g x y)) l k.
Proof.
  revert k. induction l as [|x l IH]; intros [|y k]; simpl; try reflexivity.
  rewrite IH. reflexivity.
Qed.

Lemma elementwise_rows_step op n k bg buf :
  elementwise_rows op (S n) k bg buf =
    zip_with op (take k buf) bg ++ elementwise_rows op n k bg (drop k buf).
Proof. reflexivity. Qed.

(** The scalar step after the division: both steps are one operator. *)
Lemma elementwise_rows_post f op n k bg buf :
  map f (elementwise_rows op n k bg buf) =
    elementwise_rows (fun x r => f (op x r)) n k bg buf.
Proof.
  revert buf. induction n as [|n IH]; intros buf; [reflexivity |].
  rewrite !elementwise_rows_step, map_app, IH, fmap_zip_with_post.
  reflexivity.
Qed.

Lemma length_elementwise_rows op n k bg buf :
  length buf = (n * k)%nat -> length bg = k ->
  length (elementwise_rows op n k bg buf) = (n * k)%nat.
Proof.
  intros Hbuf Hbg. revert buf Hbuf.
  induction n as [|n IH]; intros buf Hbuf; [reflexivity |].
  rewrite elementwise_rows_step, length_app, length_zip_with, length_take.
  rewrite IH by (rewrite length_drop; lia). lia.
Qed.

(** Element [j] of row [i] of the result is [op] of that element and of
    element [j] of the reference. *)
Lemma elementwise_rows_lookup op n k bg buf i j :
  length buf = (n * k)%nat -> length bg = k -> (i < n)%nat -> (j < k)%nat ->
  elementwise_rows op n k bg buf !! (i * k + j)%nat =
    Some (op (buf !!! (i * k + j)%nat) (bg !!! j)).
Proof.
  intros Hbuf Hbg. revert buf i Hbuf.
  induction n as [|n IH]; intros buf i Hbuf Hi Hj; [lia |].
  rewrite elementwise_rows_step.
  assert (Hz : length (zip_with op (take k buf) bg) = k).
  { rewrite length_zip_with, length_take. lia. }
  destruct i as [|i].
  - simpl. rewrite lookup_app_l by lia.
    rewrite lookup_zip_with, lookup_take_lt by lia.
    destruct (lookup_lt_is_Some_2 buf j) as [x Hx]; [lia |].
    destruct (lookup_lt_is_Some_2 bg j) as [r Hr]; [lia |].
    rewrite Hx, Hr. simpl.
    rewrite (list_lookup_total_correct _ _ _ Hx).
    rewrite (list_lookup_total_correct _ _ _ Hr). reflexivity.
  - replace (S i * k + j)%nat with (k + (i * k + j))%nat by lia.
    rewrite lookup_app_r by lia. rewrite Hz.
    replace (k + (i * k + j) - k)%nat with (i * k + j)%nat by lia.
    rewrite IH; [| rewrite length_drop; lia | lia | lia].
    rewrite lookup_total_drop. reflexivity.
Qed.

Lemma with_self_id w : with_self (self w) w = w.
Proof. destruct w; reflexivity. Qed.

Lemma set_background_id s bg :
  _background s = Some bg -> set_background (Some bg) s = s.
Proof. destruct s; simpl. intros ->. reflexivity. Qed.

Lemma buffer_fresh h buf shp :
  buffer (h ++ [buf]) {| base := length h; shape := shp |} = buf.
Proof.
  unfold buffer. simpl. apply list_lookup_total_correct.
  rewrite lookup_app_r by lia. rewrite Nat.sub_diag. reflexivity.
Qed.

Lemma insert_fresh (h : list (list float)) buf b :
  <[length h := b]> (h ++ [buf]) = h ++ [b].
Proof.
  rewrite insert_app_r_alt by lia. rewrite Nat.sub_diag. reflexivity.
Qed.

Lemma set_background_same s : set_background (_background s) s = s.
Proof. destruct s; reflexivity. Qed.

Lemma engine_copy_refl w : engine_copy w w.
Proof.
  split; [reflexivity |]. exists (_background (self w)).
  split; [symmetry; apply set_background_same | reflexivity].
Qed.

Lemma buffer_fresh_app h b ext shp :
  buffer ((h ++ [b]) ++ ext) {| base := length h; shape := shp |} = b.
Proof.
  unfold buffer. simpl. apply list_lookup_total_correct.
  rewrite <- app_assoc. rewrite lookup_app_r by lia.
  rewrite Nat.sub_diag. reflexivity.
Qed.

(** ** The worker pool *)

Lemma chunk_size_pos n workers : (0 < n)%nat -> (0 < chunk_size n workers)%nat.
Proof.
  intros Hn. unfold chunk_size.
  destruct (Nat.eqb_spec n 0); [lia |].
  destruct (Nat.eqb_spec (n mod (workers * 4)) 0) as [Hmod|]; [| lia].
  destruct (Nat.eq_dec (workers * 4)%nat 0%nat) as [Hz|Hz].
  - rewrite Hz in Hmod. simpl in Hmod. lia.
  - pose proof (Nat.div_mod_eq n (workers * 4)%nat) as Hdm.
    destruct (n / (workers * 4))%nat; lia.
Qed.

(** Task [i] is the [i]-th slice of [size] inputs. *)
Lemma get_tasks_lookup {A} fuel size (it : list A) i :
  (0 < size)%nat -> (length it <= fuel)%nat ->
  get_tasks fuel size it !! i =
    if decide (i * size < length it)%nat
    then Some (take size (drop (i * size) it)) else None.
Proof.
  intros Hsize. revert it i.
  induction fuel as [|fuel IH]; intros it i Hfuel.
  - destruct it; [| simpl in Hfuel; lia]. cbn [get_tasks].
    rewrite lookup_nil. case_decide as H; [simpl in H; lia | reflexivity].
  - cbn [get_tasks]. destruct it as [|a it].
    { rewrite take_nil, lookup_nil.
      case_decide as H; [simpl in H; lia | reflexivity]. }
    destruct size as [|size]; [lia |].
    change (take (S size) (a :: it)) with (a :: take size it).
    destruct i as [|i].
    + simpl. reflexivity.
    + change ((a :: take size it) :: get_tasks fuel (S size) (drop (S size) (a :: it)))
        with ([a :: take size it] ++ get_tasks fuel (S size) (drop (S size) (a :: it))).
      rewrite lookup_app_r by (simpl; lia). simpl length.
      replace (S i - 1)%nat with i by lia.
      rewrite IH by (rewrite length_drop; simpl in *; lia).
      rewrite length_drop, drop_drop.
      replace (S size + i * S size)%nat with (S i * S size)%nat by lia.
      repeat case_decide; try reflexivity; simpl in *; lia.
Qed.

Lemma get_tasks_length {A} size (it : list A) i :
  (0 < size)%nat ->
  (i < length (get_tasks (length it) size it))%nat <-> (i * size < length it)%nat.
Proof.
  intros Hsize. rewrite <- lookup_lt_is_Some.
  rewrite get_tasks_lookup by lia.
  case_decide; split; intros Hi; try lia; try (eexists; reflexivity).
  destruct Hi as [x Hx]. discriminate.
Qed.

Lemma block_div_mod size i p :
  (i * size <= p)%nat -> (p < i * size + size)%nat ->
  (p / size = i /\ p mod size = p - i * size)%nat.
Proof.
  intros H1 H2. assert (Hs : size <> 0%nat) by lia.
  assert (Hq : (p / size)%nat = i).
  { symmetry. apply (Nat.div_unique p size i (p - i * size)%nat); lia. }
  split; [exact Hq |].
  pose proof (Nat.div_mod_eq p size). rewrite Hq in *. lia.
Qed.

Lemma fmap_Some_omap {B} (l : list (option B)) :
  Forall is_Some l -> Some <$> omap id l = l.
Proof.
  induction 1 as [|x l [b ->] _ IH]; [reflexivity |].
  cbn. f_equal. exact IH.
Qed.

(** The slots after the results of the tasks of [order] have arrived, each
    task [i] having succeeded with [res i]. *)
Lemma slots_filled {A B} size (func : list A -> result (list B))
    (tasks : list (list A)) (res : nat -> list B) n order :
  (0 < size)%nat ->
  (forall i, i ∈ order ->
     (i * size < n)%nat /\ func (tasks !!! i) = Ok (res i) /\
     length (res i) = Nat.min size (n - i * size)) ->
  forall done slots,
    length slots = n ->
    (forall p, (p < n)%nat ->
       slots !! p = Some (if decide ((p / size)%nat ∈ done)
                          then res (p / size)%nat !! (p mod size)%nat
                          else None)) ->
    exists slots',
      foldl (fun state i => set_result size state i (func (tasks !!! i)))
            (Ok slots) order = Ok slots' /\
      length slots' = n /\
      forall p, (p < n)%nat ->
        slots' !! p = Some (if decide ((p / size)%nat ∈ order ++ done)
                            then res (p / size)%nat !! (p mod size)%nat
                            else None).
Proof.
  intros Hsize. induction order as [|i order IH]; intros Hres done slots Hlen Hslots.
  { exists slots. simpl. auto. }
  destruct (Hres i) as (Hi & Hf & Hl); [apply list_elem_of_here |].
  cbn [foldl]. unfold set_result at 2. rewrite Hf.
  set (slots1 := take (i * size) slots ++ (Some <$> res i)
                   ++ drop (S i * size) slots).
  assert (Hlen1 : length slots1 = n).
  { unfold slots1. rewrite !length_app, length_take, length_fmap, length_drop.
    lia. }
  destruct (IH (fun j Hj => Hres j (list_elem_of_further _ _ _ Hj))
               (i :: done) slots1 Hlen1) as (slots' & Hfold & Hlen' & Hlook).
  - intros p Hp. unfold slots1.
    destruct (decide (p < i * size)%nat) as [Hlt|Hge].
    + rewrite lookup_app_l by (rewrite length_take; lia).
      rewrite lookup_take_lt by lia. rewrite (Hslots p Hp).
      assert (p / size <> i)%nat.
      { intros <-. pose proof (Nat.Div0.mul_div_le p size). lia. }
      f_equal. apply decide_ext. rewrite elem_of_cons. intuition congruence.
    + rewrite lookup_app_r by (rewrite length_take; lia).
      rewrite length_take, Nat.min_l by lia.
      destruct (decide (p - i * size < length (res i))%nat) as [Hin|Hout].
      * rewrite lookup_app_l by (rewrite length_fmap; lia).
        rewrite list_lookup_fmap.
        destruct (block_div_mod size i p) as [Hq Hr]; [lia | lia |].
        rewrite Hq, Hr.
        destruct (lookup_lt_is_Some_2 (res i) (p - i * size)%nat Hin) as [b Hb].
        rewrite Hb. simpl. f_equal.
        rewrite decide_True by apply list_elem_of_here. reflexivity.
      * rewrite lookup_app_r by (rewrite length_fmap; lia).
        rewrite length_fmap, lookup_drop.
        replace (S i * size + (p - i * size - length (res i)))%nat with p by lia.
        rewrite (Hslots p Hp).
        assert (p / size <> i)%nat.
        { intros <-. pose proof (Nat.mod_upper_bound p size).
          pose proof (Nat.div_mod_eq p size). lia. }
        f_equal. apply decide_ext. rewrite elem_of_cons. intuition congruence.
  - exists slots'. split; [exact Hfold | split; [exact Hlen' |]].
    intros p Hp. rewrite (Hlook p Hp). f_equal.
    apply decide_ext. simpl.
    repeat (rewrite elem_of_app || rewrite elem_of_cons). tauto.
Qed.

Lemma completion_order_elem times m i :
  i ∈ completion_order times m <-> (i < m)%nat.
Proof.
  unfold completion_order. rewrite merge_sort_Permutation, elem_of_seq. lia.
Qed.

Lemma fold_raise {A B} size (func : list A -> result (list B))
    (tasks : list (list A)) order e :
  foldl (fun state i => set_result size state i (func (tasks !!! i)))
        (Raise e) order = Raise e.
Proof. induction order as [|i order IH]; [reflexivity | exact IH]. Qed.

Lemma fold_ok_all {A B} size (func : list A -> result (list B))
    (tasks : list (list A)) order :
  forall slots slots',
    foldl (fun state i => set_result size state i (func (tasks !!! i)))
          (Ok slots) order = Ok slots' ->
    forall i, i ∈ order -> exists r, func (tasks !!! i) = Ok r.
Proof.
  induction order as [|j order IH]; intros slots slots' Hfold i Hi.
  { apply elem_of_nil in Hi. contradiction. }
  cbn [foldl] in Hfold. unfold set_result at 2 in Hfold.
  destruct (func (tasks !!! j)) as [r|e] eqn:Hj.
  - apply elem_of_cons in Hi as [-> | Hi]; [exists r; exact Hj |].
    eapply IH; eassumption.
  - rewrite fold_raise in Hfold. discriminate.
Qed.

(** What [pool_map] returns is, input by input, a result of the task
    function, in the order of the inputs, for any completion times and any
    number of workers. *)
Lemma pool_map_inv {A B} workers times (func : list A -> result (list B))
    (R : A -> B -> Prop) inputs outs :
  (forall chunk res, func chunk = Ok res -> Forall2 R chunk res) ->
  pool_map workers times func inputs = Ok outs ->
  Forall2 R inputs outs.
Proof.
  intros Hfunc. unfold pool_map.
  set (n := length inputs). set (size := chunk_size n workers).
  set (tasks := get_tasks n size inputs).
  set (order := completion_order times (length tasks)).
  destruct (foldl _ _ order) as [slots'|] eqn:Hfold; [| discriminate].
  intros [= <-].
  destruct (decide (n = 0)%nat) as [Hz|Hnz].
  { assert (inputs = []) as -> by (apply length_zero_iff_nil; exact Hz).
    vm_compute in Hfold. injection Hfold as <-. constructor. }
  assert (Hsize : (0 < size)%nat) by (apply chunk_size_pos; lia).
  assert (Htask : forall i, (i * size < n)%nat ->
             tasks !! i = Some (take size (drop (i * size) inputs))).
  { intros i Hi. unfold tasks. rewrite get_tasks_lookup by (fold n; lia).
    fold n. rewrite decide_True by exact Hi. reflexivity. }
  assert (Hin : forall i, i ∈ order <-> (i * size < n)%nat).
  { intros i. unfold order. rewrite completion_order_elem.
    apply get_tasks_length. exact Hsize. }
  set (res := fun i => match func (tasks !!! i) with
                       | Ok r => r | Raise _ => [] end).
  assert (Hres : forall i, i ∈ order ->
             func (tasks !!! i) = Ok (res i) /\
             Forall2 R (take size (drop (i * size) inputs)) (res i)).
  { intros i Hi. destruct (fold_ok_all _ _ _ _ _ _ Hfold i Hi) as [r Hr].
    unfold res. rewrite Hr. split; [reflexivity |].
    apply Hfunc. rewrite <- Hr. f_equal. symmetry.
    apply list_lookup_total_correct, Htask, Hin, Hi. }
  destruct (slots_filled size func tasks res n order Hsize) with
    (done := @nil nat) (slots := replicate n (@None B))
    as (slots2 & Hfold2 & Hlen2 & Hlook2).
  - intros i Hi. destruct (Hres i Hi) as [Hf HR].
    split; [apply Hin; exact Hi | split; [exact Hf |]].
    apply Forall2_length in HR. rewrite <- HR, length_take, length_drop.
    reflexivity.
  - apply length_replicate.
  - intros p Hp. rewrite lookup_replicate_2 by exact Hp.
    rewrite decide_False by apply not_elem_of_nil. reflexivity.
  - rewrite Hfold in Hfold2. injection Hfold2 as <-.
    assert (Hcell : forall p a, inputs !! p = Some a ->
               exists b, slots' !! p = Some (Some b) /\ R a b).
    { intros p a Ha. assert (Hp : (p < n)%nat) by (eapply lookup_lt_Some, Ha).
      pose proof (Nat.div_mod_eq p size) as Hdm.
      pose proof (Nat.mod_upper_bound p size ltac:(lia)) as Hmod.
      assert (Hq : (p / size)%nat ∈ order) by (apply Hin; nia).
      destruct (Hres _ Hq) as [_ HR].
      assert (Hta : take size (drop (p / size * size) inputs)
                      !! (p mod size)%nat = Some a).
      { rewrite lookup_take_lt by lia. rewrite lookup_drop.
        replace (p / size * size + p mod size)%nat with p by lia. exact Ha. }
      destruct (Forall2_lookup_l _ _ _ _ _ HR Hta) as (b & Hb & Hab).
      exists b. split; [| exact Hab].
      rewrite (Hlook2 p Hp), app_nil_r, decide_True by exact Hq.
      rewrite Hb. reflexivity. }
    assert (Hsome : Some <$> omap id slots' = slots').
    { apply fmap_Some_omap. apply Forall_lookup_2. intros p x Hx.
      assert (Hp : (p < n)%nat) by (rewrite <- Hlen2; eapply lookup_lt_Some, Hx).
      destruct (lookup_lt_is_Some_2 inputs p Hp) as [a Ha].
      destruct (Hcell p a Ha) as (b & Hb & _).
      rewrite Hb in Hx. injection Hx as <-. eexists. reflexivity. }
    apply Forall2_same_length_lookup_2.
    + apply (f_equal length) in Hsome. rewrite length_fmap in Hsome.
      rewrite Hsome, Hlen2. reflexivity.
    + intros p a b Ha Hb. destruct (Hcell p a Ha) as (b' & Hb' & Hab).
      rewrite <- Hsome, list_lookup_fmap, Hb in Hb'. injection Hb' as <-.
      exact Hab.
Qed.

Lemma fold_ok {A B} size (func : list A -> result (list B))
    (tasks : list (list A)) order :
  (forall i, i ∈ order -> exists r, func (tasks !!! i) = Ok r) ->
  forall slots, exists slots',
    foldl (fun state i => set_result size state i (func (tasks !!! i)))
          (Ok slots) order = Ok slots'.
Proof.
  induction order as [|j order IH]; intros Hall slots.
  { exists slots. reflexivity. }
  cbn [foldl]. unfold set_result at 2.
  destruct (Hall j) as [r ->]; [apply list_elem_of_here |].
  apply IH. intros i Hi. apply Hall. apply list_elem_of_further. exact Hi.
Qed.

Lemma get_tasks_Forall {A} (P : A -> Prop) fuel size (it : list A) :
  Forall P it -> Forall (Forall P) (get_tasks fuel size it).
Proof.
  revert it. induction fuel as [|fuel IH]; intros it Hit; [constructor |].
  cbn [get_tasks]. destruct (take size it) as [|a t] eqn:Et; [constructor |].
  constructor.
  - rewrite <- Et. apply Forall_take. exact Hit.
  - apply IH. apply Forall_drop. exact Hit.
Qed.

(** [pool_map] returns when the task function returns on every chunk of
    inputs on which it can. *)
Lemma pool_map_returns {A B} workers times (func : list A -> result (list B))
    (P : A -> Prop) inputs :
  (forall chunk, Forall P chunk -> exists res, func chunk = Ok res) ->
  Forall P inputs ->
  exists outs, pool_map workers times func inputs = Ok outs.
Proof.
  intros Hfunc Hin. unfold pool_map.
  set (tasks := get_tasks _ _ inputs).
  destruct (fold_ok (chunk_size (length inputs) workers) func tasks
              (completion_order times (length tasks)))
    with (slots := replicate (length inputs) (@None B)) as [slots' ->].
  - intros i _. apply Hfunc. rewrite list_lookup_total_alt.
    destruct (tasks !! i) as [t|] eqn:Et; [| constructor].
    eapply (Forall_lookup_1 (Forall P)); [| exact Et].
    apply get_tasks_Forall. exact Hin.
  - eexists. reflexivity.
Qed.

Lemma annotate_inv {X R} scan_pos (outs res : list (output X R)) i :
  annotate scan_pos i outs = Ok res ->
  length res = length outs /\
  forall j o, outs !! j = Some o ->
    exists p, scan_pos !! (i + j)%nat = Some p /\
              res !! j = Some (set_scan_pos p o).
Proof.
  revert res i. induction outs as [|o outs IH]; intros res i; simpl.
  { intros [= <-]. split; [reflexivity |]. intros j o Hj. discriminate. }
  destruct (scan_pos !! i) as [p|] eqn:Hp; [| discriminate].
  destruct (annotate scan_pos (S i) outs) as [l|] eqn:Hl; [| discriminate].
  intros [= <-]. destruct (IH l (S i) Hl) as [Hlen Hlook].
  split; [simpl; rewrite Hlen; reflexivity |].
  intros [|j] o' Hj.
  - injection Hj as <-. exists p. rewrite Nat.add_0_r. auto.
  - destruct (Hlook j o' Hj) as (q & Hq & Hr). exists q.
    replace (i + S j)%nat with (S i + j)%nat by lia. auto.
Qed.

Lemma annotate_returns {X R} scan_pos (outs : list (output X R)) i :
  (i + length outs <= length scan_pos)%nat ->
  exists res, annotate scan_pos i outs = Ok res.
Proof.
  revert i. induction outs as [|o outs IH]; intros i Hi; simpl.
  { eexists. reflexivity. }
  destruct (lookup_lt_is_Some_2 scan_pos i) as [p ->]; [simpl in Hi; lia |].
  destruct (IH (S i)) as [l ->]; [simpl in Hi; lia |].
  eexists. reflexivity.
Qed.

Section EngineFacts.

Variable X : Type.
Variable find_edge : ndvalue -> Z -> string -> float -> edges X + Z.

(** ** [process] *)

(** [process] on a two-dimensional array with a reference of the length of
    its rows, for an operator [op] that the background method selects. *)
Lemma process_two_dimensional data debug w bg n k op :
  _background (self w) = Some bg ->
  shape data = [n; k] -> length bg = k -> (base data < length (heap w))%nat ->
  (background_method (self w) = "sub"%string /\ op = PrimFloat.sub \/
   background_method (self w) = "div"%string /\ op = div_corr) ->
  let corrected := elementwise_rows op n k bg (buffer (heap w) data) in
  process find_edge data debug w =
    (edge_detection find_edge (self w)
       {| vshape := [n; k]; vdata := corrected |} data debug,
     with_heap (<[base data := corrected]> (heap w)) w).
Proof.
  intros Hbg Hshape Hlen Hbase Hop corrected.
  unfold process, bind at 1, get_self. rewrite Hbg.
  unfold as_two_dimensional. rewrite Hshape.
  unfold bind at 1, ret. unfold remove_background.
  destruct Hop as [[Hm ->] | [Hm ->]]; rewrite Hm; simpl String.eqb; cbv iota.
  - unfold bind, inplace, update_buffer, broadcast_rows, load, lift.
    rewrite Hshape, Hlen, Nat.eqb_refl. simpl heap.
    rewrite buffer_insert by exact Hbase. reflexivity.
  - unfold bind, inplace, inplace_scalar, update_buffer, broadcast_rows,
      load, lift.
    rewrite Hshape, Hlen, Nat.eqb_refl. simpl heap.
    rewrite !buffer_insert by (rewrite ?length_insert; exact Hbase).
    rewrite list_insert_insert_eq.
    rewrite elementwise_rows_post. reflexivity.
Qed.

(** [process] on a two-dimensional array, in general: the buffer is
    replaced by its correction, or the broadcast is refused and nothing
    has changed. *)
Lemma process_2d data debug w bg n k :
  _background (self w) = Some bg ->
  shape data = [n; k] -> (base data < length (heap w))%nat ->
  process find_edge data debug w =
    match corrected_buffer (background_method (self w)) bg n k
            (buffer (heap w) data) with
    | Ok b =>
        (edge_detection find_edge (self w) {| vshape := [n; k]; vdata := b |}
           data debug,
         with_heap (<[base data := b]> (heap w)) w)
    | Raise e => (Raise e, w)
    end.
Proof.
  intros Hbg Hshape Hbase.
  unfold process, bind at 1, get_self. rewrite Hbg.
  unfold as_two_dimensional. rewrite Hshape.
  unfold bind at 1, ret. unfold remove_background, corrected_buffer.
  destruct (String.eqb (background_method (self w)) "sub").
  { unfold bind, inplace, update_buffer, load, lift. rewrite Hshape.
    destruct (broadcast_rows PrimFloat.sub n k bg (buffer (heap w) data));
      [| reflexivity].
    simpl heap. rewrite buffer_insert by exact Hbase. reflexivity. }
  destruct (String.eqb (background_method (self w)) "div").
  { unfold bind, inplace, inplace_scalar, update_buffer, load, lift.
    rewrite Hshape.
    destruct (broadcast_rows PrimFloat.div n k bg (buffer (heap w) data));
      [| reflexivity].
    simpl heap.
    rewrite !buffer_insert by (rewrite ?length_insert; exact Hbase).
    rewrite list_insert_insert_eq. reflexivity. }
  unfold bind, ret, load, lift.
  assert (Hid : <[base data := buffer (heap w) data]> (heap w) = heap w).
  { apply list_insert_id. unfold buffer.
    destruct (lookup_lt_is_Some_2 (heap w) (base data) Hbase) as [b Hb].
    rewrite (list_lookup_total_correct _ _ _ Hb). exact Hb. }
  rewrite Hid, with_heap_id, Hshape. reflexivity.
Qed.

(** C8. For every one-dimensional waveform, [process] on it gives the same
    result, and leaves the same world, as [process] on the same values
    seen as a matrix of one row. *)
Theorem process_vector_as_row (l k : nat) debug w :
  process find_edge {| base := l; shape := [k] |} debug w =
  process find_edge {| base := l; shape := [1%nat; k] |} debug w.
Proof.
  unfold process, bind, get_self.
  destruct (_background (self w)); reflexivity.
Qed.

(** The same when the matrix of one row is another array with the same
    values: the results agree by value. *)
Lemma process_vector_as_row_copy (l1 l2 k : nat) debug w :
  (l1 < length (heap w))%nat -> (l2 < length (heap w))%nat ->
  heap w !! l1 = heap w !! l2 ->
  match process find_edge {| base := l1; shape := [k] |} debug w,
        process find_edge {| base := l2; shape := [1%nat; k] |} debug w with
  | (Ok o1, w1), (Ok o2, w2) =>
      edge_pos o1 = edge_pos o2 /\ extra o1 = extra o2 /\
      raw_input (pickle (heap w1) o1) = raw_input (pickle (heap w2) o2)
  | (Raise e1, _), (Raise e2, _) => e1 = e2
  | _, _ => False
  end.
Proof.
  intros H1 H2 Heq.
  replace (process find_edge {| base := l1; shape := [k] |} debug w)
    with (process find_edge {| base := l1; shape := [1%nat; k] |} debug w)
    by (unfold process, bind, get_self;
        destruct (_background (self w)); reflexivity).
  destruct (_background (self w)) as [bg|] eqn:Hbg.
  2:{ unfold process, bind, get_self. rewrite Hbg. reflexivity. }
  rewrite (process_2d {| base := l1; shape := [1%nat; k] |} debug w bg 1 k
             Hbg eq_refl) by exact H1.
  rewrite (process_2d {| base := l2; shape := [1%nat; k] |} debug w bg 1 k
             Hbg eq_refl) by exact H2.
  assert (Hb : buffer (heap w) {| base := l1; shape := [1%nat; k] |} =
               buffer (heap w) {| base := l2; shape := [1%nat; k] |}).
  { unfold buffer. simpl. rewrite !list_lookup_total_alt, Heq. reflexivity. }
  rewrite Hb.
  destruct (corrected_buffer _ bg 1 k _) as [b|e]; [| reflexivity].
  unfold edge_detection.
  destruct (find_edge _ _ _ _) as [e|c]; [| reflexivity].
  simpl. repeat split. destruct debug; simpl; [| reflexivity].
  unfold buffer. simpl.
  rewrite !list_lookup_total_insert_eq by assumption. reflexivity.
Qed.

(** C10. [process] works in place: after the call the array that was
    passed holds the corrected values ([x - r], or [x / r - 1]); the array
    under [raw_input] is that very array, so it reads as corrected; and a
    second call on the same array corrects the corrected values again. *)
Theorem process_mutates_input data w bg n k op :
  _background (self w) = Some bg ->
  shape data = [n; k] -> length bg = k ->
  (base data < length (heap w))%nat ->
  (background_method (self w) = "sub"%string /\ op = PrimFloat.sub \/
   background_method (self w) = "div"%string /\
     op = (fun x r => PrimFloat.sub (PrimFloat.div x r) 1%float)) ->
  let raw := buffer (heap w) data in
  let corrected := elementwise_rows op n k bg in
  (forall debug,
      buffer (heap (snd (process find_edge data debug w))) data =
        corrected raw) /\
  (forall out w1,
      process find_edge data true w = (Ok out, w1) ->
      raw_input out = Some data /\ buffer (heap w1) data = corrected raw) /\
  (forall d1 d2,
      buffer (heap (snd (process find_edge data d2
                           (snd (process find_edge data d1 w))))) data =
        corrected (corrected raw)).
Proof.
  intros Hbg Hshape Hlen Hbase Hop raw corrected.
  assert (Hp : forall debug w0,
             self w0 = self w -> length (heap w0) = length (heap w) ->
             process find_edge data debug w0 =
               (edge_detection find_edge (self w0)
                  {| vshape := [n; k];
                     vdata := corrected (buffer (heap w0) data) |} data debug,
                with_heap (<[base data := corrected (buffer (heap w0) data)]>
                             (heap w0)) w0)).
  { intros debug w0 Hs Hh.
    apply process_two_dimensional; rewrite ?Hs, ?Hh; assumption. }
  assert (Hafter : forall debug,
             buffer (heap (snd (process find_edge data debug w))) data =
               corrected raw).
  { intros debug. rewrite (Hp debug w eq_refl eq_refl). simpl.
    apply buffer_insert. exact Hbase. }
  split; [exact Hafter | split].
  - intros out w1 Hrun. split.
    + rewrite (Hp true w eq_refl eq_refl) in Hrun.
      injection Hrun as Hout _. unfold edge_detection in Hout.
      destruct (find_edge _ _ _ _); [| discriminate].
      injection Hout as <-. reflexivity.
    + specialize (Hafter true). rewrite Hrun in Hafter. exact Hafter.
  - intros d1 d2.
    rewrite (Hp d2 (snd (process find_edge data d1 w))).
    + simpl. rewrite buffer_insert, Hafter; [reflexivity |].
      rewrite (Hp d1 w eq_refl eq_refl). simpl.
      rewrite length_insert. exact Hbase.
    + rewrite (Hp d1 w eq_refl eq_refl). reflexivity.
    + rewrite (Hp d1 w eq_refl eq_refl). simpl. apply length_insert.
Qed.

(** C5. For every two-dimensional waveform array and stored reference of
    the length of its rows, [process] removes the background with one
    elementwise operator over every row, the one that the method selects:
    [x - r] for 'sub' and [x / r - 1] for 'div', [r] being the element of
    the reference in the column of [x].  The corrected values are what
    [find_edge] receives and what the array holds afterwards. *)
Theorem background_removal_elementwise data debug w bg n k :
  _background (self w) = Some bg ->
  shape data = [n; k] -> length bg = k ->
  (base data < length (heap w))%nat ->
  length (buffer (heap w) data) = (n * k)%nat ->
  forall op,
    (background_method (self w) = "sub"%string /\ op = PrimFloat.sub \/
     background_method (self w) = "div"%string /\
       op = (fun x r => PrimFloat.sub (PrimFloat.div x r) 1%float)) ->
    exists corrected,
      process find_edge data debug w =
        (edge_detection find_edge (self w)
           {| vshape := [n; k]; vdata := corrected |} data debug,
         with_heap (<[base data := corrected]> (heap w)) w) /\
      length corrected = (n * k)%nat /\
      forall i j, (i < n)%nat -> (j < k)%nat ->
        corrected !! (i * k + j)%nat =
          Some (op (buffer (heap w) data !!! (i * k + j)%nat) (bg !!! j)).
Proof.
  intros Hbg Hshape Hlen Hbase Hbuf op Hop.
  exists (elementwise_rows op n k bg (buffer (heap w) data)).
  split; [| split].
  - apply process_two_dimensional; assumption.
  - apply length_elementwise_rows; assumption.
  - intros i j Hi Hj. apply elementwise_rows_lookup; assumption.
Qed.

(** ** [process_hdf5] *)

(** [process_hdf5] in closed form: the recording is read, the reference is
    chosen, the waveforms are put in a new array, corrected in place and
    searched for edges. *)
Lemma process_hdf5_closed f d w :
  process_hdf5 find_edge f d w =
  match h5_files w !! f with
  | None => (Raise FileNotFound, w)
  | Some h5f =>
    match read_recording (self w) h5f d with
    | Raise e => (Raise e, w)
    | Ok (data, pid, dark, imgs) =>
      match reference_for (self w) data dark with
      | Raise e => (Raise e, w)
      | Ok bg =>
        let s1 := set_background (Some bg) (self w) in
        let n := length (rows data) in
        let k := ncols data in
        let arr := {| base := length (heap w); shape := [n; k] |} in
        match corrected_buffer (background_method s1) bg n k
                (concat (rows data)) with
        | Raise e =>
            (Raise e, with_heap (heap w ++ [concat (rows data)]) (with_self s1 w))
        | Ok b =>
            (match edge_detection find_edge s1
                     {| vshape := [n; k]; vdata := b |} arr d with
             | Ok out => finish_output out pid dark imgs
             | Raise e => Raise e
             end,
             with_heap (heap w ++ [b]) (with_self s1 w))
        end
      end
    end
  end.
Proof.
  unfold process_hdf5. unfold bind at 1. unfold _read_bsread_file.
  destruct (h5_files w !! f) as [h5f|]; [| reflexivity].
  destruct (read_recording (self w) h5f d) as [[[[data pid] dark] imgs]|e];
    [| reflexivity].
  unfold bind at 1, get_self. unfold reference_for.
  assert (Hrun : forall w1 bg,
             _background (self w1) = Some bg ->
             bind (alloc [length (rows data); ncols data] (concat (rows data)))
               (fun arr => bind (process find_edge arr d)
                  (fun out => lift (finish_output out pid dark imgs))) w1 =
             match corrected_buffer (background_method (self w1)) bg
                     (length (rows data)) (ncols data) (concat (rows data)) with
             | Raise e =>
                 (Raise e, with_heap (heap w1 ++ [concat (rows data)]) w1)
             | Ok b =>
                 (match edge_detection find_edge (self w1)
                          {| vshape := [length (rows data); ncols data];
                             vdata := b |}
                          {| base := length (heap w1);
                             shape := [length (rows data); ncols data] |} d with
                  | Ok out => finish_output out pid dark imgs
                  | Raise e => Raise e
                  end,
                  with_heap (heap w1 ++ [b]) w1)
             end).
  { intros w1 bg Hbg. unfold bind at 1, alloc. unfold bind at 1.
    rewrite (process_2d _ d _ bg (length (rows data)) (ncols data));
      [| exact Hbg | reflexivity | simpl; rewrite length_app; simpl; lia].
    simpl heap. simpl base. rewrite buffer_fresh. simpl self.
    destruct (corrected_buffer _ bg _ _ _) as [b|e]; [| reflexivity].
    rewrite insert_fresh.
    destruct (edge_detection _ _ _ _ _); reflexivity. }
  destruct (has_strategy (self w)).
  - unfold bind at 1. unfold calibrate_background, bind at 1, lift.
    destruct (dark_rows data dark) as [data'|e]; [| reflexivity].
    unfold bind at 1, get_self, put_self.
    rewrite (Hrun _ (mean_axis0 data')) by reflexivity. reflexivity.
  - destruct (_background (self w)) as [bg|] eqn:Hbg; [| reflexivity].
    unfold bind at 1, ret. rewrite (Hrun w bg Hbg).
    rewrite (set_background_id _ _ Hbg), with_self_id. reflexivity.
Qed.

Lemma shot_selection_dark s h5f pid index dark :
  has_strategy s = true ->
  shot_selection s h5f pid = Ok (index, dark) ->
  exists mask, dark = Some mask.
Proof.
  unfold has_strategy, shot_selection. intros Hs.
  destruct (truthy_channel (events_channel s)).
  - destruct (event_groups h5f !! _) as [g|]; [| discriminate].
    unfold events_selection.
    destruct (intersect1d pid (ev_pulse_id g)) as [[common idx] eidx].
    destruct (event_flags g _ _) as [flags|]; [| discriminate].
    intros [= _ <-]. eexists. reflexivity.
  - simpl in Hs. destruct (dark_shot_filter s) as [f|]; [| discriminate].
    destruct (mask_select _ (f pid)) as [flags|]; [| discriminate].
    intros [= _ <-]. eexists. reflexivity.
Qed.

Lemma read_recording_dark s h5f debug data pid dark imgs :
  has_strategy s = true ->
  read_recording s h5f debug = Ok (data, pid, dark, imgs) ->
  exists mask, dark = Some mask.
Proof.
  intros Hs. unfold read_recording.
  destruct (image_groups h5f !! _) as [g|]; [| discriminate].
  destruct (shot_selection s h5f (img_pulse_id g)) as [[index dark']|] eqn:E;
    [| discriminate].
  destruct (waveforms s g index) as [[[data' pid'] imgs']|]; [| discriminate].
  intros [= _ _ <- _]. eapply shot_selection_dark; eassumption.
Qed.

Lemma dark_rows_inv data mask data' :
  dark_rows data (Some mask) = Ok data' ->
  np_any mask = true /\ length mask = length (rows data) /\
  data' = {| ncols := ncols data; rows := compress mask (rows data) |}.
Proof.
  unfold dark_rows. destruct (np_any mask); [| discriminate].
  destruct (mask_select mask (rows data)) as [rs|] eqn:E; [| discriminate].
  apply mask_select_inv in E as [Hlen ->]. intros [= <-]. auto.
Qed.

Lemma finish_output_inv (out out' : output X ndarray) pid mask imgs :
  finish_output out pid (Some mask) imgs = Ok out' ->
  length mask = length (edge_pos out) /\
  edge_pos out' =
    zip_with (fun (b : bool) x => if b then PrimFloat.nan else x) mask
             (edge_pos out) /\
  is_dark out' = Some (Some mask) /\ pulse_id out' = Some pid /\
  images out' = Some imgs /\ raw_input out' = raw_input out /\
  extra out' = extra out.
Proof.
  unfold finish_output.
  destruct (mask_assign mask nan (edge_pos out)) as [ep|] eqn:E; [| discriminate].
  apply mask_assign_inv in E as [Hlen ->]. intros [= <-]. simpl. auto 10.
Qed.

(** What a successful [process_hdf5] did, when a strategy is configured. *)
Lemma process_hdf5_ok_strategy filepath debug w out w' :
  has_strategy (self w) = true ->
  process_hdf5 find_edge filepath debug w = (Ok out, w') ->
  exists h5f data pid mask imgs b e,
    h5_files w !! filepath = Some h5f /\
    read_recording (self w) h5f debug = Ok (data, pid, Some mask, imgs) /\
    np_any mask = true /\ length mask = length (rows data) /\
    let ref := mean_axis0 {| ncols := ncols data;
                             rows := compress mask (rows data) |} in
    corrected_buffer (background_method (self w)) ref
      (length (rows data)) (ncols data) (concat (rows data)) = Ok b /\
    find_edge {| vshape := [length (rows data); ncols data]; vdata := b |}
      (step_length (self w)) (edge_type (self w)) (refinement (self w)) = inl e /\
    length mask = length (fe_edge_pos e) /\
    edge_pos out =
      zip_with (fun (b : bool) x => if b then PrimFloat.nan else x) mask
               (fe_edge_pos e) /\
    is_dark out = Some (Some mask) /\
    w' = with_heap (heap w ++ [b])
           (with_self (set_background (Some ref) (self w)) w).
Proof.
  intros Hs. rewrite process_hdf5_closed.
  destruct (h5_files w !! filepath) as [h5f|]; [| discriminate].
  destruct (read_recording (self w) h5f debug) as [[[[data pid] dark] imgs]|]
    eqn:Hread; [| discriminate].
  destruct (read_recording_dark _ _ _ _ _ _ _ Hs Hread) as [mask ->].
  unfold reference_for. rewrite Hs.
  destruct (dark_rows data (Some mask)) as [data'|] eqn:Hdark; [| discriminate].
  apply dark_rows_inv in Hdark as [Hany [Hlen ->]].
  cbv zeta. simpl background_method.
  destruct (corrected_buffer _ _ _ _ _) as [b|] eqn:Hb; [| discriminate].
  unfold edge_detection. simpl step_length. simpl edge_type. simpl refinement.
  destruct (find_edge _ _ _ _) as [e|] eqn:He; [| discriminate].
  intros [= Hfin <-].
  apply finish_output_inv in Hfin as [Hl [Hep [Hd _]]]. simpl in Hl, Hep.
  exists h5f, data, pid, mask, imgs, b, e. repeat split; assumption.
Qed.

(** C2. For every recording that [process_hdf5] processes with a
    dark-shot strategy configured (events channel or predicate), the
    result holds a dark mask, and every shot that the mask flags has NaN as
    its edge position. *)
Theorem dark_shots_have_nan_edge filepath debug w out w' :
  has_strategy (self w) = true ->
  process_hdf5 find_edge filepath debug w = (Ok out, w') ->
  exists mask,
    is_dark out = Some (Some mask) /\
    length mask = length (edge_pos out) /\
    forall i, mask !! i = Some true -> edge_pos out !! i = Some PrimFloat.nan.
Proof.
  intros Hs Hrun.
  destruct (process_hdf5_ok_strategy _ _ _ _ _ Hs Hrun)
    as (h5f & data & pid & mask & imgs & b & e & _ & _ & _ & _ & _ & _ &
        Hlen & Hep & Hdark & _).
  exists mask. split; [exact Hdark | split].
  - rewrite Hep, length_zip_with. lia.
  - intros i Hi. rewrite Hep. apply masked_lookup; assumption.
Qed.

(** C4, as the code has it.  With a strategy configured, the reference
    that [process_hdf5] builds is the column-wise mean of exactly the shots
    that the returned mask flags dark: the dark shots are the ones that
    are averaged, and the other shots are left out. *)
Theorem reference_averages_dark_shots filepath debug w out w' :
  has_strategy (self w) = true ->
  process_hdf5 find_edge filepath debug w = (Ok out, w') ->
  exists h5f data pid mask imgs,
    h5_files w !! filepath = Some h5f /\
    read_recording (self w) h5f debug = Ok (data, pid, Some mask, imgs) /\
    is_dark out = Some (Some mask) /\
    length mask = length (rows data) /\ np_any mask = true /\
    _background (self w') =
      Some (mean_axis0 {| ncols := ncols data;
                          rows := compress mask (rows data) |}).
Proof.
  intros Hs Hrun.
  destruct (process_hdf5_ok_strategy _ _ _ _ _ Hs Hrun)
    as (h5f & data & pid & mask & imgs & b & e & Hf & Hread & Hany & Hlen &
        _ & _ & _ & _ & Hdark & ->).
  exists h5f, data, pid, mask, imgs. repeat split; assumption.
Qed.
(** The reference that is used does not depend on the one that was
    stored, when a strategy is configured. *)
Lemma reference_for_fresh s old data dark :
  has_strategy s = true ->
  reference_for (set_background old s) data dark = reference_for s data dark.
Proof.
  intros Hs. unfold reference_for.
  change (has_strategy (set_background old s)) with (has_strategy s).
  rewrite Hs. reflexivity.
Qed.


(** With no strategy and no reference, no recording at all is processed. *)
Lemma process_hdf5_needs_reference filepath debug w :
  has_strategy (self w) = false -> _background (self w) = None ->
  exists e, process_hdf5 find_edge filepath debug w = (Raise e, w).
Proof.
  intros Hs Hbg. rewrite process_hdf5_closed.
  destruct (h5_files w !! filepath) as [h5f|]; [| eexists; reflexivity].
  destruct (read_recording (self w) h5f debug) as [[[[data pid] dark] imgs]|];
    [| eexists; reflexivity].
  unfold reference_for. rewrite Hs, Hbg. eexists. reflexivity.
Qed.

(** *** No configuration error at processing time *)

Lemma update_buffer_errors a f :
  (forall buf e, f buf = Raise e -> is_config_error e = false) ->
  runtime_errors (update_buffer a f).
Proof.
  intros Hf w e w' H. unfold update_buffer in H.
  destruct (f (buffer (heap w) a)) eqn:E; [discriminate |].
  injection H as <- _. exact (Hf _ _ E).
Qed.

Lemma inplace_errors op bg data : runtime_errors (inplace op bg data).
Proof.
  unfold inplace.
  destruct (shape data) as [|n [|k [|? ?]]];
    try (apply runtime_errors_raise; reflexivity).
  apply update_buffer_errors. intros buf e H.
  apply broadcast_rows_errors in H. subst e. reflexivity.
Qed.

Lemma remove_background_errors method bg data :
  runtime_errors (remove_background method bg data).
Proof.
  unfold remove_background.
  destruct (String.eqb method "sub"); [apply inplace_errors |].
  destruct (String.eqb method "div"); [| apply runtime_errors_ret].
  apply runtime_errors_bind; [apply inplace_errors |].
  intros _. apply update_buffer_errors. discriminate.
Qed.

Lemma edge_detection_errors s v data debug e :
  edge_detection find_edge s v data debug = Raise e ->
  is_config_error e = false.
Proof.
  unfold edge_detection. destruct (find_edge _ _ _ _); [discriminate |].
  intros [= <-]. reflexivity.
Qed.

Lemma process_errors data debug : runtime_errors (process find_edge data debug).
Proof.
  unfold process. apply runtime_errors_bind; [intros w e w' H; discriminate |].
  intros s. destruct (_background s) as [bg|];
    [| apply runtime_errors_raise; reflexivity].
  apply runtime_errors_bind.
  { unfold as_two_dimensional.
    destruct (shape data) as [|n [|k [|? ?]]];
      first [apply runtime_errors_ret | apply runtime_errors_raise; reflexivity]. }
  intros data'. apply runtime_errors_bind; [apply remove_background_errors |].
  intros _. apply runtime_errors_bind; [intros w e w' H; discriminate |].
  intros v. apply runtime_errors_lift. apply edge_detection_errors.
Qed.

Lemma process_hdf5_errors filepath debug :
  runtime_errors (process_hdf5 find_edge filepath debug).
Proof.
  unfold process_hdf5.
  apply runtime_errors_bind; [apply read_bsread_file_errors |].
  intros [[[data pid] dark] imgs].
  apply runtime_errors_bind; [intros w e w' H; discriminate |].
  intros s. apply runtime_errors_bind.
  { destruct (has_strategy s); [apply calibrate_background_errors |].
    destruct (_background s);
      [apply runtime_errors_ret | apply runtime_errors_raise; reflexivity]. }
  intros _. apply runtime_errors_bind; [intros w e w' H; discriminate |].
  intros arr. apply runtime_errors_bind; [apply process_errors |].
  intros out. apply runtime_errors_lift. intros e. unfold finish_output.
  destruct dark as [mask|]; [| discriminate].
  destruct (mask_assign mask nan (edge_pos out)) eqn:E; [discriminate |].
  intros [= <-]. eapply mask_assign_errors. exact E.
Qed.

Lemma map_m_errors {A B} (f : A -> M B) l :
  (forall a, runtime_errors (f a)) -> runtime_errors (map_m f l).
Proof.
  intros Hf. induction l as [|a l IH]; simpl; [apply runtime_errors_ret |].
  apply runtime_errors_bind; [apply Hf |].
  intros y. apply runtime_errors_bind; [exact IH |].
  intros ys. apply runtime_errors_ret.
Qed.

Lemma run_task_errors debug parent chunk e :
  run_task find_edge debug parent chunk = Raise e ->
  is_config_error e = false.
Proof.
  unfold run_task.
  destruct (map_m _ chunk (with_heap [] parent)) as [[outs|e1] w1] eqn:E;
    [discriminate |].
  intros [= <-].
  eapply (map_m_errors (fun f => process_hdf5 find_edge f debug)); [| exact E].
  intros f. apply process_hdf5_errors.
Qed.

(** The pool raises what one of its tasks raised. *)
Lemma pool_map_errors {A B} workers times (func : list A -> result (list B))
    inputs e :
  pool_map workers times func inputs = Raise e ->
  exists chunk, func chunk = Raise e.
Proof.
  unfold pool_map.
  set (size := chunk_size (length inputs) workers).
  set (tasks := get_tasks (length inputs) size inputs).
  generalize (completion_order times (length tasks)).
  generalize (replicate (length inputs) (@None B)).
  intros slots order.
  assert (Hfold : forall state,
             (forall e', state = Raise e' -> exists chunk, func chunk = Raise e') ->
             forall e',
               foldl (fun state i => set_result size state i (func (tasks !!! i)))
                     state order = Raise e' ->
               exists chunk, func chunk = Raise e').
  { induction order as [|i order IH]; intros state Hstate e'; simpl.
    - apply Hstate.
    - apply IH. intros e1. unfold set_result.
      destruct state as [sl|e0].
      + destruct (func (tasks !!! i)) eqn:Ef; [discriminate |].
        intros [= <-]. eexists. exact Ef.
      + intros [= <-]. apply Hstate. reflexivity. }
  destruct (foldl _ _ order) eqn:Efold; [discriminate |].
  intros [= <-]. eapply Hfold; [| exact Efold]. discriminate.
Qed.

Lemma annotate_errors {R} scan_pos i (outs : list (output X R)) e :
  annotate scan_pos i outs = Raise e -> e = IndexError.
Proof.
  revert i e. induction outs as [|o outs IH]; intros i e; simpl;
    [discriminate |].
  destruct (scan_pos !! i); [| intros [= <-]; reflexivity].
  destruct (annotate scan_pos (S i) outs) eqn:E; [discriminate |].
  intros [= <-]. eapply IH. exact E.
Qed.

Lemma read_eco_scan_errors filepath : runtime_errors (_read_eco_scan filepath).
Proof.
  intros w e w'. unfold _read_eco_scan.
  destruct (eco_files w !! filepath) as [eco|]; [| intros [= <- _]; reflexivity].
  destruct (mapM head (scan_files eco)); [discriminate |].
  intros [= <- _]. reflexivity.
Qed.

Lemma process_eco_errors filepath nproc debug times :
  runtime_errors (process_eco find_edge filepath nproc debug times).
Proof.
  unfold process_eco.
  apply runtime_errors_bind; [intros w e w' H; discriminate |].
  intros s. apply runtime_errors_bind.
  { destruct (has_strategy s); [apply runtime_errors_ret |].
    destruct (_background s);
      [apply runtime_errors_ret | apply runtime_errors_raise; reflexivity]. }
  intros _. apply runtime_errors_bind; [apply read_eco_scan_errors |].
  intros [scan_pos files]. apply runtime_errors_bind.
  { destruct (nproc <? 1);
      [apply runtime_errors_raise; reflexivity | apply runtime_errors_ret]. }
  intros _. apply runtime_errors_bind; [intros w e w' H; discriminate |].
  intros parent. apply runtime_errors_bind.
  - apply runtime_errors_lift. intros e H.
    apply pool_map_errors in H as [chunk H].
    eapply run_task_errors. exact H.
  - intros outs. apply runtime_errors_lift. intros e H.
    apply annotate_errors in H. subst e. reflexivity.
Qed.

(** The errors of the time calibration: those of the reader, of [process]
    and of the pool, an index out of the array of edge positions, an
    unknown method, and those of [np.polyfit]. *)
Lemma store_scalar_errors i value a e :
  store_scalar i value a = Raise e -> is_config_error e = false.
Proof.
  unfold store_scalar. destruct (_ <? _)%nat; [| intros [= <-]; reflexivity].
  destruct value as [|v [|? ?]]; try discriminate; intros [= <-]; reflexivity.
Qed.

Lemma avg_wf_loop_errors files :
  forall i a, runtime_errors (avg_wf_loop find_edge i files a).
Proof.
  induction files as [|f files IH]; intros i a; cbn [avg_wf_loop].
  { apply runtime_errors_ret. }
  apply runtime_errors_bind; [apply read_bsread_file_errors |].
  intros [[[data pid] dark] imgs].
  apply runtime_errors_bind; [intros w e w' H; discriminate |].
  intros arr. apply runtime_errors_bind; [apply process_errors |].
  intros results. apply runtime_errors_bind.
  - apply runtime_errors_lift. apply store_scalar_errors.
  - intros a1. apply IH.
Qed.

Lemma avg_edge_arrays_errors nanmean (results : list (output X ndvalue)) e :
  avg_edge_arrays nanmean results = Raise e -> is_config_error e = false.
Proof.
  unfold avg_edge_arrays. destruct (mapM scan_pos_fs results); [discriminate |].
  intros [= <-]. reflexivity.
Qed.

Lemma polyfit_errors lstsq x y e :
  polyfit lstsq x y = Raise e -> is_config_error e = false.
Proof.
  unfold polyfit. destruct (_ =? _)%nat; [intros [= <-]; reflexivity |].
  destruct (negb _); [intros [= <-]; reflexivity |].
  destruct (lstsq x y) as [[slope intercept]|]; [discriminate |].
  intros [= <-]. reflexivity.
Qed.

Lemma scan_arrays_errors nanmean uninitialised filepath method nproc times :
  runtime_errors
    (scan_arrays find_edge nanmean uninitialised filepath method nproc times).
Proof.
  unfold scan_arrays. destruct (String.eqb method "avg_wf").
  - apply runtime_errors_bind; [apply read_eco_scan_errors |].
    intros [scan_pos files]. apply runtime_errors_bind.
    + apply avg_wf_loop_errors.
    + intros a. apply runtime_errors_ret.
  - destruct (String.eqb method "avg_edge").
    + apply runtime_errors_bind; [apply process_eco_errors |].
      intros results. apply runtime_errors_lift.
      apply avg_edge_arrays_errors.
    + apply runtime_errors_raise. reflexivity.
Qed.

Lemma calibrate_time_errors nanmean lstsq uninitialised
    filepath method nproc times :
  runtime_errors
    (calibrate_time find_edge nanmean lstsq uninitialised
       filepath method nproc times).
Proof.
  unfold calibrate_time.
  apply runtime_errors_bind; [intros w e w' H; discriminate |].
  intros s. apply runtime_errors_bind.
  { destruct (_ && _);
      [apply runtime_errors_raise; reflexivity | apply runtime_errors_ret]. }
  intros _. apply runtime_errors_bind; [apply scan_arrays_errors |].
  intros [scan_pos edge_pos_pix]. apply runtime_errors_bind.
  { apply runtime_errors_lift. apply polyfit_errors. }
  intros fit_coeff. apply runtime_errors_bind;
    [intros w e w' H; discriminate |].
  intros s1. apply runtime_errors_bind; [intros w e w' H; discriminate |].
  intros _. apply runtime_errors_ret.
Qed.

(** C7, as the code has it.  A background method outside {div, sub}, an
    edge type outside {falling, rising}, a step length below 4, or an
    events channel together with a dark-shot predicate make [__init__]
    raise a configuration error; the setters of the background method, of
    the edge type and of the step length raise on such a value; a step
    length of 4 is accepted by both; and no processing operation raises a
    configuration error: not [calibrate_background], [process],
    [process_hdf5] or [process_eco], and not [calibrate_time], with
    whichever method. *)
Theorem configuration_errors_eager :
  (forall c r bm sl ev de df rf et,
      truthy_channel ev && truthy_filter df = true \/
      bm ∉ background_methods \/ sl < 4 \/ et ∉ edge_types ->
      exists e, init c r bm sl ev de df rf et = Raise e /\
                is_config_error e = true) /\
  (forall v s, v ∉ background_methods ->
      set_background_method v s = Raise (UnknownBackgroundMethod v)) /\
  (forall v s, v ∉ edge_types ->
      set_edge_type v s = Raise (UnknownEdgeType v)) /\
  (forall v s, v < 4 -> set_step_length v s = Raise StepLengthTooSmall) /\
  (forall s, exists s', set_step_length 4 s = Ok s' /\ step_length s' = 4) /\
  (forall c r bm ev de df rf et,
      truthy_channel ev && truthy_filter df = false ->
      bm ∈ background_methods -> et ∈ edge_types ->
      exists s, init c r bm 4 ev de df rf et = Ok s /\ step_length s = 4) /\
  (forall data dark, runtime_errors (calibrate_background data dark)) /\
  (forall data debug, runtime_errors (process find_edge data debug)) /\
  (forall path debug, runtime_errors (process_hdf5 find_edge path debug)) /\
  (forall path nproc debug times,
      runtime_errors (process_eco find_edge path nproc debug times)) /\
  (forall nanmean lstsq uninitialised path method nproc times,
      runtime_errors
        (calibrate_time find_edge nanmean lstsq uninitialised
           path method nproc times)).
Proof.
  repeat split.
  - intros. apply init_rejects. assumption.
  - intros v s Hv. unfold set_background_method.
    rewrite (str_in_false _ _ Hv). reflexivity.
  - intros v s Hv. unfold set_edge_type.
    rewrite (str_in_false _ _ Hv). reflexivity.
  - intros v s Hv. unfold set_step_length.
    destruct (Z.ltb_spec v 4); [reflexivity | lia].
  - intros s. eexists. split; reflexivity.
  - intros c r bm ev de df rf et Hc Hbm Het.
    destruct (init_accepts c r bm 4 ev de df rf et Hc Hbm ltac:(lia) Het)
      as [s [Hs [Hsl _]]].
    exists s. split; assumption.
  - apply calibrate_background_errors.
  - apply process_errors.
  - apply process_hdf5_errors.
  - apply process_eco_errors.
  - apply calibrate_time_errors.
Qed.

Lemma reference_for_copy sa sb old data dark :
  sa = set_background old sb ->
  (has_strategy sb = false -> old = _background sb) ->
  reference_for sa data dark = reference_for sb data dark.
Proof.
  intros -> Hold. destruct (has_strategy sb) eqn:Hs.
  - apply reference_for_fresh. exact Hs.
  - rewrite (Hold eq_refl), set_background_same. reflexivity.
Qed.

Lemma reference_for_stored s data dark bg :
  has_strategy s = false -> reference_for s data dark = Ok bg ->
  _background s = Some bg.
Proof.
  unfold reference_for. intros ->.
  destruct (_background s); [intros [= <-]; reflexivity | discriminate].
Qed.

(** A recording is processed alike by two copies of the engine, whatever
    their heaps hold: same error, or same result by value. *)
Lemma process_hdf5_copy f d wa wb :
  engine_copy wa wb ->
  match process_hdf5 find_edge f d wa, process_hdf5 find_edge f d wb with
  | (Ok oa, wa'), (Ok ob, wb') =>
      engine_copy wa' wb /\ (exists t, heap wa' = heap wa ++ t) /\
      forall ea eb, pickle (heap wa' ++ ea) oa = pickle (heap wb' ++ eb) ob
  | (Raise ea, _), (Raise eb, _) => ea = eb
  | _, _ => False
  end.
Proof.
  intros (Hfiles & old & Hself & Hold). rewrite !process_hdf5_closed.
  rewrite Hfiles. destruct (h5_files wb !! f) as [h5f|]; [| reflexivity].
  rewrite Hself.
  change (read_recording (set_background old (self wb)) h5f d)
    with (read_recording (self wb) h5f d).
  destruct (read_recording (self wb) h5f d) as [[[[data pid] dark] imgs]|];
    [| reflexivity].
  rewrite (reference_for_copy _ (self wb) old data dark eq_refl Hold).
  destruct (reference_for (self wb) data dark) as [bg|] eqn:Href;
    [| reflexivity].
  cbv zeta. simpl background_method.
  destruct (corrected_buffer _ bg _ _ _) as [b|]; [| reflexivity].
  unfold edge_detection. simpl step_length. simpl edge_type. simpl refinement.
  destruct (find_edge _ _ _ _) as [e|]; [| reflexivity].
  unfold finish_output. simpl edge_pos.
  destruct (match dark with
            | Some mask => mask_assign mask nan (fe_edge_pos e)
            | None => Ok (fe_edge_pos e)
            end) as [ep|]; [| reflexivity].
  split; [| split].
  - split; [exact Hfiles |]. exists (Some bg). split.
    + reflexivity.
    + intros Hs. symmetry. eapply reference_for_stored; eassumption.
  - eexists. reflexivity.
  - intros ea eb. unfold pickle. simpl. f_equal.
    destruct d; simpl; [| reflexivity].
    rewrite !buffer_fresh_app. reflexivity.
Qed.

(** [mapstar]: the results of a chunk are, file by file, those of a fresh
    copy of the engine. *)
Lemma map_m_copy d wb chunk :
  forall wa, engine_copy wa wb ->
  match map_m (fun f => process_hdf5 find_edge f d) chunk wa with
  | (Ok outs, wa') =>
      (exists t, heap wa' = heap wa ++ t) /\
      forall ext, Forall2 (file_result find_edge d wb) chunk
                    (map (pickle (heap wa' ++ ext)) outs)
  | (Raise e, _) =>
      exists f w1, f ∈ chunk /\ process_hdf5 find_edge f d wb = (Raise e, w1)
  end.
Proof.
  induction chunk as [|f chunk IH]; intros wa Hcopy.
  { simpl. split; [exists []; rewrite app_nil_r; reflexivity |].
    intros ext. constructor. }
  cbn [map_m]. unfold bind at 1.
  pose proof (process_hdf5_copy f d wa wb Hcopy) as Hstep.
  destruct (process_hdf5 find_edge f d wa) as [[oa|ea] wa1] eqn:Ea;
    destruct (process_hdf5 find_edge f d wb) as [[ob|eb] wb1] eqn:Eb;
    try contradiction.
  2:{ subst eb. exists f, wb1. split; [apply list_elem_of_here | exact Eb]. }
  destruct Hstep as (Hcopy1 & [t1 Ht1] & Hpick).
  unfold bind at 1. specialize (IH wa1 Hcopy1).
  destruct (map_m _ chunk wa1) as [[outs|e] wa'] eqn:Em.
  - destruct IH as ([t Ht] & Hall). unfold ret. split.
    + exists (t1 ++ t). rewrite Ht, Ht1, app_assoc. reflexivity.
    + intros ext. constructor; [| apply Hall].
      exists ob, wb1. split; [exact Eb |]. cbn [map].
      rewrite Ht, <- app_assoc, (Hpick (t ++ ext) []), app_nil_r. reflexivity.
  - destruct IH as (f' & w1 & Hin & Hrun). exists f', w1.
    split; [apply list_elem_of_further; exact Hin | exact Hrun].
Qed.

Lemma run_task_inv d parent chunk res :
  run_task find_edge d parent chunk = Ok res ->
  Forall2 (file_result find_edge d (with_heap [] parent)) chunk res.
Proof.
  unfold run_task.
  pose proof (map_m_copy d (with_heap [] parent) chunk (with_heap [] parent)
                (engine_copy_refl _)) as H.
  destruct (map_m _ chunk (with_heap [] parent)) as [[outs|e] w']; [| discriminate].
  intros [= <-]. destruct H as [_ H]. specialize (H []).
  rewrite app_nil_r in H. exact H.
Qed.

Lemma run_task_returns d parent chunk :
  Forall (fun f => exists o, file_result find_edge d (with_heap [] parent) f o)
         chunk ->
  exists res, run_task find_edge d parent chunk = Ok res.
Proof.
  intros Hall. unfold run_task.
  pose proof (map_m_copy d (with_heap [] parent) chunk (with_heap [] parent)
                (engine_copy_refl _)) as H.
  destruct (map_m _ chunk (with_heap [] parent)) as [[outs|e] w'].
  - eexists. reflexivity.
  - destruct H as (f & w1 & Hin & Hrun).
    rewrite Forall_forall in Hall.
    destruct (Hall f Hin) as (o & o1 & w2 & Hok & _).
    rewrite Hrun in Hok. discriminate.
Qed.

Lemma file_result_unique d w f o1 o2 :
  file_result find_edge d w f o1 -> file_result find_edge d w f o2 -> o1 = o2.
Proof.
  intros (a & wa & Ha & ->) (b & wb' & Hb & ->).
  rewrite Ha in Hb. injection Hb as <- <-. reflexivity.
Qed.


(** ** [process_eco] *)

Lemma read_eco_scan_world path w r w0 :
  _read_eco_scan path w = (r, w0) -> w0 = w.
Proof.
  unfold _read_eco_scan. destruct (eco_files w !! path) as [eco|].
  - destruct (mapM head (scan_files eco)); intros [= _ <-]; reflexivity.
  - intros [= _ <-]. reflexivity.
Qed.

(** [process_eco] once the reference is known to be there or to come, the
    scan is read and the pool can be made. *)
Lemma process_eco_run path nproc d times w sp files :
  has_strategy (self w) = true \/ is_Some (_background (self w)) ->
  _read_eco_scan path w = (Ok (sp, files), w) -> 1 <= nproc ->
  process_eco find_edge path nproc d times w =
    (match pool_map (Z.to_nat nproc) times (run_task find_edge d w) files with
     | Ok o => annotate sp 0 o
     | Raise e => Raise e
     end, w).
Proof.
  intros Hready Hread Hn. unfold process_eco, bind at 1, get_self.
  unfold bind at 1.
  assert (Hguard :
            (if has_strategy (self w) then ret tt
             else match _background (self w) with
                  | None => raise BackgroundNotFound
                  | Some _ => ret tt
                  end) w = (Ok tt, w)).
  { destruct Hready as [-> | [bg ->]]; [reflexivity |].
    destruct (has_strategy (self w)); reflexivity. }
  rewrite Hguard. unfold bind at 1. rewrite Hread.
  unfold bind at 1. destruct (Z.ltb_spec nproc 1); [lia |].
  unfold ret, bind, lift.
  destruct (pool_map _ _ _ files); reflexivity.
Qed.

Lemma process_eco_inv path nproc d times w outs w' :
  process_eco find_edge path nproc d times w = (Ok outs, w') ->
  (has_strategy (self w) = true \/ is_Some (_background (self w))) /\
  1 <= nproc /\
  exists sp files, _read_eco_scan path w = (Ok (sp, files), w).
Proof.
  unfold process_eco, bind at 1, get_self. unfold bind at 1.
  destruct (has_strategy (self w)) eqn:Hs.
  - unfold ret at 1. unfold bind at 1.
    destruct (_read_eco_scan path w) as [[[sp files]|] w0] eqn:Hread;
      [| discriminate].
    apply read_eco_scan_world in Hread as Hw. subst w0.
    unfold bind at 1. destruct (Z.ltb_spec nproc 1); [discriminate |].
    intros _. split; [left; reflexivity | split; [lia |]]. eauto.
  - destruct (_background (self w)) as [bg|] eqn:Hbg; [| discriminate].
    unfold ret at 1. unfold bind at 1.
    destruct (_read_eco_scan path w) as [[[sp files]|] w0] eqn:Hread;
      [| discriminate].
    apply read_eco_scan_world in Hread as Hw. subst w0.
    unfold bind at 1. destruct (Z.ltb_spec nproc 1); [discriminate |].
    intros _. split; [right; eexists; reflexivity | split; [lia |]]. eauto.
Qed.

(** [process_eco] returns when every recording of the scan is processed
    by a copy of the engine and the scan has a position for each. *)
Lemma process_eco_returns path nproc d times w sp files :
  has_strategy (self w) = true \/ is_Some (_background (self w)) ->
  _read_eco_scan path w = (Ok (sp, files), w) -> 1 <= nproc ->
  (length files <= length sp)%nat ->
  Forall (fun f => exists o, file_result find_edge d (with_heap [] w) f o)
         files ->
  exists outs, process_eco find_edge path nproc d times w = (Ok outs, w).
Proof.
  intros Hready Hread Hn Hlen Hall.
  rewrite (process_eco_run _ _ _ _ _ sp files Hready Hread Hn).
  destruct (pool_map_returns (Z.to_nat nproc) times (run_task find_edge d w)
              _ files (run_task_returns d w) Hall) as [outs0 Hpool].
  rewrite Hpool.
  pose proof (pool_map_inv _ _ _ _ _ _ (run_task_inv d w) Hpool) as Hall0.
  apply Forall2_length in Hall0.
  destruct (annotate_returns sp outs0 0) as [outs ->]; [simpl; lia |].
  exists outs. reflexivity.
Qed.

(** C1. When [process_eco] returns, for whatever number of workers and
    whatever completion times of the tasks, its result has one element per
    entry of the scan; element [i] is what [process_hdf5] returns for the
    recording of entry [i] on a copy of the engine, by value, with the scan
    position of entry [i] stored in it; and it returns that same result for
    every other number of workers (at least 1) and every other completion
    times. *)
Theorem process_eco_order filepath nproc debug times w outs w' :
  process_eco find_edge filepath nproc debug times w = (Ok outs, w') ->
  (exists scan_pos files,
      _read_eco_scan filepath w = (Ok (scan_pos, files), w) /\
      length outs = length files /\
      forall i f, files !! i = Some f ->
        exists o1 w1 p,
          process_hdf5 find_edge f debug (with_heap [] w) = (Ok o1, w1) /\
          scan_pos !! i = Some p /\
          outs !! i = Some (set_scan_pos p (pickle (heap w1) o1))) /\
  (forall nproc' times',
      1 <= nproc' ->
      process_eco find_edge filepath nproc' debug times' w = (Ok outs, w')).
Proof.
  intros Hrun.
  destruct (process_eco_inv _ _ _ _ _ _ _ Hrun)
    as (Hready & Hn & sp & files & Hread).
  rewrite (process_eco_run _ _ _ _ _ sp files Hready Hread Hn) in Hrun.
  destruct (pool_map _ times _ files) as [outs0|] eqn:Hpool; [| discriminate].
  injection Hrun as Hann <-.
  pose proof (pool_map_inv _ _ _ (file_result find_edge debug (with_heap [] w))
                _ _ (run_task_inv debug w) Hpool) as Hall.
  destruct (annotate_inv _ _ _ _ Hann) as [Hlen Hlook].
  split.
  - exists sp, files. split; [exact Hread | split].
    + rewrite Hlen. symmetry. eapply Forall2_length. exact Hall.
    + intros i f Hf.
      destruct (Forall2_lookup_l _ _ _ _ _ Hall Hf)
        as (o & Ho & o1 & w1 & Hfile & ->).
      destruct (Hlook i _ Ho) as (p & Hp & Hres).
      exists o1, w1, p. auto.
  - intros nproc' times' Hn'.
    rewrite (process_eco_run _ _ _ _ _ sp files Hready Hread Hn').
    destruct (pool_map_returns (Z.to_nat nproc') times'
                (run_task find_edge debug w)
                (fun f => exists o, file_result find_edge debug
                                      (with_heap [] w) f o) files)
      as [outs1 Hpool1].
    + apply run_task_returns.
    + apply Forall_lookup_2. intros i f Hf.
      destruct (Forall2_lookup_l _ _ _ _ _ Hall Hf) as (o & _ & Ho).
      exists o. exact Ho.
    + rewrite Hpool1.
      pose proof (pool_map_inv _ _ _ _ _ _ (run_task_inv debug w) Hpool1)
        as Hall1.
      assert (outs1 = outs0) as ->.
      { eapply Forall2_unique; [exact Hall1 | exact Hall |].
        intros f o1 o2. apply file_result_unique. }
      rewrite Hann. reflexivity.
Qed.

End EngineFacts.

(** ** [calibrate_time] *)

Section TimeFacts.
Variable X : Type.
Variable find_edge : ndvalue -> Z -> string -> float -> edges X + Z.
Variable nanmean : list float -> float.
Variable lstsq : list float -> list float -> option (float * float).
Variable uninitialised : nat -> float.

Lemma store_scalar_length i value a a' :
  store_scalar i value a = Ok a' -> length a' = length a.
Proof.
  unfold store_scalar. destruct (_ <? _)%nat; [| discriminate].
  destruct value as [|v [|? ?]]; try discriminate.
  intros [= <-]. apply length_insert.
Qed.

Lemma avg_wf_loop_length files :
  forall i a w a' w',
    avg_wf_loop find_edge i files a w = (Ok a', w') -> length a' = length a.
Proof.
  induction files as [|f files IH]; intros i a w a' w'; simpl.
  { intros [= <- _]. reflexivity. }
  intros H.
  apply bind_ok in H as ([[[data pid] dark] imgs] & w1 & _ & H).
  apply bind_ok in H as (arr & w2 & _ & H).
  apply bind_ok in H as (results & w3 & _ & H).
  apply bind_ok in H as (a1 & w4 & Hstore & H).
  unfold lift in Hstore. injection Hstore as Hstore _.
  apply IH in H. rewrite H. eapply store_scalar_length. exact Hstore.
Qed.






End TimeFacts.

(** ** The properties on the examples *)

Lemma background_removal_elementwise_witness :
  exists corrected,
    process first_pixel ex_array true (ex_heap_world "div") =
      (edge_detection first_pixel (self (ex_heap_world "div"))
         {| vshape := [3%nat; 2%nat]; vdata := corrected |} ex_array true,
       with_heap (<[0%nat := corrected]> (heap (ex_heap_world "div")))
         (ex_heap_world "div")) /\
    length corrected = 6%nat /\
    forall i j, (i < 3)%nat -> (j < 2)%nat ->
      corrected !! (i * 2 + j)%nat =
        Some (PrimFloat.sub
                (PrimFloat.div (concat (rows ex_data) !!! (i * 2 + j)%nat)
                               (ex_reference !!! j)) 1%float).
Proof.
  refine (background_removal_elementwise unit first_pixel ex_array true
            (ex_heap_world "div") ex_reference 3 2 _ _ _ _ _
            (fun x r => PrimFloat.sub (PrimFloat.div x r) 1%float) _);
    [reflexivity | reflexivity | reflexivity | simpl; lia | reflexivity |].
  right. split; reflexivity.
Defined.

Lemma process_mutates_input_witness :
  (forall debug,
      buffer (heap (snd (process first_pixel ex_array debug
                           (ex_heap_world "sub")))) ex_array =
        [8%float; 16%float; (-1)%float; (-2)%float; 1%float; 2%float]) /\
  (forall out w1,
      process first_pixel ex_array true (ex_heap_world "sub") = (Ok out, w1) ->
      raw_input out = Some ex_array /\
      buffer (heap w1) ex_array =
        [8%float; 16%float; (-1)%float; (-2)%float; 1%float; 2%float]) /\
  (forall d1 d2,
      buffer (heap (snd (process first_pixel ex_array d2
                           (snd (process first_pixel ex_array d1
                                   (ex_heap_world "sub")))))) ex_array =
        [6%float; 12%float; (-3)%float; (-6)%float; (-1)%float; (-2)%float]).
Proof.
  apply (process_mutates_input unit first_pixel ex_array (ex_heap_world "sub")
           ex_reference 3 2 PrimFloat.sub);
    [reflexivity | reflexivity | reflexivity | simpl; lia |].
  left. split; reflexivity.
Defined.

Lemma configuration_errors_eager_witness :
  (exists e, init "cam" (None, None) "div" 3 None 21 None 1%float "falling"
             = Raise e /\ is_config_error e = true) /\
  (exists e, init "cam" (None, None) "div" 50 (Some "events"%string) 21
               (Some even_pulses) 1%float "falling"
             = Raise e /\ is_config_error e = true) /\
  (exists s, init "cam" (None, None) "div" 4 None 21 None 1%float "falling"
             = Ok s /\ step_length s = 4).
Proof.
  pose proof (configuration_errors_eager unit first_pixel)
    as [Hrej [_ [_ [_ [_ [Hacc _]]]]]].
  split; [| split].
  - apply Hrej. right. right. left. lia.
  - apply Hrej. left. reflexivity.
  - apply Hacc; [reflexivity | |]; apply str_in_spec; reflexivity.
Defined.

(** C7 fails for an assignment after the construction: the engine below
    holds an events channel and a dark-shot predicate, no error was raised
    when it was configured, and it processes a recording. *)
Lemma strategy_conflict_unchecked :
  init "cam" (None, None) "div" 50 (Some "events"%string) 21 None 1%float
       "falling" = Ok ex_events_encoder /\
  events_channel (set_dark_shot_filter (Some even_pulses) ex_events_encoder)
    = Some "events"%string /\
  truthy_filter
    (dark_shot_filter (set_dark_shot_filter (Some even_pulses) ex_events_encoder))
    = true /\
  exists out,
    fst (process_hdf5 first_pixel "a.h5" false
           (ex_world (set_dark_shot_filter (Some even_pulses) ex_events_encoder)))
    = Ok out.
Proof.
  repeat split. eexists. vm_compute. reflexivity.
Qed.

Lemma dark_shots_have_nan_edge_witness :
  exists mask,
    is_dark ex_output = Some (Some mask) /\
    length mask = length (edge_pos ex_output) /\
    forall i, mask !! i = Some true ->
              edge_pos ex_output !! i = Some PrimFloat.nan.
Proof.
  apply (dark_shots_have_nan_edge unit first_pixel "a.h5" false ex_filter_world
           ex_output
           (snd (process_hdf5 first_pixel "a.h5" false ex_filter_world)));
    [reflexivity | vm_compute; reflexivity].
Defined.

Lemma reference_averages_dark_shots_witness :
  exists h5f data pid mask imgs,
    h5_files ex_events_world !! "a.h5"%string = Some h5f /\
    read_recording (self ex_events_world) h5f false
      = Ok (data, pid, Some mask, imgs) /\
    is_dark ex_events_output = Some (Some mask) /\
    length mask = length (rows data) /\ np_any mask = true /\
    _background
      (self (snd (process_hdf5 first_pixel "a.h5" false ex_events_world))) =
      Some (mean_axis0 {| ncols := ncols data;
                          rows := compress mask (rows data) |}).
Proof.
  apply (reference_averages_dark_shots unit first_pixel "a.h5" false
           ex_events_world ex_events_output);
    [reflexivity | vm_compute; reflexivity].
Defined.

(** C4 fails as stated: in the example the reference is the mean of the two
    dark shots, and not the mean of the two other shots. *)
Lemma dark_shots_are_averaged :
  fst (process_hdf5 first_pixel "a.h5" false ex_filter_world) = Ok ex_output /\
  is_dark ex_output = Some (Some [false; true; false; true]) /\
  rows ex_waveforms !! 1%nat = Some [15%float; 15%float; 15%float] /\
  rows ex_waveforms !! 3%nat = Some [40%float; 40%float; 40%float] /\
  _background
    (self (snd (process_hdf5 first_pixel "a.h5" false ex_filter_world))) =
    Some [27.5%float; 27.5%float; 27.5%float] /\
  mean_axis0 {| ncols := 3;
                rows := compress [false; true; false; true]
                          (rows ex_waveforms) |} =
    [27.5%float; 27.5%float; 27.5%float] /\
  mean_axis0 {| ncols := 3;
                rows := compress [true; false; true; false]
                          (rows ex_waveforms) |} =
    [4%float; 4.5%float; 5%float] /\
  _background
    (self (snd (process_hdf5 first_pixel "a.h5" false ex_filter_world))) <>
    Some (mean_axis0 {| ncols := 3;
                        rows := compress [true; false; true; false]
                                  (rows ex_waveforms) |}).
Proof.
  do 7 (split; [vm_compute; reflexivity |]).
  vm_compute. intros H. discriminate H.
Qed.


Lemma process_eco_order_witness :
  (exists scan_pos files,
      _read_eco_scan "scan.json" ex_filter_world =
        (Ok (scan_pos, files), ex_filter_world) /\
      length ex_scan_outputs = length files /\
      forall i f, files !! i = Some f ->
        exists o1 w1 p,
          process_hdf5 first_pixel f false (with_heap [] ex_filter_world)
            = (Ok o1, w1) /\
          scan_pos !! i = Some p /\
          ex_scan_outputs !! i = Some (set_scan_pos p (pickle (heap w1) o1))) /\
  (forall nproc' times',
      1 <= nproc' ->
      process_eco first_pixel "scan.json" nproc' false times' ex_filter_world
        = (Ok ex_scan_outputs, ex_filter_world)).
Proof.
  apply (process_eco_order unit first_pixel "scan.json" 1 false last_first
           ex_filter_world ex_scan_outputs ex_filter_world).
  vm_compute. reflexivity.
Defined.



(** * Further properties *)

(** ** [process]: what it touches *)

Section ProcessFacts.
Variable X : Type.
Variable find_edge : ndvalue -> Z -> string -> float -> edges X + Z.

Lemma frame_except_refl l w : frame_except l w w.
Proof. repeat split. Qed.

Lemma frame_except_trans l w1 w2 w3 :
  frame_except l w1 w2 -> frame_except l w2 w3 -> frame_except l w1 w3.
Proof.
  intros (Hs & Hh & He & Hl & Hb) (Hs' & Hh' & He' & Hl' & Hb').
  repeat split; try congruence.
  intros j Hj. rewrite Hb', Hb by exact Hj. reflexivity.
Qed.

Lemma frame_except_insert l b w :
  frame_except l w (with_heap (<[l := b]> (heap w)) w).
Proof.
  repeat split; simpl.
  - apply length_insert.
  - intros j Hj. apply list_lookup_insert_ne. congruence.
Qed.

(** An in-place operation touches the buffer of its array and nothing
    else, and nothing at all when it raises. *)
Lemma update_buffer_frame a f w r w' :
  update_buffer a f w = (r, w') ->
  frame_except (base a) w w' /\ (forall e, r = Raise e -> w' = w).
Proof.
  unfold update_buffer. destruct (f (buffer (heap w) a)) as [b|e].
  - intros [= <- <-]. split; [apply frame_except_insert | discriminate].
  - intros [= <- <-]. split; [apply frame_except_refl | reflexivity].
Qed.

Lemma inplace_frame op bg data w r w' :
  inplace op bg data w = (r, w') ->
  frame_except (base data) w w' /\ (forall e, r = Raise e -> w' = w).
Proof.
  unfold inplace. destruct (shape data) as [|n [|k [|? ?]]];
    try (intros [= <- <-]; split; [apply frame_except_refl | reflexivity]).
  apply update_buffer_frame.
Qed.

Lemma remove_background_frame method bg data w r w' :
  remove_background method bg data w = (r, w') ->
  frame_except (base data) w w' /\ (forall e, r = Raise e -> w' = w).
Proof.
  unfold remove_background. destruct (String.eqb method "sub").
  { apply inplace_frame. }
  destruct (String.eqb method "div").
  - unfold bind. destruct (inplace PrimFloat.div bg data w) as [[u|e] w1] eqn:E1.
    + apply inplace_frame in E1 as [F1 _]. unfold inplace_scalar, update_buffer.
      intros [= <- <-]. split; [| discriminate].
      eapply frame_except_trans; [exact F1 | apply frame_except_insert].
    + apply inplace_frame in E1 as [F1 A1]. intros [= <- <-].
      split; [exact F1 | intros; eapply A1; reflexivity].
  - intros [= <- <-]. split; [apply frame_except_refl | reflexivity].
Qed.

Lemma process_frame_cases data debug w r w' :
  process find_edge data debug w = (r, w') ->
  frame_except (base data) w w' /\
  (forall e, r = Raise e -> (forall code, e <> FindEdgeError code) -> w' = w).
Proof.
  unfold process, bind at 1, get_self.
  destruct (_background (self w)) as [bg|];
    [| intros [= <- <-]; split; [apply frame_except_refl | reflexivity]].
  unfold bind at 1.
  assert (Hview : (exists d, as_two_dimensional data w = (Ok d, w) /\
                             base d = base data) \/
                  as_two_dimensional data w = (Raise BadDimension, w)).
  { unfold as_two_dimensional.
    destruct (shape data) as [|n [|k [|? ?]]]; [left | left | left | right];
      try reflexivity; eexists; split; reflexivity. }
  destruct Hview as [(d & -> & Hd) | ->];
    [| intros [= <- <-]; split; [apply frame_except_refl | reflexivity]].
  rewrite <- Hd. unfold bind at 1.
  destruct (remove_background _ bg d w) as [[u|e] w1] eqn:E.
  - apply remove_background_frame in E as [F _].
    unfold bind, load, lift, edge_detection.
    destruct (find_edge _ _ _ _) as [ed|code]; intros [= <- <-];
      (split; [exact F |]); [discriminate |].
    intros e [= <-] Hne. destruct (Hne code). reflexivity.
  - apply remove_background_frame in E as [F A]. intros [= <- <-].
    split; [exact F | intros; eapply A; reflexivity].
Qed.

(** X1. [process] changes nothing but the buffer of the array it is given. *)
Theorem process_frame data debug w :
  let w' := snd (process find_edge data debug w) in
  self w' = self w /\ h5_files w' = h5_files w /\ eco_files w' = eco_files w /\
  length (heap w') = length (heap w) /\
  forall other : ndarray,
    base other <> base data -> buffer (heap w') other = buffer (heap w) other.
Proof.
  destruct (process find_edge data debug w) as [r w'] eqn:E. simpl.
  apply process_frame_cases in E as [(Hs & Hh & He & Hl & Hb) _].
  repeat split; try assumption.
  intros other Hne. unfold buffer.
  rewrite !list_lookup_total_alt, Hb by exact Hne. reflexivity.
Qed.

(** X2. A failure of [process] other than one of [find_edge] leaves
    everything as it was. *)
Theorem process_error_atomic data debug w e w' :
  process find_edge data debug w = (Raise e, w') ->
  (forall code, e <> FindEdgeError code) ->
  w' = w.
Proof.
  intros E Hne. apply process_frame_cases in E as [_ A].
  eapply A; [reflexivity | exact Hne].
Qed.

End ProcessFacts.

Lemma process_error_atomic_witness :
  fst (process first_pixel ex_cube true (ex_heap_world "div"))
    = Raise BadDimension /\
  snd (process first_pixel ex_cube true (ex_heap_world "div"))
    = ex_heap_world "div".
Proof.
  split; [vm_compute; reflexivity |].
  apply (process_error_atomic unit first_pixel ex_cube true
           (ex_heap_world "div") BadDimension).
  - vm_compute. reflexivity.
  - intros code. discriminate.
Defined.

(** ** [process]: what it refuses, and one-dimensional arrays *)

Section ProcessShapes.
Variable X : Type.
Variable find_edge : ndvalue -> Z -> string -> float -> edges X + Z.

Lemma config_ok_method s :
  config_ok s ->
  background_method s = "div"%string \/ background_method s = "sub"%string.
Proof.
  intros [H _]. apply str_in_spec in H. unfold background_methods in H.
  rewrite !elem_of_cons in H. destruct H as [H | [H | H]]; auto.
  apply elem_of_nil in H. destruct H.
Qed.

Lemma broadcast_rows_refused op n k bg buf :
  length bg <> k -> length bg <> 1%nat ->
  broadcast_rows op n k bg buf = Raise BroadcastError.
Proof.
  intros Hk H1. unfold broadcast_rows.
  destruct (Nat.eqb_spec (length bg) k); [contradiction |].
  destruct bg as [|b [|? ?]]; try reflexivity. simpl in H1. lia.
Qed.

(** X3. What [process] refuses, and in which order: a missing reference
    first, then an array of more than two dimensions, then a reference that
    cannot be broadcast over the rows; each time nothing has changed. *)
Theorem process_rejects data debug w :
  config_ok (self w) ->
  (_background (self w) = None ->
   process find_edge data debug w = (Raise BackgroundNotFound, w)) /\
  (forall bg, _background (self w) = Some bg ->
     (3 <= length (shape data))%nat ->
     process find_edge data debug w = (Raise BadDimension, w)) /\
  (forall bg, _background (self w) = Some bg -> shape data = [] ->
     process find_edge data debug w = (Raise BroadcastError, w)) /\
  (forall bg k, _background (self w) = Some bg ->
     shape data = [k] \/ (exists n, shape data = [n; k]) ->
     length bg <> k -> length bg <> 1%nat ->
     process find_edge data debug w = (Raise BroadcastError, w)).
Proof.
  intros Hok. apply config_ok_method in Hok.
  split; [| split; [| split]].
  - intros Hbg. unfold process, bind, get_self. rewrite Hbg. reflexivity.
  - intros bg Hbg Hdim. unfold process, bind at 1, get_self. rewrite Hbg.
    unfold as_two_dimensional.
    destruct (shape data) as [|n [|k [|? ?]]]; simpl in Hdim; try lia.
    reflexivity.
  - intros bg Hbg Hshape. unfold process, bind at 1, get_self. rewrite Hbg.
    unfold as_two_dimensional. rewrite Hshape. unfold bind at 1, ret.
    unfold remove_background, inplace. rewrite Hshape.
    destruct Hok as [Hm | Hm]; rewrite Hm; reflexivity.
  - intros bg k Hbg Hshape Hk H1.
    unfold process, bind at 1, get_self. rewrite Hbg.
    unfold as_two_dimensional.
    destruct Hshape as [Hshape | [n Hshape]]; rewrite Hshape;
      unfold bind at 1, ret; unfold remove_background;
      destruct Hok as [Hm | Hm]; rewrite Hm; simpl String.eqb; cbv iota;
      unfold bind, inplace, update_buffer; rewrite ?Hshape; cbn [shape];
      rewrite broadcast_rows_refused by assumption; reflexivity.
Qed.

Lemma zip_with_take_first {A B C} (f : A -> B -> C) l k :
  zip_with f (take (length k) l) k = zip_with f l k.
Proof.
  revert l. induction k as [|y k IH]; intros [|x l]; simpl; try reflexivity.
  rewrite IH. reflexivity.
Qed.

(** X4. A one-dimensional array is corrected in place too: [process] works
    on a view of it with a new first axis, which shares its buffer, so the
    caller's array holds the corrected waveform afterwards; with [debug],
    [raw_input] is that view, not the array that was passed. *)
Theorem process_vector_in_place (l k : nat) w bg op :
  _background (self w) = Some bg -> length bg = k ->
  (l < length (heap w))%nat ->
  (background_method (self w) = "sub"%string /\ op = PrimFloat.sub \/
   background_method (self w) = "div"%string /\ op = div_corr) ->
  let data := {| base := l; shape := [k] |} in
  let view := {| base := l; shape := [1%nat; k] |} in
  (forall debug,
      buffer (heap (snd (process find_edge data debug w))) data =
        zip_with op (buffer (heap w) data) bg) /\
  (forall out w',
      process find_edge data true w = (Ok out, w') ->
      raw_input out = Some view /\
      buffer (heap w') view = buffer (heap w') data).
Proof.
  intros Hbg Hlen Hl Hop data view.
  assert (Hrow : forall debug,
             process find_edge data debug w =
               (edge_detection find_edge (self w)
                  {| vshape := [1%nat; k];
                     vdata := zip_with op (buffer (heap w) data) bg |}
                  view debug,
                with_heap (<[l := zip_with op (buffer (heap w) data) bg]>
                             (heap w)) w)).
  { intros debug.
    replace (process find_edge data debug w)
      with (process find_edge view debug w)
      by (unfold process, bind, get_self;
          destruct (_background (self w)); reflexivity).
    rewrite (process_two_dimensional X find_edge view debug w bg 1 k op
               Hbg eq_refl Hlen Hl Hop).
    unfold elementwise_rows. simpl. rewrite app_nil_r.
    subst k. rewrite zip_with_take_first. reflexivity. }
  split.
  - intros debug. rewrite Hrow. simpl.
    unfold buffer. simpl. apply list_lookup_total_insert_eq. exact Hl.
  - intros out w'. rewrite Hrow. unfold edge_detection.
    destruct (find_edge _ _ _ _) as [e|c]; [| discriminate].
    intros [= <- <-]. split; reflexivity.
Qed.

End ProcessShapes.

Lemma process_rejects_witness :
  process first_pixel ex_wide false (ex_heap_world "div") =
    (Raise BroadcastError, ex_heap_world "div").
Proof.
  apply (process_rejects unit first_pixel ex_wide false (ex_heap_world "div"))
    with (bg := ex_reference) (k := 3%nat).
  - repeat split; vm_compute; try reflexivity; discriminate.
  - reflexivity.
  - right. exists 2%nat. reflexivity.
  - simpl. lia.
  - simpl. lia.
Defined.

Lemma process_vector_in_place_witness :
  (forall debug,
      buffer (heap (snd (process first_pixel ex_vector debug ex_vector_world)))
        ex_vector = [8%float; 16%float]) /\
  (forall out w',
      process first_pixel ex_vector true ex_vector_world = (Ok out, w') ->
      raw_input out = Some {| base := 0%nat; shape := [1%nat; 2%nat] |} /\
      buffer (heap w') {| base := 0%nat; shape := [1%nat; 2%nat] |} =
        buffer (heap w') ex_vector).
Proof.
  apply (process_vector_in_place unit first_pixel 0 2 ex_vector_world
           ex_reference PrimFloat.sub).
  - reflexivity.
  - reflexivity.
  - simpl. lia.
  - left. split; reflexivity.
Defined.

(** ** The reader: which shots are kept *)

Lemma compress_nonzero (l : list Z) :
  compress (nonzero l) l = filter (fun v => v <> 0) l.
Proof.
  induction l as [|v l IH]; [reflexivity |].
  simpl. rewrite filter_cons.
  destruct (Z.eqb_spec v 0) as [Hv | Hv]; simpl; case_decide; try contradiction.
  - exact IH.
  - rewrite IH. reflexivity.
Qed.

Lemma compress_map {A B} (f : A -> B) mask xs :
  compress mask (map f xs) = map f (compress mask xs).
Proof.
  revert xs. induction mask as [|b mask IH]; intros [|x xs]; simpl;
    try reflexivity.
  destruct b; simpl; rewrite IH; reflexivity.
Qed.

Lemma compress_Forall {A} (P : A -> Prop) mask xs :
  Forall P xs -> Forall P (compress mask xs).
Proof.
  intros H. revert mask. induction H as [|x xs Hx _ IH]; intros [|b mask];
    simpl; try constructor.
  destruct b; [constructor; [exact Hx |] |]; apply IH.
Qed.

Lemma first_index_lookup v l : v ∈ l -> l !! first_index v l = Some v.
Proof.
  intros Hv. unfold first_index.
  destruct (list_find_elem_of (fun x => x = v) l v Hv eq_refl) as [[i x] Hf].
  rewrite Hf. apply list_find_Some in Hf as (Hl & -> & _). exact Hl.
Qed.

Lemma take_indices_inv {A} idx (xs l : list A) :
  take_indices idx xs = Ok l -> Forall2 (fun i x => xs !! i = Some x) idx l.
Proof.
  revert l. induction idx as [|i idx IH]; intros l; simpl.
  - intros [= <-]. constructor.
  - destruct (xs !! i) as [x|] eqn:Hx; [| discriminate].
    destruct (take_indices idx xs) as [l'|e]; [| discriminate].
    intros [= <-]. constructor; [exact Hx | apply IH; reflexivity].
Qed.

Lemma event_flags_inv g idx ev l :
  event_flags g idx ev = Ok l ->
  Forall2 (fun i (b : bool) =>
             exists row v, ev_data g !! i = Some row /\ row !! ev = Some v /\
                           b = negb (v =? 0)) idx l.
Proof.
  revert l. induction idx as [|i idx IH]; intros l; simpl.
  - intros [= <-]. constructor.
  - destruct (ev_data g !! i) as [row|] eqn:Hrow; [| discriminate].
    destruct (event_flags g idx ev) as [l'|e]; [| discriminate].
    destruct (row !! ev) as [v|] eqn:Hv; [| discriminate].
    intros [= <-]. constructor; [eauto | apply IH; reflexivity].
Qed.

(** The positions that are left once the entries of pulse id 0 are
    dropped, whether or not there is one to drop. *)
Lemma kept_positions {A} (f : Z -> A) (common : list Z) :
  (if np_any (map (fun v => v =? 0) common)
   then compress (map negb (map (fun v => v =? 0) common)) (map f common)
   else map f common) = map f (filter (fun v => v <> 0) common).
Proof.
  assert (Hc : compress (map negb (map (fun v => v =? 0) common)) (map f common)
               = map f (filter (fun v => v <> 0) common)).
  { rewrite compress_map. f_equal. rewrite <- compress_nonzero.
    unfold nonzero. rewrite map_map. reflexivity. }
  destruct (np_any _) eqn:Hany; [exact Hc |]. clear Hc.
  f_equal. symmetry. rewrite <- compress_nonzero.
  unfold np_any in Hany. induction common as [|v l IH]; [reflexivity |].
  simpl in Hany. apply orb_false_elim in Hany as [Hv Hl].
  unfold id in Hv. simpl. rewrite Hv. simpl. f_equal. apply IH. exact Hl.
Qed.

Lemma StronglySorted_filter_keep {A} (R : relation A) (P : A -> Prop)
    `{forall x, Decision (P x)} l :
  StronglySorted R l -> StronglySorted R (filter P l).
Proof.
  induction 1 as [|x l Hl IH Hx]; [constructor |].
  rewrite filter_cons. case_decide; [| exact IH].
  constructor; [exact IH |].
  apply Forall_forall. intros y Hy. apply list_elem_of_filter in Hy as [_ Hy].
  rewrite Forall_forall in Hx. apply Hx. exact Hy.
Qed.

Lemma StronglySorted_strict (l : list Z) :
  StronglySorted Z.le l -> NoDup l -> StronglySorted Z.lt l.
Proof.
  induction 1 as [|x l Hl IH Hx]; intros Hnd; [constructor |].
  apply NoDup_cons in Hnd as [Hx' Hnd].
  constructor; [apply IH; exact Hnd |].
  apply Forall_forall. intros y Hy. rewrite Forall_forall in Hx.
  specialize (Hx y Hy). assert (x <> y) by (intros ->; contradiction). lia.
Qed.

(** The pulse ids common to the two groups, as [np.intersect1d] returns
    them and with 0 dropped: increasing, and exactly the non-zero pulse ids
    that are in both groups. *)
Lemma common_pulse_ids (a b : list Z) :
  let kept := filter (fun v => v <> 0)
                (filter (fun v => v ∈ b) (merge_sort Z.le (remove_dups a))) in
  StronglySorted Z.lt kept /\
  forall v, v ∈ kept <-> v <> 0 /\ v ∈ a /\ v ∈ b.
Proof.
  intros kept. split.
  - apply StronglySorted_filter_keep, StronglySorted_filter_keep.
    apply StronglySorted_strict.
    + apply StronglySorted_merge_sort; [intros x y z; lia | intros x y; lia].
    + rewrite merge_sort_Permutation. apply NoDup_remove_dups.
  - intros v. unfold kept. rewrite !list_elem_of_filter.
    rewrite merge_sort_Permutation, elem_of_remove_dups. tauto.
Qed.

Lemma take_first_indices (a vs l : list Z) :
  Forall (fun v => v ∈ a) vs ->
  take_indices (map (fun v => first_index v a) vs) a = Ok l -> l = vs.
Proof.
  intros Hin Htake. apply take_indices_inv in Htake.
  apply Forall2_fmap_l in Htake. revert l Htake.
  induction Hin as [|v vs Hv _ IH]; intros l Htake.
  - apply Forall2_nil_inv_l in Htake. exact Htake.
  - apply Forall2_cons_inv_l in Htake as (x & l' & Hx & Hl & ->).
    simpl in Hx. rewrite (first_index_lookup v a Hv) in Hx.
    injection Hx as <-. f_equal. apply IH. exact Hl.
Qed.

(** X5. Without an events channel the reader keeps the shots whose pulse id
    is not 0, in the order of the file: their pulse ids, the waveform of
    each (its image cut to the region of interest and averaged over its
    rows) and, with a predicate, the flags that the predicate gives to
    all the pulse ids of the file, taken at the kept shots. *)
Theorem read_recording_nonzero_shots s h5f debug g data pid dark imgs :
  truthy_channel (events_channel s) = false ->
  image_groups h5f !! path_of h5f (channel s) = Some g ->
  read_recording s h5f debug = Ok (data, pid, dark, imgs) ->
  let kept := nonzero (img_pulse_id g) in
  pid = filter (fun v => v <> 0) (img_pulse_id g) /\
  rows data =
    map (fun img => mean_axis0 {| ncols := img_width g;
                                  rows := crop (roi s) img |})
        (compress kept (img_data g)) /\
  dark = (fun f => compress kept (f (img_pulse_id g))) <$> dark_shot_filter s.
Proof.
  intros Hev Hg. unfold read_recording, shot_selection. rewrite Hg, Hev.
  assert (Hw : forall dark0,
             match waveforms s g (Mask (nonzero (img_pulse_id g))) with
             | Ok (data0, pid0, images0) =>
                 Ok (data0, pid0, dark0,
                     if debug then Some images0 else None)
             | Raise e => Raise e
             end = Ok (data, pid, dark, imgs) ->
             pid = filter (fun v => v <> 0) (img_pulse_id g) /\
             rows data =
               map (fun img => mean_axis0 {| ncols := img_width g;
                                             rows := crop (roi s) img |})
                   (compress (nonzero (img_pulse_id g)) (img_data g)) /\
             dark = dark0).
  { intros dark0. unfold waveforms, select.
    destruct (mask_select _ (img_pulse_id g)) as [pid0|] eqn:Ep;
      [| discriminate].
    destruct (mask_select _ (img_data g)) as [imgs0|] eqn:Ei; [| discriminate].
    apply mask_select_inv in Ep as [_ ->]. apply mask_select_inv in Ei as [_ ->].
    intros [= <- <- <- _]. simpl.
    rewrite compress_nonzero, map_map. auto. }
  destruct (dark_shot_filter s) as [f|]; simpl.
  - destruct (mask_select _ (f (img_pulse_id g))) as [flags|] eqn:Ef;
      [| discriminate].
    apply mask_select_inv in Ef as [_ ->]. apply Hw.
  - apply Hw.
Qed.

(** X6. With an events channel, shots are matched by pulse id and not by
    position: the pulse ids that are returned are the non-zero pulse ids
    that the two groups share, in increasing order and each once; the
    waveform of each comes from the image where that pulse id first occurs
    in the camera group, and its dark flag from the row where it first
    occurs in the events group. *)
Theorem read_recording_events s h5f debug g ev data pid dark imgs :
  truthy_channel (events_channel s) = true ->
  image_groups h5f !! path_of h5f (channel s) = Some g ->
  event_groups h5f !! path_of h5f (default EmptyString (events_channel s))
    = Some ev ->
  read_recording s h5f debug = Ok (data, pid, dark, imgs) ->
  StronglySorted Z.lt pid /\
  (forall v, v ∈ pid <-> v <> 0 /\ v ∈ img_pulse_id g /\ v ∈ ev_pulse_id ev) /\
  exists mask, dark = Some mask /\
    forall j v, pid !! j = Some v ->
      exists img row flag,
        img_data g !! first_index v (img_pulse_id g) = Some img /\
        rows data !! j =
          Some (mean_axis0 {| ncols := img_width g;
                              rows := crop (roi s) img |}) /\
        ev_data ev !! first_index v (ev_pulse_id ev) = Some row /\
        row !! dark_shot_event s = Some flag /\
        mask !! j = Some (negb (flag =? 0)).
Proof.
  intros Ht Hg Hev. unfold read_recording, shot_selection.
  rewrite Hg, Ht, Hev. unfold events_selection, intersect1d.
  rewrite !kept_positions.
  set (kept := filter (fun v => v <> 0) _).
  destruct (common_pulse_ids (img_pulse_id g) (ev_pulse_id ev))
    as [Hsorted Hmem]. fold kept in Hsorted, Hmem.
  destruct (event_flags ev _ _) as [flags|] eqn:Ef; [| discriminate].
  unfold waveforms, select.
  destruct (take_indices _ (img_pulse_id g)) as [pid0|] eqn:Ep;
    [| discriminate].
  destruct (take_indices _ (img_data g)) as [imgs0|] eqn:Ei; [| discriminate].
  intros [= <- <- <- _].
  apply take_first_indices in Ep;
    [| apply Forall_forall; intros v Hv; apply Hmem in Hv; tauto].
  subst pid0. split; [exact Hsorted | split; [exact Hmem |]].
  exists flags. split; [reflexivity |]. intros j v Hj.
  apply take_indices_inv, Forall2_fmap_l in Ei.
  apply event_flags_inv, Forall2_fmap_l in Ef.
  destruct (Forall2_lookup_l _ _ _ _ _ Ei Hj) as (img & Himg & Hi).
  destruct (Forall2_lookup_l _ _ _ _ _ Ef Hj)
    as (b & Hb & row & flag & Hrow & Hflag & ->).
  simpl in Hi. exists img, row, flag. repeat split; try assumption.
  simpl. rewrite map_map, list_lookup_fmap, Himg. reflexivity.
Qed.

(** ** The reader: the shape of what it returns *)

Lemma select_Forall {A} (P : A -> Prop) sel (xs ys : list A) :
  select sel xs = Ok ys -> Forall P xs -> Forall P ys.
Proof.
  destruct sel as [idx|mask]; simpl; intros Hsel Hxs.
  - apply take_indices_inv in Hsel. apply Forall_lookup_2. intros j y Hy.
    destruct (Forall2_lookup_r _ _ _ _ _ Hsel Hy) as (i & _ & Hi).
    eapply Forall_lookup_1; eassumption.
  - apply mask_select_inv in Hsel as [_ ->]. apply compress_Forall. exact Hxs.
Qed.

Lemma length_fold_zip_with {A} (f : A -> A -> A) k rs : forall r,
  length r = k -> Forall (fun row => length row = k) rs ->
  length (fold_left (zip_with f) rs r) = k.
Proof.
  induction rs as [|r' rs IH]; intros r Hr Hrs; [exact Hr |].
  apply Forall_cons in Hrs as [Hr' Hrs]. simpl. apply IH; [| exact Hrs].
  rewrite length_zip_with. lia.
Qed.

Lemma length_mean_axis0 k rs :
  Forall (fun row => length row = k) rs ->
  length (mean_axis0 {| ncols := k; rows := rs |}) = k.
Proof.
  intros Hrs. unfold mean_axis0, col_sum. rewrite length_map. simpl.
  destruct Hrs as [|r rs Hr Hrs]; [apply length_replicate |].
  apply length_fold_zip_with; assumption.
Qed.

Lemma crop_Forall k r img :
  Forall (fun row => length row = k) img ->
  Forall (fun row => length row = k) (crop r img).
Proof.
  intros H. unfold crop, py_slice. apply Forall_fmap.
  apply Forall_take, Forall_drop.
  eapply Forall_impl; [exact H |]. intros row Hrow. simpl.
  rewrite length_map. exact Hrow.
Qed.

Lemma length_concat_rows {A} k (rs : list (list A)) :
  Forall (fun row => length row = k) rs ->
  length (concat rs) = (length rs * k)%nat.
Proof.
  induction 1 as [|r rs Hr _ IH]; [reflexivity |].
  simpl. rewrite length_app, IH, Hr. reflexivity.
Qed.

(** The waveforms of a recording whose images have [img_width] pixels in
    every row have [img_width] values each. *)
Lemma read_recording_rows s h5f debug g data pid dark imgs :
  image_groups h5f !! path_of h5f (channel s) = Some g -> images_ok g ->
  read_recording s h5f debug = Ok (data, pid, dark, imgs) ->
  ncols data = img_width g /\
  Forall (fun row => length row = img_width g) (rows data).
Proof.
  intros Hg Hok. unfold read_recording. rewrite Hg.
  destruct (shot_selection s h5f (img_pulse_id g)) as [[index dark']|];
    [| discriminate].
  unfold waveforms.
  destruct (select index (img_pulse_id g)) as [pid'|]; [| discriminate].
  destruct (select index (img_data g)) as [imgs'|] eqn:Ei; [| discriminate].
  intros [= <- <- <- _]. simpl. split; [reflexivity |].
  apply (select_Forall _ _ _ _ Ei) in Hok.
  rewrite map_map. apply Forall_fmap.
  eapply Forall_impl; [exact Hok |]. intros img Himg. simpl.
  apply length_mean_axis0, crop_Forall. exact Himg.
Qed.

(** X7. What the reader returns is rectangular: one pulse id and, with a
    strategy, one dark flag per waveform, and as many values in every
    waveform as the images of the recording have pixels in a row. *)
Theorem read_recording_rectangular s h5f debug g data pid dark imgs :
  image_groups h5f !! path_of h5f (channel s) = Some g -> images_ok g ->
  read_recording s h5f debug = Ok (data, pid, dark, imgs) ->
  length pid = length (rows data) /\
  (forall mask, dark = Some mask -> length mask = length (rows data)) /\
  ncols data = img_width g /\
  Forall (fun row => length row = ncols data) (rows data).
Proof.
  intros Hg Hok Hread.
  destruct (read_recording_lengths _ _ _ _ _ _ _ Hread) as [Hp Hd].
  destruct (read_recording_rows _ _ _ _ _ _ _ _ Hg Hok Hread) as [Hk Hr].
  rewrite Hk. auto.
Qed.

Section HDF5Facts.
Variable X : Type.
Variable find_edge : ndvalue -> Z -> string -> float -> edges X + Z.

Lemma length_corrected_buffer method bg n k buf b :
  length bg = k -> length buf = (n * k)%nat ->
  corrected_buffer method bg n k buf = Ok b -> length b = (n * k)%nat.
Proof.
  intros Hbg Hbuf. unfold corrected_buffer, broadcast_rows.
  rewrite Hbg, Nat.eqb_refl.
  destruct (String.eqb method "sub");
    [intros [= <-]; apply length_elementwise_rows; assumption |].
  destruct (String.eqb method "div");
    [intros [= <-]; rewrite length_map;
     apply length_elementwise_rows; assumption |].
  intros [= <-]. exact Hbuf.
Qed.

Lemma corrected_buffer_returns method bg n k buf :
  length bg = k -> exists b, corrected_buffer method bg n k buf = Ok b.
Proof.
  intros Hbg. unfold corrected_buffer, broadcast_rows.
  rewrite Hbg, Nat.eqb_refl.
  destruct (String.eqb method "sub"); [eauto |].
  destruct (String.eqb method "div"); eauto.
Qed.

(** X8. With a strategy, a recording of well-formed images with a dark shot
    is always processed as far as [find_edge]: the reference has the
    length of the waveforms, so the correction is never refused; and
    [process_hdf5] returns as soon as [find_edge] returns one edge position
    per shot. *)
Theorem process_hdf5_returns f d w h5f g data pid mask imgs :
  has_strategy (self w) = true ->
  h5_files w !! f = Some h5f ->
  image_groups h5f !! path_of h5f (channel (self w)) = Some g -> images_ok g ->
  read_recording (self w) h5f d = Ok (data, pid, Some mask, imgs) ->
  np_any mask = true ->
  let n := length (rows data) in
  let k := ncols data in
  let ref := mean_axis0 {| ncols := k; rows := compress mask (rows data) |} in
  exists b,
    corrected_buffer (background_method (self w)) ref n k (concat (rows data))
      = Ok b /\
    length b = (n * k)%nat /\
    (forall e,
        find_edge {| vshape := [n; k]; vdata := b |} (step_length (self w))
          (edge_type (self w)) (refinement (self w)) = inl e ->
        length (fe_edge_pos e) = n ->
        exists out w', process_hdf5 find_edge f d w = (Ok out, w')) /\
    (forall code,
        find_edge {| vshape := [n; k]; vdata := b |} (step_length (self w))
          (edge_type (self w)) (refinement (self w)) = inr code ->
        fst (process_hdf5 find_edge f d w) = Raise (FindEdgeError code)).
Proof.
  intros Hs Hf Hg Hok Hread Hany n k ref.
  destruct (read_recording_lengths _ _ _ _ _ _ _ Hread) as [_ Hmask].
  specialize (Hmask mask eq_refl).
  destruct (read_recording_rows _ _ _ _ _ _ _ _ Hg Hok Hread) as [Hk Hrows].
  assert (Href : length ref = k).
  { unfold ref, k. rewrite Hk. apply length_mean_axis0.
    apply compress_Forall. exact Hrows. }
  assert (Hbuf : length (concat (rows data)) = (n * k)%nat).
  { unfold n, k. rewrite Hk. apply length_concat_rows. exact Hrows. }
  destruct (corrected_buffer_returns (background_method (self w)) ref n k
              (concat (rows data)) Href) as [b Hb].
  exists b. split; [exact Hb |]. split.
  { eapply length_corrected_buffer; eassumption. }
  assert (Hrun : process_hdf5 find_edge f d w =
            (match edge_detection find_edge (self w)
                     {| vshape := [n; k]; vdata := b |}
                     {| base := length (heap w); shape := [n; k] |} d with
             | Ok out => finish_output out pid (Some mask) imgs
             | Raise e => Raise e
             end,
             with_heap (heap w ++ [b])
               (with_self (set_background (Some ref) (self w)) w))).
  { rewrite process_hdf5_closed, Hf, Hread. unfold reference_for, dark_rows.
    rewrite Hs, Hany, mask_select_ok by exact Hmask.
    cbv zeta. simpl background_method. fold n k ref. rewrite Hb.
    reflexivity. }
  split.
  - intros e He Hlen. rewrite Hrun. unfold edge_detection.
    simpl step_length. simpl edge_type. simpl refinement. rewrite He.
    unfold finish_output, mask_assign. simpl edge_pos.
    rewrite Hmask, Hlen. fold n. rewrite Nat.eqb_refl. eauto.
  - intros code He. rewrite Hrun. unfold edge_detection.
    simpl step_length. simpl edge_type. simpl refinement. rewrite He.
    reflexivity.
Qed.

End HDF5Facts.

Lemma read_recording_nonzero_shots_witness :
  [1; 2; 3; 4] = filter (fun v => v <> 0) (img_pulse_id ex_camera) /\
  rows ex_waveforms =
    map (fun img => mean_axis0 {| ncols := img_width ex_camera;
                                  rows := crop (roi (self ex_filter_world)) img |})
        (compress (nonzero (img_pulse_id ex_camera)) (img_data ex_camera)) /\
  Some [false; true; false; true] =
    (fun f => compress (nonzero (img_pulse_id ex_camera))
                (f (img_pulse_id ex_camera)))
      <$> dark_shot_filter (self ex_filter_world).
Proof.
  apply (read_recording_nonzero_shots (self ex_filter_world) (ex_recording 1)
           false ex_camera ex_waveforms [1; 2; 3; 4]
           (Some [false; true; false; true]) None);
    vm_compute; reflexivity.
Defined.

Lemma read_recording_events_witness :
  StronglySorted Z.lt [1; 2; 3; 4] /\
  (forall v, v ∈ [1; 2; 3; 4] <->
             v <> 0 /\ v ∈ img_pulse_id ex_camera /\ v ∈ ev_pulse_id ex_events) /\
  exists mask, Some [false; true; false; true] = Some mask /\
    forall j v, [1; 2; 3; 4] !! j = Some v ->
      exists img row flag,
        img_data ex_camera !! first_index v (img_pulse_id ex_camera) = Some img /\
        rows ex_waveforms !! j =
          Some (mean_axis0 {| ncols := img_width ex_camera;
                              rows := crop (roi (self ex_events_world)) img |}) /\
        ev_data ex_events !! first_index v (ev_pulse_id ex_events) = Some row /\
        row !! dark_shot_event (self ex_events_world) = Some flag /\
        mask !! j = Some (negb (flag =? 0)).
Proof.
  apply (read_recording_events (self ex_events_world) (ex_recording 1)
           false ex_camera ex_events ex_waveforms [1; 2; 3; 4]
           (Some [false; true; false; true]) None);
    vm_compute; reflexivity.
Defined.

Lemma read_recording_rectangular_witness :
  length [1; 2; 3; 4] = length (rows ex_waveforms) /\
  (forall mask, Some [false; true; false; true] = Some mask ->
                length mask = length (rows ex_waveforms)) /\
  ncols ex_waveforms = img_width ex_camera /\
  Forall (fun row => length row = ncols ex_waveforms) (rows ex_waveforms).
Proof.
  apply (read_recording_rectangular (self ex_filter_world) (ex_recording 1)
           false ex_camera ex_waveforms [1; 2; 3; 4]
           (Some [false; true; false; true]) None).
  - vm_compute. reflexivity.
  - repeat constructor.
  - vm_compute. reflexivity.
Defined.

Lemma process_hdf5_returns_witness :
  exists b,
    corrected_buffer (background_method (self ex_filter_world))
      (mean_axis0 {| ncols := ncols ex_waveforms;
                     rows := compress [false; true; false; true]
                               (rows ex_waveforms) |})
      (length (rows ex_waveforms)) (ncols ex_waveforms)
      (concat (rows ex_waveforms)) = Ok b /\
    length b = (length (rows ex_waveforms) * ncols ex_waveforms)%nat /\
    (forall e,
        first_pixel {| vshape := [length (rows ex_waveforms);
                                  ncols ex_waveforms]; vdata := b |}
          (step_length (self ex_filter_world))
          (edge_type (self ex_filter_world))
          (refinement (self ex_filter_world)) = inl e ->
        length (fe_edge_pos e) = length (rows ex_waveforms) ->
        exists out w',
          process_hdf5 first_pixel "a.h5" false ex_filter_world = (Ok out, w')) /\
    (forall code,
        first_pixel {| vshape := [length (rows ex_waveforms);
                                  ncols ex_waveforms]; vdata := b |}
          (step_length (self ex_filter_world))
          (edge_type (self ex_filter_world))
          (refinement (self ex_filter_world)) = inr code ->
        fst (process_hdf5 first_pixel "a.h5" false ex_filter_world) =
          Raise (FindEdgeError code)).
Proof.
  apply (process_hdf5_returns unit first_pixel "a.h5" false ex_filter_world
           (ex_recording 1) ex_camera ex_waveforms [1; 2; 3; 4]
           [false; true; false; true] None).
  - reflexivity.
  - vm_compute. reflexivity.
  - vm_compute. reflexivity.
  - repeat constructor.
  - vm_compute. reflexivity.
  - reflexivity.
Defined.

(** ** What the operations leave as it was *)

Section Frames.
Variable X : Type.
Variable find_edge : ndvalue -> Z -> string -> float -> edges X + Z.
Variable nanmean : list float -> float.
Variable lstsq : list float -> list float -> option (float * float).
Variable uninitialised : nat -> float.

Lemma read_recording_debug s h5f :
  match read_recording s h5f true, read_recording s h5f false with
  | Ok (data1, pid1, dark1, imgs1), Ok (data2, pid2, dark2, imgs2) =>
      data1 = data2 /\ pid1 = pid2 /\ dark1 = dark2 /\
      imgs2 = None /\ exists images_, imgs1 = Some images_
  | Raise e1, Raise e2 => e1 = e2
  | _, _ => False
  end.
Proof.
  unfold read_recording.
  destruct (image_groups h5f !! _) as [g|]; [| reflexivity].
  destruct (shot_selection s h5f (img_pulse_id g)) as [[index dark]|];
    [| reflexivity].
  destruct (waveforms s g index) as [[[data pid] images_]|]; [| reflexivity].
  eauto 10.
Qed.

(** X9. [debug] only adds to the result of [process_hdf5]: with and without
    it the call fails alike or returns alike, with the same edge positions,
    pulse ids and dark mask and the same engine afterwards; with it the
    result holds, under [raw_input], a new array and, under [images], the
    images; without it, no [raw_input] and [None] for the images. *)
Theorem process_hdf5_debug_only_adds f w :
  match process_hdf5 find_edge f true w, process_hdf5 find_edge f false w with
  | (Ok o1, w1), (Ok o2, w2) =>
      edge_pos o1 = edge_pos o2 /\ extra o1 = extra o2 /\
      pulse_id o1 = pulse_id o2 /\ is_dark o1 = is_dark o2 /\ w1 = w2 /\
      raw_input o2 = None /\ images o2 = Some None /\
      (exists a, raw_input o1 = Some a /\ base a = length (heap w)) /\
      (exists images_, images o1 = Some (Some images_))
  | (Raise e1, w1), (Raise e2, w2) => e1 = e2 /\ w1 = w2
  | _, _ => False
  end.
Proof.
  rewrite !process_hdf5_closed.
  destruct (h5_files w !! f) as [h5f|]; [| split; reflexivity].
  pose proof (read_recording_debug (self w) h5f) as Hr.
  destruct (read_recording (self w) h5f true) as [[[[data1 pid1] dark1] imgs1]|],
           (read_recording (self w) h5f false) as [[[[data2 pid2] dark2] imgs2]|];
    try (destruct Hr; fail).
  2:{ subst. split; reflexivity. }
  destruct Hr as (<- & <- & <- & -> & images_ & ->).
  destruct (reference_for (self w) data1 dark1) as [bg|]; [| split; reflexivity].
  cbv zeta. destruct (corrected_buffer _ bg _ _ _) as [b|]; [| split; reflexivity].
  unfold edge_detection. destruct (find_edge _ _ _ _) as [e|c];
    [| split; reflexivity].
  unfold finish_output. simpl edge_pos.
  destruct (match dark1 with Some _ => _ | None => _ end) as [ep|];
    [| split; reflexivity].
  simpl. repeat split; eauto.
Qed.

(** X10. [process_hdf5] changes no array that existed before the call: it
    works on one new array; it writes no file; and of the engine it changes
    at most the stored reference, and not even that without a strategy. *)
Theorem process_hdf5_frame f d w :
  let w' := snd (process_hdf5 find_edge f d w) in
  (exists new, heap w' = heap w ++ new /\ (length new <= 1)%nat) /\
  h5_files w' = h5_files w /\ eco_files w' = eco_files w /\
  (exists ref, self w' = set_background ref (self w)) /\
  (has_strategy (self w) = false -> self w' = self w).
Proof.
  rewrite process_hdf5_closed.
  assert (Hsame : (exists new, heap w = heap w ++ new /\ (length new <= 1)%nat) /\
                  h5_files w = h5_files w /\ eco_files w = eco_files w /\
                  (exists ref, self w = set_background ref (self w)) /\
                  (has_strategy (self w) = false -> self w = self w)).
  { repeat split; [exists []; rewrite app_nil_r; simpl; auto |
                   exists (_background (self w)); symmetry;
                   apply set_background_same]. }
  destruct (h5_files w !! f) as [h5f|]; [| exact Hsame].
  destruct (read_recording (self w) h5f d) as [[[[data pid] dark] imgs]|];
    [| exact Hsame].
  destruct (reference_for (self w) data dark) as [bg|] eqn:Href; [| exact Hsame].
  assert (Hstored : has_strategy (self w) = false ->
                    set_background (Some bg) (self w) = self w).
  { intros Hs. apply set_background_id.
    eapply reference_for_stored; eassumption. }
  cbv zeta. destruct (corrected_buffer _ bg _ _ _) as [b|]; simpl;
    (repeat split; [eexists; split; [reflexivity | simpl; lia] | eauto | exact Hstored]).
Qed.

(** [process_eco] returns the world in which it was called. *)
Lemma process_eco_world path nproc d times w :
  snd (process_eco find_edge path nproc d times w) = w.
Proof.
  unfold process_eco, bind at 1, get_self. unfold bind at 1.
  assert (Hguard : forall (m : M unit),
             (m = ret tt \/ m = raise BackgroundNotFound) ->
             m w = (Ok tt, w) \/ m w = (Raise BackgroundNotFound, w)).
  { intros m [-> | ->]; auto. }
  destruct (Hguard (if has_strategy (self w) then ret tt
                    else match _background (self w) with
                         | None => raise BackgroundNotFound
                         | Some _ => ret tt
                         end)) as [-> | ->]; [| | reflexivity].
  { destruct (has_strategy (self w)); [auto |].
    destruct (_background (self w)); auto. }
  unfold bind at 1.
  destruct (_read_eco_scan path w) as [[[sp files]|] w0] eqn:Hread;
    apply read_eco_scan_world in Hread as ->; [| reflexivity].
  unfold bind at 1. destruct (nproc <? 1); [reflexivity |].
  unfold ret, bind, lift.
  destruct (pool_map _ _ _ files); reflexivity.
Qed.

Lemma bind_inv {A B} (m : M A) (k : A -> M B) w r w' :
  bind m k w = (r, w') ->
  (exists a w1, m w = (Ok a, w1) /\ k a w1 = (r, w')) \/
  (exists e, m w = (Raise e, w') /\ r = Raise e).
Proof.
  unfold bind. destruct (m w) as [[a|e] w1]; intros H.
  - left. eauto.
  - right. injection H as <- <-. eauto.
Qed.

Lemma grows_refl w : grows w w.
Proof. repeat split. exists []. rewrite app_nil_r. reflexivity. Qed.

Lemma grows_trans w1 w2 w3 : grows w1 w2 -> grows w2 w3 -> grows w1 w3.
Proof.
  intros (Hs & Hh & He & n1 & H1) (Hs' & Hh' & He' & n2 & H2).
  repeat split; try congruence.
  exists (n1 ++ n2). rewrite H2, H1, app_assoc. reflexivity.
Qed.

(** An operation that touches only an array made after [w] leaves [w]
    as it was, but for the new arrays. *)
Lemma grows_fresh w buf w2 :
  frame_except (length (heap w)) (with_heap (heap w ++ [buf]) w) w2 ->
  grows w w2.
Proof.
  intros (Hs & Hh & He & Hl & Hb). simpl in *.
  repeat split; try assumption.
  exists (drop (length (heap w)) (heap w2)).
  rewrite <- (take_drop (length (heap w)) (heap w2)) at 1. f_equal.
  apply list_eq. intros j. destruct (decide (j < length (heap w))%nat) as [Hj|Hj].
  - rewrite lookup_take_lt by exact Hj. rewrite Hb by lia.
    apply lookup_app_l. exact Hj.
  - rewrite lookup_take_ge by lia. symmetry. apply lookup_ge_None. lia.
Qed.

(** The loop of 'avg_wf' works on new arrays and leaves the engine and
    the arrays that existed as they were. *)
Lemma avg_wf_loop_grows files :
  forall i a w r w',
    avg_wf_loop find_edge i files a w = (r, w') -> grows w w'.
Proof.
  induction files as [|f files IH]; intros i a w r w'; simpl.
  { intros [= _ <-]. apply grows_refl. }
  intros H. apply bind_inv in H as [(rd & w1 & Hread & H) | (e & Hread & _)].
  2:{ unfold _read_bsread_file in Hread.
      destruct (h5_files w !! f); injection Hread as _ <-; apply grows_refl. }
  assert (w1 = w) as ->.
  { unfold _read_bsread_file in Hread.
    destruct (h5_files w !! f); injection Hread as _ <-; reflexivity. }
  destruct rd as [[[data pid] dark] imgs].
  apply bind_inv in H as [(arr & w2 & Halloc & H) | (e & Halloc & _)];
    [| discriminate].
  unfold alloc in Halloc. injection Halloc as <- <-.
  apply bind_inv in H as [(results & w3 & Hp & H) | (e & Hp & _)].
  2:{ apply process_frame_cases in Hp as [Hp _]. simpl in Hp.
      eapply grows_fresh. exact Hp. }
  apply process_frame_cases in Hp as [Hp _]. simpl in Hp.
  apply grows_fresh in Hp.
  apply bind_inv in H as [(a1 & w4 & Hst & H) | (e & Hst & _)].
  2:{ unfold lift in Hst. injection Hst as _ <-. exact Hp. }
  unfold lift in Hst. injection Hst as _ <-.
  eapply grows_trans; [exact Hp |]. eapply IH. exact H.
Qed.

(** What [calibrate_time] leaves: the world in which it was called, with
    new arrays at most and, when it returns, with the slope of the fit
    stored. *)
Lemma calibrate_time_world filepath method nproc times w :
  match calibrate_time find_edge nanmean lstsq uninitialised
          filepath method nproc times w with
  | (Ok (_, _, fit_coeff), w') =>
      grows (with_self (set_pix_per_fs (fit_coeff !! 0%nat) (self w)) w) w'
  | (Raise _, w') => grows w w'
  end.
Proof.
  destruct (calibrate_time _ _ _ _ _ _ _ _ w) as [r w'] eqn:H.
  unfold calibrate_time in H.
  assert (Harrays : forall r1 w1,
             scan_arrays find_edge nanmean uninitialised filepath method nproc
               times w = (r1, w1) -> grows w w1).
  { intros r1 w1. unfold scan_arrays.
    destruct (String.eqb method "avg_wf").
    - intros H1.
      apply bind_inv in H1 as [([sp files] & w2 & Hread & H1) | (e & Hread & _)];
        apply read_eco_scan_world in Hread as ->; [| apply grows_refl].
      apply bind_inv in H1 as [(a & w3 & Hloop & H1) | (e & Hloop & _)];
        apply avg_wf_loop_grows in Hloop; [| exact Hloop].
      injection H1 as _ <-. exact Hloop.
    - destruct (String.eqb method "avg_edge");
        [| intros [= _ <-]; apply grows_refl].
      intros H1.
      apply bind_inv in H1 as [(res & w2 & Heco & H1) | (e & Heco & _)];
        pose proof (process_eco_world filepath nproc false times w) as Hw;
        rewrite Heco in Hw; simpl in Hw; subst; [| apply grows_refl].
      unfold lift in H1. injection H1 as _ <-. apply grows_refl. }
  apply bind_inv in H as [(s & w1 & Hget & H) | (e & Hget & _)];
    [| discriminate].
  unfold get_self in Hget. injection Hget as <- <-.
  apply bind_inv in H as [(u & w2 & Hguard & H) | (e & Hguard & ->)].
  2:{ destruct (_ && _); [| discriminate].
      injection Hguard as _ <-. apply grows_refl. }
  assert (w2 = w) as ->.
  { destruct (_ && _); [discriminate |]. injection Hguard as _ <-.
    reflexivity. }
  apply bind_inv in H as [([sp ep] & w3 & Hsa & H) | (e & Hsa & ->)];
    apply Harrays in Hsa; [| exact Hsa].
  apply bind_inv in H as [(coeff & w4 & Hfit & H) | (e & Hfit & ->)];
    unfold lift in Hfit; injection Hfit as Hfit <-; [| exact Hsa].
  apply bind_inv in H as [(s4 & w5 & Hget & H) | (e & Hget & _)];
    [| discriminate].
  unfold get_self in Hget. injection Hget as <- <-.
  apply bind_inv in H as [(u5 & w6 & Hput & H) | (e & Hput & _)];
    [| discriminate].
  unfold put_self in Hput. injection Hput as _ <-.
  injection H as <- <-. destruct Hsa as (Hs & Hh & He & Hn).
  repeat split; try assumption. cbn [self with_self]. rewrite Hs. reflexivity.
Qed.

(** X11. [calibrate_time] stores the slope of the fit as [pix_per_fs] when
    it returns and leaves [pix_per_fs] as it was when it raises; it never
    changes the stored reference, with whichever method and strategy; it
    changes no array that existed and writes no file. *)
Theorem calibrate_time_frame filepath method nproc times w :
  let run := calibrate_time find_edge nanmean lstsq uninitialised
               filepath method nproc times w in
  _background (self (snd run)) = _background (self w) /\
  pix_per_fs (self (snd run)) =
    (match fst run with
     | Ok (_, _, fit_coeff) => fit_coeff !! 0%nat
     | Raise _ => pix_per_fs (self w)
     end) /\
  h5_files (snd run) = h5_files w /\ eco_files (snd run) = eco_files w /\
  exists new, heap (snd run) = heap w ++ new.
Proof.
  intros run. subst run.
  pose proof (calibrate_time_world filepath method nproc times w) as H.
  destruct (calibrate_time _ _ _ _ _ _ _ _ w) as [[[[sp ep] coeff]|e] w'];
    destruct H as (Hs & Hh & He & Hn); simpl in *; rewrite Hs; auto.
Qed.

(** X12. No processing operation changes a setting of the engine. *)
Theorem settings_preserved w :
  (forall data dark,
      settings (self (snd (calibrate_background data dark w)))
        = settings (self w)) /\
  (forall data debug,
      settings (self (snd (process find_edge data debug w)))
        = settings (self w)) /\
  (forall path debug,
      settings (self (snd (process_hdf5 find_edge path debug w)))
        = settings (self w)) /\
  (forall path nproc debug times,
      settings (self (snd (process_eco find_edge path nproc debug times w)))
        = settings (self w)) /\
  (forall path method nproc times,
      settings (self (snd (calibrate_time find_edge nanmean lstsq uninitialised
                             path method nproc times w)))
        = settings (self w)).
Proof.
  split; [| split; [| split; [| split]]].
  - intros data dark. unfold calibrate_background, bind, lift, get_self, put_self.
    destruct (dark_rows data dark); reflexivity.
  - intros data debug.
    destruct (process find_edge data debug w) as [r w'] eqn:E.
    apply process_frame_cases in E as [(Hs & _) _]. simpl. rewrite Hs.
    reflexivity.
  - intros path debug. rewrite process_hdf5_closed.
    destruct (h5_files w !! path) as [h5f|]; [| reflexivity].
    destruct (read_recording (self w) h5f debug) as [[[[data pid] dark] imgs]|];
      [| reflexivity].
    destruct (reference_for (self w) data dark) as [bg|]; [| reflexivity].
    cbv zeta. destruct (corrected_buffer _ bg _ _ _); reflexivity.
  - intros path nproc debug times. rewrite process_eco_world. reflexivity.
  - intros path method nproc times.
    pose proof (calibrate_time_world path method nproc times w) as H.
    destruct (calibrate_time _ _ _ _ _ _ _ _ w) as [[[[sp ep] coeff]|e] w'];
      destruct H as (Hs & _); simpl in *; rewrite Hs; reflexivity.
Qed.

End Frames.

(** ** [process_hdf5] with a stored reference *)

Section StoredReference.
Variable X : Type.
Variable find_edge : ndvalue -> Z -> string -> float -> edges X + Z.

Lemma no_strategy s :
  has_strategy s = false ->
  truthy_channel (events_channel s) = false /\ dark_shot_filter s = None.
Proof.
  unfold has_strategy. intros H. apply orb_false_elim in H as [Hc Hf].
  split; [exact Hc |]. destruct (dark_shot_filter s); [discriminate | reflexivity].
Qed.

Lemma read_recording_no_strategy s h5f debug data pid dark imgs :
  has_strategy s = false ->
  read_recording s h5f debug = Ok (data, pid, dark, imgs) -> dark = None.
Proof.
  intros Hs. apply no_strategy in Hs as [Hc Hf].
  unfold read_recording, shot_selection. rewrite Hc, Hf.
  destruct (image_groups h5f !! _) as [g|]; [| discriminate].
  destruct (waveforms s g _) as [[[data0 pid0] imgs0]|]; [| discriminate].
  intros [= _ _ <- _]. reflexivity.
Qed.

(** X13. Without a strategy [process_hdf5] works with the stored reference:
    the waveforms of the recording are corrected with it, every edge
    position is the one that [find_edge] found, none is set to NaN, the
    dark mask of the result is [None], and the engine is as it was. *)
Theorem process_hdf5_stored_reference f d w out w' :
  has_strategy (self w) = false ->
  process_hdf5 find_edge f d w = (Ok out, w') ->
  self w' = self w /\ is_dark out = Some None /\
  exists bg h5f data pid imgs b e,
    _background (self w) = Some bg /\
    h5_files w !! f = Some h5f /\
    read_recording (self w) h5f d = Ok (data, pid, None, imgs) /\
    corrected_buffer (background_method (self w)) bg
      (length (rows data)) (ncols data) (concat (rows data)) = Ok b /\
    find_edge {| vshape := [length (rows data); ncols data]; vdata := b |}
      (step_length (self w)) (edge_type (self w)) (refinement (self w))
      = inl e /\
    edge_pos out = fe_edge_pos e /\ pulse_id out = Some pid.
Proof.
  intros Hs. rewrite process_hdf5_closed.
  destruct (h5_files w !! f) as [h5f|]; [| discriminate].
  destruct (read_recording (self w) h5f d) as [[[[data pid] dark] imgs]|] eqn:Hr;
    [| discriminate].
  pose proof (read_recording_no_strategy _ _ _ _ _ _ _ Hs Hr) as ->.
  destruct (reference_for (self w) data None) as [bg|] eqn:Href;
    [| discriminate].
  pose proof (reference_for_stored _ _ _ _ Hs Href) as Hbg.
  cbv zeta. rewrite (set_background_id _ _ Hbg).
  destruct (corrected_buffer _ bg _ _ _) as [b|] eqn:Hb; [| discriminate].
  unfold edge_detection.
  destruct (find_edge _ _ _ _) as [e|c] eqn:He; [| discriminate].
  unfold finish_output. simpl. intros [= <- <-]. simpl.
  split; [reflexivity | split; [reflexivity |]].
  exists bg, h5f, data, pid, imgs, b, e. repeat split; assumption.
Qed.

End StoredReference.

Lemma process_hdf5_stored_reference_witness :
  self (snd (process_hdf5 first_pixel "a.h5" false ex_stored_world))
    = self ex_stored_world /\
  is_dark ex_stored_output = Some None /\
  exists bg h5f data pid imgs b e,
    _background (self ex_stored_world) = Some bg /\
    h5_files ex_stored_world !! "a.h5"%string = Some h5f /\
    read_recording (self ex_stored_world) h5f false
      = Ok (data, pid, None, imgs) /\
    corrected_buffer (background_method (self ex_stored_world)) bg
      (length (rows data)) (ncols data) (concat (rows data)) = Ok b /\
    first_pixel {| vshape := [length (rows data); ncols data]; vdata := b |}
      (step_length (self ex_stored_world)) (edge_type (self ex_stored_world))
      (refinement (self ex_stored_world)) = inl e /\
    edge_pos ex_stored_output = fe_edge_pos e /\
    pulse_id ex_stored_output = Some pid.
Proof.
  apply (process_hdf5_stored_reference unit first_pixel "a.h5" false
           ex_stored_world ex_stored_output
           (snd (process_hdf5 first_pixel "a.h5" false ex_stored_world))).
  - reflexivity.
  - vm_compute. reflexivity.
Defined.

(** ** [_read_eco_scan] *)

Lemma mapM_head_lookup {A} (steps : list (list A)) files :
  mapM head steps = Some files ->
  length files = length steps /\
  forall i step, steps !! i = Some step -> files !! i = head step.
Proof.
  intros H. apply mapM_Some in H. split.
  - symmetry. eapply Forall2_length. exact H.
  - intros i step Hi.
    destruct (Forall2_lookup_l _ _ _ _ _ H Hi) as (f & Hf & Hhead).
    rewrite Hf, Hhead. reflexivity.
Qed.

Lemma concat_singletons {A} (l : list (list A)) :
  Forall (fun r => length r = 1%nat) l ->
  length (concat l) = length l /\
  forall i x, l !! i = Some [x] -> concat l !! i = Some x.
Proof.
  induction 1 as [|r l Hr _ [IHl IH]]; [split; [reflexivity | intros i x; rewrite lookup_nil; discriminate] |].
  destruct r as [|y [|? ?]]; try discriminate. simpl. split.
  - rewrite IHl. reflexivity.
  - intros [|i] x; simpl; [intros [= <-]; reflexivity | apply IH].
Qed.

(** X14. A missing scan file is a [FileNotFound].  For a scan with one
    readback per step, [_read_eco_scan] raises [IndexError] when a step has
    no file, and otherwise returns one position per step, the readback of
    the step times 1e15, and one file per step, the first file of the
    step.  The world is never changed. *)
Theorem read_eco_scan_pairs path w :
  (eco_files w !! path = None ->
   _read_eco_scan path w = (Raise FileNotFound, w)) /\
  (forall eco, eco_files w !! path = Some eco ->
     Forall (fun r => length r = 1%nat) (scan_readbacks eco) ->
     Exists (fun step => step = []) (scan_files eco) ->
     _read_eco_scan path w = (Raise IndexError, w)) /\
  (forall eco, eco_files w !! path = Some eco ->
     Forall (fun step => step <> []) (scan_files eco) ->
     Forall (fun r => length r = 1%nat) (scan_readbacks eco) ->
     exists scan_pos files,
       _read_eco_scan path w = (Ok (scan_pos, files), w) /\
       length scan_pos = length (scan_readbacks eco) /\
       length files = length (scan_files eco) /\
       (forall i x, scan_readbacks eco !! i = Some [x] ->
          scan_pos !! i = Some (PrimFloat.mul x 1e15%float)) /\
       (forall i step, scan_files eco !! i = Some step ->
          files !! i = head step)).
Proof.
  unfold _read_eco_scan. split; [| split].
  - intros ->. reflexivity.
  - intros eco -> _ Hex.
    rewrite (proj2 (mapM_None head (scan_files eco))); [reflexivity |].
    eapply Exists_impl; [exact Hex |]. intros step ->. reflexivity.
  - intros eco -> Hsteps Hrb.
    destruct (mapM head (scan_files eco)) as [files|] eqn:Hm.
    + destruct (mapM_head_lookup _ _ Hm) as [Hlen Hfiles].
      destruct (concat_singletons _ Hrb) as [Hclen Hc].
      eexists _, files. split; [reflexivity |].
      rewrite length_map. repeat split; try assumption.
      intros i x Hi. rewrite list_lookup_fmap, (Hc i x Hi). reflexivity.
    + apply mapM_None in Hm. apply Exists_exists in Hm as (step & Hin & Hh).
      rewrite Forall_forall in Hsteps. specialize (Hsteps step Hin).
      destruct step; [contradiction | discriminate].
Qed.

(** ** [process_eco]: which calls return *)





Section EcoFacts.
Variable X : Type.
Variable find_edge : ndvalue -> Z -> string -> float -> edges X + Z.




(** X16. For an engine without predicate, which can always be sent to
    the workers: when the engine succeeds on every recording of the scan,
    [process_eco] returns if the scan has at least as many positions as
    recordings, and raises [IndexError] if it has fewer, after all the
    recordings have been processed. *)
Theorem process_eco_outcome path nproc d times w sp files :
  sendable (self w) ->
  has_strategy (self w) = true \/ is_Some (_background (self w)) ->
  _read_eco_scan path w = (Ok (sp, files), w) -> 1 <= nproc ->
  Forall (fun f => exists o1 w1,
            process_hdf5 find_edge f d (with_heap [] w) = (Ok o1, w1)) files ->
  ((length files <= length sp)%nat ->
   exists outs, process_eco find_edge path nproc d times w = (Ok outs, w) /\
                length outs = length files) /\
  ((length sp < length files)%nat ->
   process_eco find_edge path nproc d times w = (Raise IndexError, w)).
Proof.
  intros _ Hready Hread Hn Hall.
  rewrite (process_eco_run X find_edge _ _ _ _ _ sp files Hready Hread Hn).
  destruct (pool_map_returns (Z.to_nat nproc) times (run_task find_edge d w)
              (fun f => exists o, file_result find_edge d (with_heap [] w) f o)
              files (run_task_returns X find_edge d w)) as [outs0 Hpool].
  { eapply Forall_impl; [exact Hall |]. intros f (o1 & w1 & Hok).
    exists (pickle (heap w1) o1), o1, w1. auto. }
  rewrite Hpool.
  pose proof (pool_map_inv _ _ _ _ _ _ (run_task_inv X find_edge d w) Hpool)
    as Hlen.
  apply Forall2_length in Hlen. split.
  - intros Hle.
    destruct (annotate_returns sp outs0 0) as [outs Hann]; [simpl; lia |].
    rewrite Hann. exists outs. split; [reflexivity |].
    apply annotate_inv in Hann as [-> _]. congruence.
  - intros Hlt.
    destruct (annotate sp 0 outs0) as [outs|e] eqn:Hann.
    + apply annotate_inv in Hann as [_ Hlook].
      destruct (lookup_lt_is_Some_2 outs0 (length sp) ltac:(lia)) as [o Ho].
      destruct (Hlook _ _ Ho) as (p & Hp & _). simpl in Hp.
      apply lookup_lt_Some in Hp. lia.
    + apply annotate_errors in Hann as ->. reflexivity.
Qed.

Lemma process_eco_ready path nproc d times w :
  has_strategy (self w) = true \/ is_Some (_background (self w)) ->
  process_eco find_edge path nproc d times w =
    match _read_eco_scan path w with
    | (Ok (sp, files), _) =>
        if nproc <? 1 then (Raise PoolValueError, w)
        else (match pool_map (Z.to_nat nproc) times (run_task find_edge d w)
                      files with
              | Ok o => annotate sp 0 o
              | Raise e => Raise e
              end, w)
    | (Raise e, _) => (Raise e, w)
    end.
Proof.
  intros Hready. unfold process_eco, bind at 1, get_self. unfold bind at 1.
  assert (Hguard :
            (if has_strategy (self w) then ret tt
             else match _background (self w) with
                  | None => raise BackgroundNotFound
                  | Some _ => ret tt
                  end) w = (Ok tt, w)).
  { destruct Hready as [-> | [bg ->]]; [reflexivity |].
    destruct (has_strategy (self w)); reflexivity. }
  rewrite Hguard. unfold bind at 1.
  destruct (_read_eco_scan path w) as [[[sp files]|e] w0] eqn:Hread;
    apply read_eco_scan_world in Hread as ->; [| reflexivity].
  unfold bind at 1. destruct (nproc <? 1); [reflexivity |].
  unfold ret, bind, lift. destruct (pool_map _ _ _ files); reflexivity.
Qed.

(** X17. What [process_eco] checks before any recording is read, in this
    order: that there is a strategy or a reference, that the scan file can
    be read, that the pool has a worker; and it never changes the caller's
    world: the engine is not calibrated by the run, its workers calibrate
    their own copies. *)
Theorem process_eco_guards path nproc d times w :
  snd (process_eco find_edge path nproc d times w) = w /\
  (has_strategy (self w) = false -> _background (self w) = None ->
   fst (process_eco find_edge path nproc d times w) = Raise BackgroundNotFound) /\
  (has_strategy (self w) = true \/ is_Some (_background (self w)) ->
   (forall e, fst (_read_eco_scan path w) = Raise e ->
      fst (process_eco find_edge path nproc d times w) = Raise e) /\
   (forall sp files, fst (_read_eco_scan path w) = Ok (sp, files) ->
      nproc < 1 ->
      fst (process_eco find_edge path nproc d times w) = Raise PoolValueError)).
Proof.
  split; [apply process_eco_world |]. split.
  - intros Hs Hbg. unfold process_eco, bind, get_self. rewrite Hs, Hbg.
    reflexivity.
  - intros Hready. rewrite (process_eco_ready _ _ _ _ _ Hready).
    destruct (_read_eco_scan path w) as [[[sp0 files0]|e0] w0]; simpl; split.
    + discriminate.
    + intros sp files _ Hn. destruct (Z.ltb_spec nproc 1); [reflexivity | lia].
    + intros e [= <-]. reflexivity.
    + discriminate.
Qed.

End EcoFacts.

Lemma process_eco_guards_witness :
  fst (process_eco first_pixel "scan.json" 0 false last_first ex_filter_world)
    = Raise PoolValueError.
Proof.
  apply (proj2 (proj2 (proj2 (process_eco_guards unit first_pixel "scan.json"
                                0 false last_first ex_filter_world))
                  (or_introl eq_refl))
           [1e15%float; 2e15%float; 3e15%float; 4e15%float; 5e15%float]
           ["a.h5"; "b.h5"; "c.h5"; "d.h5"; "e.h5"]%string).
  - vm_compute. reflexivity.
  - lia.
Defined.

Lemma read_eco_scan_pairs_witness :
  exists scan_pos files,
    _read_eco_scan "scan.json" ex_filter_world
      = (Ok (scan_pos, files), ex_filter_world) /\
    length scan_pos = length (scan_readbacks ex_scan) /\
    length files = length (scan_files ex_scan) /\
    (forall i x, scan_readbacks ex_scan !! i = Some [x] ->
       scan_pos !! i = Some (PrimFloat.mul x 1e15%float)) /\
    (forall i step, scan_files ex_scan !! i = Some step ->
       files !! i = head step).
Proof.
  apply (proj2 (proj2 (read_eco_scan_pairs "scan.json" ex_filter_world))).
  - vm_compute. reflexivity.
  - repeat constructor; discriminate.
  - repeat constructor.
Defined.


Lemma process_eco_outcome_witness :
  process_eco first_pixel "short.json" 1 false last_first ex_short_world
    = (Raise IndexError, ex_short_world).
Proof.
  destruct (process_eco_outcome unit first_pixel "short.json" 1 false
              last_first ex_short_world [1e15%float] ["a.h5"; "a.h5"]%string)
    as [_ Hshort].
  - reflexivity.
  - left. reflexivity.
  - vm_compute. reflexivity.
  - lia.
  - repeat constructor;
      exists ex_events_output,
        (snd (process_hdf5 first_pixel "a.h5" false
                (with_heap [] ex_short_world)));
      vm_compute; reflexivity.
  - apply Hshort. simpl. lia.
Defined.

(** ** [calibrate_time]: the two methods *)

Section TimeMethods.
Variable X : Type.
Variable find_edge : ndvalue -> Z -> string -> float -> edges X + Z.
Variable nanmean : list float -> float.
Variable lstsq : list float -> list float -> option (float * float).
Variable uninitialised : nat -> float.

(** What the pool returns does not depend on the number of workers nor on
    the completion times. *)
Lemma pool_map_schedule d w workers times files outs :
  pool_map workers times (run_task find_edge d w) files = Ok outs ->
  Forall2 (file_result find_edge d (with_heap [] w)) files outs /\
  forall workers' times',
    pool_map workers' times' (run_task find_edge d w) files = Ok outs.
Proof.
  intros Hpool.
  pose proof (pool_map_inv _ _ _ (file_result find_edge d (with_heap [] w))
                _ _ (run_task_inv X find_edge d w) Hpool) as Hall.
  split; [exact Hall |]. intros workers' times'.
  destruct (pool_map_returns workers' times' (run_task find_edge d w)
              (fun f => exists o, file_result find_edge d (with_heap [] w) f o)
              files) as [outs1 Hpool1].
  - apply run_task_returns.
  - apply Forall_lookup_2. intros i f Hf.
    destruct (Forall2_lookup_l _ _ _ _ _ Hall Hf) as (o & _ & Ho). eauto.
  - rewrite Hpool1. f_equal.
    pose proof (pool_map_inv _ _ _ _ _ _ (run_task_inv X find_edge d w) Hpool1)
      as Hall1.
    eapply Forall2_unique; [exact Hall1 | exact Hall |].
    intros f o1 o2. apply file_result_unique.
Qed.

Lemma mapM_scan_pos_annotate {R} sp : forall i (outs res : list (output X R)),
  annotate sp i outs = Ok res ->
  mapM scan_pos_fs res = Some (take (length outs) (drop i sp)) /\
  map (fun o => nanmean (edge_pos o)) res
    = map (fun o => nanmean (edge_pos o)) outs.
Proof.
  intros i outs. revert i.
  induction outs as [|o outs IH]; intros i res; simpl.
  { intros [= <-]. split; reflexivity. }
  destruct (sp !! i) as [p|] eqn:Hp; [| discriminate].
  destruct (annotate sp (S i) outs) as [l|] eqn:Hl; [| discriminate].
  intros [= <-]. destruct (IH _ _ Hl) as [Hm He]. split.
  - rewrite (drop_S _ _ _ Hp). simpl. cbn. rewrite Hm. reflexivity.
  - simpl. rewrite He. reflexivity.
Qed.

(** [calibrate_time] with 'avg_edge', once its guard is passed. *)
Lemma calibrate_time_avg_edge_run path nproc times w :
  is_none (events_channel (self w)) && is_none (dark_shot_filter (self w))
    && is_none (_background (self w)) = false ->
  calibrate_time find_edge nanmean lstsq uninitialised
    path "avg_edge" nproc times w =
  match process_eco find_edge path nproc false times w with
  | (Ok results, w1) =>
      match avg_edge_arrays nanmean results with
      | Ok (sp, ep) =>
          match polyfit lstsq sp ep with
          | Ok coeff =>
              (Ok (sp, ep, coeff),
               with_self (set_pix_per_fs (coeff !! 0%nat) (self w1)) w1)
          | Raise e => (Raise e, w1)
          end
      | Raise e => (Raise e, w1)
      end
  | (Raise e, w1) => (Raise e, w1)
  end.
Proof.
  intros Hguard. unfold calibrate_time, bind at 1, get_self.
  unfold bind at 1. rewrite Hguard. unfold ret at 1.
  unfold scan_arrays. simpl String.eqb. cbv iota.
  unfold bind, lift, put_self, ret.
  destruct (process_eco _ _ _ _ _ w) as [[results|e] w1]; [| reflexivity].
  destruct (avg_edge_arrays nanmean results) as [[sp ep]|e]; [| reflexivity].
  destruct (polyfit lstsq sp ep); reflexivity.
Qed.

Lemma calibrate_time_guard path method nproc times w r w' :
  calibrate_time find_edge nanmean lstsq uninitialised
    path method nproc times w = (Ok r, w') ->
  is_none (events_channel (self w)) && is_none (dark_shot_filter (self w))
    && is_none (_background (self w)) = false.
Proof.
  unfold calibrate_time, bind at 1, get_self. unfold bind at 1.
  destruct (_ && _); [discriminate | reflexivity].
Qed.

(** X18. With 'avg_edge', [calibrate_time] fits one sample per recording of
    the scan, in the order of the scan: the position of the step and the
    mean ([np.nanmean]) of the edge positions that [process_hdf5] returns
    for the recording on a copy of the engine; and it returns the same for
    every number of workers and every completion order. *)
Theorem calibrate_time_avg_edge path nproc times w sp ep coeff w' :
  calibrate_time find_edge nanmean lstsq uninitialised
    path "avg_edge" nproc times w = (Ok (sp, ep, coeff), w') ->
  (exists scan_pos files,
      _read_eco_scan path w = (Ok (scan_pos, files), w) /\
      length sp = length files /\ length ep = length files /\
      forall i f, files !! i = Some f ->
        exists o1 w1 p,
          process_hdf5 find_edge f false (with_heap [] w) = (Ok o1, w1) /\
          scan_pos !! i = Some p /\ sp !! i = Some p /\
          ep !! i = Some (nanmean (edge_pos o1))) /\
  (forall nproc' times', 1 <= nproc' ->
      calibrate_time find_edge nanmean lstsq uninitialised
        path "avg_edge" nproc' times' w = (Ok (sp, ep, coeff), w')).
Proof.
  intros H. pose proof (calibrate_time_guard _ _ _ _ _ _ _ H) as Hguard.
  rewrite (calibrate_time_avg_edge_run _ _ _ _ Hguard) in H.
  destruct (process_eco _ _ _ _ _ w) as [[results|e] w1] eqn:Heco;
    [| discriminate].
  destruct (process_eco_inv X find_edge _ _ _ _ _ _ _ Heco)
    as (Hready & Hn & scan_pos & files & Hread).
  rewrite (process_eco_run X find_edge _ _ _ _ _ scan_pos files Hready Hread Hn)
    in Heco.
  destruct (pool_map _ times _ files) as [outs0|] eqn:Hpool; [| discriminate].
  injection Heco as Hann <-.
  destruct (pool_map_schedule _ _ _ _ _ _ Hpool) as [Hall Hsched].
  destruct (avg_edge_arrays nanmean results) as [[sp0 ep0]|] eqn:Havg;
    [| discriminate].
  destruct (polyfit lstsq sp0 ep0) as [coeff0|] eqn:Hfit; [| discriminate].
  injection H as <- <- <- <-. split.
  - unfold avg_edge_arrays in Havg.
    destruct (mapM_scan_pos_annotate _ _ _ _ Hann) as [Hm He].
    rewrite Hm in Havg. injection Havg as <- <-.
    exists scan_pos, files. split; [exact Hread |].
    pose proof (Forall2_length _ _ _ Hall) as Hlen.
    destruct (annotate_inv _ _ _ _ Hann) as [Hlen' Hlook].
    assert (Hsp : (length files <= length scan_pos)%nat).
    { destruct files as [|f0 files0]; [simpl; lia |].
      destruct (lookup_lt_is_Some_2 outs0 (length outs0 - 1)) as [o Ho];
        [rewrite <- Hlen; simpl; lia |].
      destruct (Hlook _ _ Ho) as (p & Hp & _). simpl in Hp.
      apply lookup_lt_Some in Hp. lia. }
    split; [rewrite length_take, length_drop; lia |].
    split; [rewrite length_map; lia |].
    intros i f Hf.
    destruct (Forall2_lookup_l _ _ _ _ _ Hall Hf)
      as (o & Ho & o1 & w1 & Hfile & ->).
    destruct (Hlook i _ Ho) as (p & Hp & Hres). simpl in Hp.
    exists o1, w1, p. split; [exact Hfile |]. split; [exact Hp |]. split.
    + rewrite lookup_take_lt by (eapply lookup_lt_Some, Ho). exact Hp.
    + rewrite list_lookup_fmap, Hres. reflexivity.
  - intros nproc' times' Hn'.
    rewrite (calibrate_time_avg_edge_run _ _ _ _ Hguard).
    rewrite (process_eco_run X find_edge _ _ _ _ _ scan_pos files Hready Hread
               Hn').
    rewrite Hsched, Hann, Havg, Hfit. reflexivity.
Qed.

(** One round of the loop of 'avg_wf' on a recording that is read. *)
Lemma avg_wf_loop_step i f rest a w h5f data pid dark imgs :
  h5_files w !! f = Some h5f ->
  read_recording (self w) h5f false = Ok (data, pid, dark, imgs) ->
  avg_wf_loop find_edge i (f :: rest) a w =
    match _background (self w) with
    | None =>
        (Raise BackgroundNotFound, with_heap (heap w ++ [mean_axis0 data]) w)
    | Some bg =>
        match corrected_buffer (background_method (self w)) bg 1 (ncols data)
                (mean_axis0 data) with
        | Raise e => (Raise e, with_heap (heap w ++ [mean_axis0 data]) w)
        | Ok b =>
            match find_edge {| vshape := [1%nat; ncols data]; vdata := b |}
                    (step_length (self w)) (edge_type (self w))
                    (refinement (self w)) with
            | inr code =>
                (Raise (FindEdgeError code), with_heap (heap w ++ [b]) w)
            | inl e =>
                match store_scalar i (fe_edge_pos e) a with
                | Ok a1 =>
                    avg_wf_loop find_edge (S i) rest a1
                      (with_heap (heap w ++ [b]) w)
                | Raise e => (Raise e, with_heap (heap w ++ [b]) w)
                end
            end
        end
    end.
Proof.
  intros Hf Hread. cbn [avg_wf_loop].
  unfold bind at 1, _read_bsread_file. rewrite Hf, Hread.
  unfold bind at 1, alloc.
  set (w1 := with_heap (heap w ++ [mean_axis0 data]) w).
  unfold bind at 1.
  replace (process find_edge {| base := length (heap w); shape := [ncols data] |}
             false w1)
    with (process find_edge
            {| base := length (heap w); shape := [1%nat; ncols data] |}
            false w1)
    by (unfold process, bind, get_self;
        destruct (_background (self w1)); reflexivity).
  destruct (_background (self w)) as [bg|] eqn:Hbg.
  2:{ unfold process, bind, get_self. simpl. rewrite Hbg. reflexivity. }
  rewrite (process_2d X find_edge
             {| base := length (heap w); shape := [1%nat; ncols data] |}
             false w1 bg 1 (ncols data) Hbg eq_refl)
    by (simpl; rewrite length_app; simpl; lia).
  unfold w1 at 1 2. simpl heap. rewrite buffer_fresh. simpl self.
  destruct (corrected_buffer _ bg 1 _ _) as [b|e]; [| reflexivity].
  cbn [base]. unfold w1. simpl heap. rewrite insert_fresh.
  change (with_heap (heap w ++ [b])
            (with_heap (heap w ++ [mean_axis0 data]) w))
    with (with_heap (heap w ++ [b]) w).
  unfold edge_detection. simpl self.
  destruct (find_edge _ _ _ _) as [e|code]; [| reflexivity].
  unfold bind, lift. simpl edge_pos.
  destruct (store_scalar i (fe_edge_pos e) a); reflexivity.
Qed.

Lemma store_scalar_inv i value a a' :
  store_scalar i value a = Ok a' ->
  (i < length a)%nat /\ exists v, value = [v] /\ a' = <[i := v]> a.
Proof.
  unfold store_scalar. destruct (Nat.ltb_spec i (length a)); [| discriminate].
  destruct value as [|v [|? ?]]; try discriminate.
  intros [= <-]. eauto.
Qed.

(** What the loop of 'avg_wf' has stored when it ends: the edge of the
    mean waveform of recording [j] at position [i + j], and nothing
    elsewhere. *)
Lemma avg_wf_loop_inv files :
  forall i a w a' w',
    avg_wf_loop find_edge i files a w = (Ok a', w') ->
    (files <> [] -> (i + length files <= length a)%nat) /\
    (forall j, (j < i \/ i + length files <= j)%nat -> a' !! j = a !! j) /\
    (forall j f, files !! j = Some f ->
       exists v, mean_waveform_edge find_edge w f v /\
                 a' !! (i + j)%nat = Some v).
Proof.
  induction files as [|f files IH]; intros i a w a' w' H.
  { injection H as <- <-. split; [intros Hne; destruct Hne; reflexivity |].
    split; [intros j _; reflexivity |].
    intros j f Hj. rewrite lookup_nil in Hj. discriminate. }
  assert (Hread : exists h5f data pid dark imgs,
             h5_files w !! f = Some h5f /\
             read_recording (self w) h5f false = Ok (data, pid, dark, imgs)).
  { cbn [avg_wf_loop] in H. unfold bind at 1, _read_bsread_file in H.
    destruct (h5_files w !! f) as [h5f|] eqn:Hf0; [| discriminate].
    destruct (read_recording (self w) h5f false)
      as [[[[data pid] dark] imgs]|] eqn:Hr0; [| discriminate].
    exists h5f, data, pid, dark, imgs. split; [reflexivity | exact Hr0]. }
  destruct Hread as (h5f & data & pid & dark & imgs & Hf & Hread).
  rewrite (avg_wf_loop_step _ _ _ _ _ _ _ _ _ _ Hf Hread) in H.
  destruct (_background (self w)) as [bg|] eqn:Hbg; [| discriminate].
  destruct (corrected_buffer _ bg 1 _ _) as [b|] eqn:Hb; [| discriminate].
  destruct (find_edge _ _ _ _) as [e|code] eqn:He; [| discriminate].
  destruct (store_scalar i (fe_edge_pos e) a) as [a1|] eqn:Hst;
    [| discriminate].
  apply store_scalar_inv in Hst as (Hi & v & Hv & ->).
  apply IH in H as (Hlen & Hout & Hin).
  rewrite length_insert in Hlen. split; [| split].
  - intros _. destruct files as [|f' files']; [simpl; lia |].
    specialize (Hlen ltac:(discriminate)). simpl in *. lia.
  - intros j Hj. simpl in Hj. rewrite Hout by lia.
    apply list_lookup_insert_ne. lia.
  - intros [|j] f' Hj; simpl in Hj.
    + injection Hj as <-. exists v. split.
      * exists h5f, data, pid, dark, imgs, bg, b, e. auto 10.
      * rewrite Nat.add_0_r, Hout by lia.
        apply list_lookup_insert_eq. exact Hi.
    + destruct (Hin j f' Hj) as (v' & Hedge & Hv').
      exists v'. split; [exact Hedge |].
      replace (i + S j)%nat with (S i + j)%nat by lia. exact Hv'.
Qed.

Lemma np_empty_lookup n j :
  (j < n)%nat -> np_empty uninitialised n !! j = Some (uninitialised j).
Proof.
  intros Hj. unfold np_empty. rewrite list_lookup_fmap, lookup_seq_lt by exact Hj.
  reflexivity.
Qed.

(** [calibrate_time] with 'avg_wf', once its guard is passed. *)
Lemma calibrate_time_avg_wf_run path nproc times w :
  is_none (events_channel (self w)) && is_none (dark_shot_filter (self w))
    && is_none (_background (self w)) = false ->
  calibrate_time find_edge nanmean lstsq uninitialised
    path "avg_wf" nproc times w =
  match _read_eco_scan path w with
  | (Ok (sp, files), w0) =>
      match avg_wf_loop find_edge 0 files
              (np_empty uninitialised (length sp)) w0 with
      | (Ok ep, w1) =>
          match polyfit lstsq sp ep with
          | Ok coeff =>
              (Ok (sp, ep, coeff),
               with_self (set_pix_per_fs (coeff !! 0%nat) (self w1)) w1)
          | Raise e => (Raise e, w1)
          end
      | (Raise e, w1) => (Raise e, w1)
      end
  | (Raise e, w0) => (Raise e, w0)
  end.
Proof.
  intros Hguard. unfold calibrate_time, bind at 1, get_self.
  unfold bind at 1. rewrite Hguard. unfold ret at 1.
  unfold scan_arrays. simpl String.eqb. cbv iota.
  unfold bind, lift, put_self, ret.
  destruct (_read_eco_scan path w) as [[[sp files]|e] w0]; [| reflexivity].
  destruct (avg_wf_loop _ _ _ _ w0) as [[ep|e] w1]; [| reflexivity].
  destruct (polyfit lstsq sp ep); reflexivity.
Qed.

(** X19. With 'avg_wf', [calibrate_time] fits, for every recording of the
    scan, the position of the step and the edge that [find_edge] finds in
    the mean of all the waveforms of the recording, dark shots included,
    corrected with the stored reference; a scan with more positions than
    recordings is accepted, and the edge positions that are fitted for the
    positions without recording are what [np.empty] left there. *)
Theorem calibrate_time_avg_wf path nproc times w sp ep coeff w' :
  calibrate_time find_edge nanmean lstsq uninitialised
    path "avg_wf" nproc times w = (Ok (sp, ep, coeff), w') ->
  exists files,
    _read_eco_scan path w = (Ok (sp, files), w) /\
    length ep = length sp /\ (length files <= length sp)%nat /\
    (forall j f, files !! j = Some f ->
       exists v, mean_waveform_edge find_edge w f v /\ ep !! j = Some v) /\
    (forall j, (length files <= j)%nat -> (j < length sp)%nat ->
       ep !! j = Some (uninitialised j)).
Proof.
  intros H. pose proof (calibrate_time_guard _ _ _ _ _ _ _ H) as Hguard.
  rewrite (calibrate_time_avg_wf_run _ _ _ _ Hguard) in H.
  destruct (_read_eco_scan path w) as [[[sp0 files]|] w0] eqn:Hread;
    [| discriminate].
  apply read_eco_scan_world in Hread as Hw. subst w0.
  destruct (avg_wf_loop _ _ _ _ w) as [[ep0|] w1] eqn:Hloop; [| discriminate].
  destruct (polyfit lstsq sp0 ep0) as [coeff0|]; [| discriminate].
  injection H as <- <- <- <-.
  pose proof (avg_wf_loop_length X find_edge _ _ _ _ _ _ Hloop) as Hlen.
  unfold np_empty in Hlen. rewrite length_map, length_seq in Hlen.
  destruct (avg_wf_loop_inv _ _ _ _ _ _ Hloop) as (Hfit & Hout & Hin).
  unfold np_empty in Hfit. rewrite length_map, length_seq in Hfit.
  exists files. split; [reflexivity |]. split; [exact Hlen |]. split; [| split].
  - destruct files; [simpl; lia |]. specialize (Hfit ltac:(discriminate)). lia.
  - exact Hin.
  - intros j Hj Hlt. rewrite Hout by lia. apply np_empty_lookup. exact Hlt.
Qed.

(** X20. 'avg_wf' needs a stored reference even with a strategy: it never
    calibrates the background itself, and on an engine without a stored
    reference it raises the missing-calibration error at the first
    recording. *)
Theorem calibrate_time_avg_wf_needs_reference
    path nproc times w sp f files h5f rd :
  _background (self w) = None ->
  _read_eco_scan path w = (Ok (sp, f :: files), w) ->
  h5_files w !! f = Some h5f ->
  read_recording (self w) h5f false = Ok rd ->
  fst (calibrate_time find_edge nanmean lstsq uninitialised
         path "avg_wf" nproc times w) = Raise BackgroundNotFound.
Proof.
  intros Hbg Hread Hf Hrd. destruct rd as [[[data pid] dark] imgs].
  destruct (is_none (events_channel (self w))
            && is_none (dark_shot_filter (self w))
            && is_none (_background (self w))) eqn:Hguard.
  - unfold calibrate_time, bind, get_self. rewrite Hguard. reflexivity.
  - rewrite (calibrate_time_avg_wf_run _ _ _ _ Hguard), Hread.
    rewrite (avg_wf_loop_step _ _ _ _ _ _ _ _ _ _ Hf Hrd), Hbg. reflexivity.
Qed.

(** X21. A scan without recordings cannot be fitted with 'avg_edge':
    [np.polyfit] refuses the empty arrays; with 'avg_wf' the same holds of
    a scan that has no position either. *)
Theorem calibrate_time_empty_scan path nproc times w sp :
  has_strategy (self w) = true \/ is_Some (_background (self w)) ->
  _read_eco_scan path w = (Ok (sp, []), w) ->
  (1 <= nproc ->
   calibrate_time find_edge nanmean lstsq uninitialised
     path "avg_edge" nproc times w = (Raise PolyfitTypeError, w)) /\
  (sp = [] ->
   calibrate_time find_edge nanmean lstsq uninitialised
     path "avg_wf" nproc times w = (Raise PolyfitTypeError, w)).
Proof.
  intros Hready Hread.
  assert (Hguard : is_none (events_channel (self w))
                   && is_none (dark_shot_filter (self w))
                   && is_none (_background (self w)) = false).
  { destruct Hready as [Hs | [bg Hbg]].
    - unfold has_strategy, truthy_channel, truthy_filter in Hs.
      destruct (events_channel (self w)); [reflexivity |].
      destruct (dark_shot_filter (self w)); [reflexivity | discriminate].
    - rewrite Hbg. simpl. apply andb_false_r. }
  split.
  - intros Hn. rewrite (calibrate_time_avg_edge_run _ _ _ _ Hguard).
    rewrite (process_eco_run X find_edge _ _ _ _ _ sp [] Hready Hread Hn).
    reflexivity.
  - intros ->. rewrite (calibrate_time_avg_wf_run _ _ _ _ Hguard), Hread.
    reflexivity.
Qed.

End TimeMethods.

Lemma calibrate_time_avg_edge_witness :
  (exists scan_pos files,
      _read_eco_scan "scan.json" ex_filter_world
        = (Ok (scan_pos, files), ex_filter_world) /\
      length [1e15%float; 2e15%float; 3e15%float; 4e15%float; 5e15%float]
        = length files /\
      length [(-23.5)%float; (-23.25)%float; (-23)%float; (-22.75)%float;
              (-22.5)%float] = length files /\
      forall i f, files !! i = Some f ->
        exists o1 w1 p,
          process_hdf5 first_pixel f false (with_heap [] ex_filter_world)
            = (Ok o1, w1) /\
          scan_pos !! i = Some p /\
          [1e15%float; 2e15%float; 3e15%float; 4e15%float; 5e15%float] !! i
            = Some p /\
          [(-23.5)%float; (-23.25)%float; (-23)%float; (-22.75)%float;
           (-22.5)%float] !! i = Some (ex_nanmean (edge_pos o1))) /\
  (forall nproc' times', 1 <= nproc' ->
      calibrate_time first_pixel ex_nanmean ex_lstsq ex_uninitialised
        "scan.json" "avg_edge" nproc' times' ex_filter_world =
      (Ok ([1e15%float; 2e15%float; 3e15%float; 4e15%float; 5e15%float],
           [(-23.5)%float; (-23.25)%float; (-23)%float; (-22.75)%float;
            (-22.5)%float],
           [0x1.203af9ee75618p-52%float; (-23.75)%float]),
       snd (calibrate_time first_pixel ex_nanmean ex_lstsq ex_uninitialised
              "scan.json" "avg_edge" 2 last_first ex_filter_world))).
Proof.
  apply (calibrate_time_avg_edge unit first_pixel ex_nanmean ex_lstsq
           ex_uninitialised "scan.json" 2 last_first ex_filter_world).
  vm_compute. reflexivity.
Defined.

Lemma calibrate_time_avg_wf_witness :
  exists files,
    _read_eco_scan "tail.json" ex_tail_world
      = (Ok ([1e15%float; 2e15%float; 3e15%float], files), ex_tail_world) /\
    length [(-11.75)%float; (-11.625)%float; 0%float]
      = length [1e15%float; 2e15%float; 3e15%float] /\
    (length files <= length [1e15%float; 2e15%float; 3e15%float])%nat /\
    (forall j f, files !! j = Some f ->
       exists v, mean_waveform_edge first_pixel ex_tail_world f v /\
                 [(-11.75)%float; (-11.625)%float; 0%float] !! j = Some v) /\
    (forall j, (length files <= j)%nat ->
       (j < length [1e15%float; 2e15%float; 3e15%float])%nat ->
       [(-11.75)%float; (-11.625)%float; 0%float] !! j
         = Some (ex_uninitialised j)).
Proof.
  apply (calibrate_time_avg_wf unit first_pixel ex_nanmean ex_lstsq
           ex_uninitialised "tail.json" 1 last_first ex_tail_world
           [1e15%float; 2e15%float; 3e15%float]
           [(-11.75)%float; (-11.625)%float; 0%float]
           [0x1.a7569f163c674p-48%float; (-0x1.38aaaaaaaaaadp+4)%float]
           (snd (calibrate_time first_pixel ex_nanmean ex_lstsq
                   ex_uninitialised "tail.json" "avg_wf" 1 last_first
                   ex_tail_world))).
  vm_compute. reflexivity.
Defined.

Lemma calibrate_time_avg_wf_needs_reference_witness :
  fst (calibrate_time first_pixel ex_nanmean ex_lstsq ex_uninitialised
         "scan.json" "avg_wf" 1 last_first ex_filter_world)
    = Raise BackgroundNotFound.
Proof.
  apply (calibrate_time_avg_wf_needs_reference unit first_pixel ex_nanmean
           ex_lstsq ex_uninitialised "scan.json" 1 last_first ex_filter_world
           [1e15%float; 2e15%float; 3e15%float; 4e15%float; 5e15%float]
           "a.h5" ["b.h5"; "c.h5"; "d.h5"; "e.h5"]%string (ex_recording 1)
           (ex_waveforms, [1; 2; 3; 4], Some [false; true; false; true], None));
    vm_compute; reflexivity.
Defined.

Lemma calibrate_time_empty_scan_witness :
  calibrate_time first_pixel ex_nanmean ex_lstsq ex_uninitialised
    "empty.json" "avg_edge" 1 last_first ex_tail_world
    = (Raise PolyfitTypeError, ex_tail_world) /\
  calibrate_time first_pixel ex_nanmean ex_lstsq ex_uninitialised
    "empty.json" "avg_wf" 1 last_first ex_tail_world
    = (Raise PolyfitTypeError, ex_tail_world).
Proof.
  destruct (calibrate_time_empty_scan unit first_pixel ex_nanmean ex_lstsq
              ex_uninitialised "empty.json" 1 last_first ex_tail_world [])
    as [Hedge Hwf].
  - right. eexists. reflexivity.
  - vm_compute. reflexivity.
  - split; [apply Hedge; lia | apply Hwf; reflexivity].
Defined.

(** ** Configuration and calibration: what stays valid *)

Lemma str_in_elem x l : str_in x l = true -> x ∈ l.
Proof. apply str_in_spec. Qed.

(** X22. The validated configuration is an invariant: an engine that
    [__init__] accepts satisfies it, starts without reference and without
    time calibration, and a setter either raises or returns an engine that
    satisfies it, with the new value and with the stored reference and the
    time calibration untouched; assigning the two strategy attributes
    keeps it too. *)
Theorem config_ok_invariant :
  (forall c r bm sl ev de df rf et s,
      init c r bm sl ev de df rf et = Ok s ->
      config_ok s /\ _background s = None /\ pix_per_fs s = None) /\
  (forall s, config_ok s ->
     (forall v s', set_background_method v s = Ok s' ->
        config_ok s' /\ background_method s' = v /\ v ∈ background_methods /\
        _background s' = _background s /\ pix_per_fs s' = pix_per_fs s) /\
     (forall v s', set_edge_type v s = Ok s' ->
        config_ok s' /\ edge_type s' = v /\ v ∈ edge_types /\
        _background s' = _background s /\ pix_per_fs s' = pix_per_fs s) /\
     (forall v s', set_step_length v s = Ok s' ->
        config_ok s' /\ step_length s' = v /\ 4 <= v /\
        _background s' = _background s /\ pix_per_fs s' = pix_per_fs s) /\
     (forall v, config_ok (set_events_channel v s)) /\
     (forall v, config_ok (set_dark_shot_filter v s))).
Proof.
  split.
  - intros c r bm sl ev de df rf et s H.
    pose proof (init_config_ok _ _ _ _ _ _ _ _ _ _ H) as Hok.
    split; [exact Hok |]. unfold init in H.
    destruct (_ && _); [discriminate |].
    destruct (negb (str_in bm _)); [discriminate |].
    destruct (sl <? 4); [discriminate |].
    destruct (negb (str_in et _)); [discriminate |].
    injection H as <-. split; reflexivity.
  - intros s (Hm & He & Hs). split; [| split; [| split; [| split]]].
    + intros v s'. unfold set_background_method.
      destruct (str_in v background_methods) eqn:Hv; [| discriminate].
      intros [= <-]. repeat split; try assumption.
      apply str_in_elem. exact Hv.
    + intros v s'. unfold set_edge_type.
      destruct (str_in v edge_types) eqn:Hv; [| discriminate].
      intros [= <-]. repeat split; try assumption.
      apply str_in_elem. exact Hv.
    + intros v s'. unfold set_step_length.
      destruct (Z.ltb_spec v 4); [discriminate |].
      intros [= <-]. repeat split; try assumption; simpl; lia.
    + intros v. repeat split; assumption.
    + intros v. repeat split; assumption.
Qed.

(** X23. [calibrate_background] with a dark mask that has a set flag but
    not one flag per waveform raises [IndexError]; whenever it raises the
    world is as it was; when it returns it has replaced the stored
    reference and changed nothing else, no array and no setting; and a
    second call on the same data changes nothing more. *)
Theorem calibrate_background_frame data dark w :
  (forall mask, dark = Some mask -> np_any mask = true ->
     length mask <> length (rows data) ->
     calibrate_background data dark w = (Raise IndexError, w)) /\
  (forall e w', calibrate_background data dark w = (Raise e, w') -> w' = w) /\
  (forall w', calibrate_background data dark w = (Ok tt, w') ->
     heap w' = heap w /\ h5_files w' = h5_files w /\
     eco_files w' = eco_files w /\ settings (self w') = settings (self w) /\
     pix_per_fs (self w') = pix_per_fs (self w) /\
     is_Some (_background (self w')) /\
     calibrate_background data dark w' = (Ok tt, w')).
Proof.
  unfold calibrate_background, bind, lift, get_self, put_self.
  split; [| split].
  - intros mask -> Hany Hlen. unfold dark_rows, mask_select. rewrite Hany.
    destruct (Nat.eqb_spec (length mask) (length (rows data)));
      [contradiction | reflexivity].
  - intros e w'. destruct (dark_rows data dark); [discriminate |].
    intros [= _ <-]. reflexivity.
  - intros w'. destruct (dark_rows data dark) as [data'|]; [| discriminate].
    intros [= <-]. simpl. repeat split. eexists. reflexivity.
Qed.

Lemma calibrate_background_frame_witness :
  calibrate_background ex_data (Some [true; false]) (ex_heap_world "sub")
    = (Raise IndexError, ex_heap_world "sub").
Proof.
  apply (proj1 (calibrate_background_frame ex_data (Some [true; false])
                  (ex_heap_world "sub")) [true; false]).
  - reflexivity.
  - reflexivity.
  - simpl. lia.
Defined.

Lemma config_ok_invariant_witness :
  config_ok (ex_encoder "div" None) /\
  exists s',
    set_background_method "sub" (ex_encoder "div" None) = Ok s' /\
    config_ok s' /\ background_method s' = "sub"%string /\
    "sub"%string ∈ background_methods /\
    _background s' = _background (ex_encoder "div" None) /\
    pix_per_fs s' = pix_per_fs (ex_encoder "div" None).
Proof.
  assert (Hok : config_ok (ex_encoder "div" None)).
  { repeat split; try reflexivity. simpl. lia. }
  split; [exact Hok |].
  exists (ex_encoder "sub" None). split; [reflexivity |].
  apply (proj1 (proj2 config_ok_invariant (ex_encoder "div" None) Hok)).
  reflexivity.
Defined.
